(** * Model Scout MCP: the catalog cache, the record normalizer and the
    consideration engine of [index.js], embedded in Rocq.

    Conventions of the embedding.
    - A JavaScript number that the upstream schema documents as an integer
      ([context_length], [created], HTTP status, counts) is a [Z]; prices and
      workload volumes are IEEE 754 doubles ([float], the kernel's binary64).
    - A JavaScript string is a [string]; [undefined] and a missing property
      are [None].
    - A function that can throw returns a [Completion]; the module-level
      cache, the clock and the network are threaded through a [World].
    - Library functions of the host ([parseFloat], [toLowerCase],
      [localeCompare], the number and date printers) are the fields of the
      class [Builtins]: every theorem of the section holds for any
      implementation of them.
    - [Array.prototype.sort] is the stable insertion sort [sort], the array
      every engine returns when the comparator is consistent for the
      elements; where it is not, the order is the engine's, and statements
      about the order are made under [consistentb]. *)

From Stdlib Require Import Bool Arith ZArith Lia List String Ascii.
From Stdlib Require Import Floats DecimalString Sorted Permutation.
Import ListNotations.

Local Open Scope string_scope.
Local Open Scope list_scope.

(** ** Completions: normal return or a thrown exception *)

Inductive Exn : Type :=
| Error (message : string)
| TypeError (message : string)
| RangeError (message : string).

Inductive Completion (A : Type) : Type :=
| Normal (value : A)
| Throw (e : Exn).

Arguments Normal {A} value.
Arguments Throw {A} e.

Definition bind {A B : Type} (c : Completion A) (k : A -> Completion B) : Completion B :=
  match c with
  | Normal a => k a
  | Throw e => Throw e
  end.

Notation "x <- c ;; k" := (bind c (fun x => k))
  (at level 61, c at next level, right associativity).

(** [Array.prototype.map] with a callback that may throw: the first exception
    aborts the traversal. *)
Fixpoint mapM {A B : Type} (f : A -> Completion B) (l : list A) : Completion (list B) :=
  match l with
  | [] => Normal []
  | x :: l' => y <- f x ;; ys <- mapM f l' ;; Normal (y :: ys)
  end.

(** ** Numbers *)

(** JavaScript truthiness of a number: false for [+0], [-0] and [NaN]. *)
Definition truthy (x : float) : bool :=
  negb (x =? 0)%float && negb (is_nan x).

Definition truthyZ (n : Z) : bool := negb (n =? 0)%Z.

(** The sign a comparator result has for [Array.prototype.sort]: a negative
    number, a positive number, or neither ([0] and [NaN]). *)
Definition signF (v : float) : comparison :=
  if (v <? 0)%float then Lt else if (0 <? v)%float then Gt else Eq.

Definition signZ (v : Z) : comparison := (v ?= 0)%Z.

Definition string_of_Z (n : Z) : string := NilZero.string_of_int (Z.to_int n).

Definition million : float := 1000000%float.

(** ** Strings *)

(** [s.includes(sub)]. *)
Fixpoint includes (s sub : string) : bool :=
  if prefix sub s then true
  else match s with
       | EmptyString => false
       | String _ s' => includes s' sub
       end.

(** [s.split(sep)] for a one-character separator. *)
Fixpoint split (sep : ascii) (s : string) : list string :=
  match s with
  | EmptyString => [EmptyString]
  | String c s' =>
      if Ascii.eqb c sep then EmptyString :: split sep s'
      else match split sep s' with
           | [] => [String c EmptyString]
           | p :: ps => String c p :: ps
           end
  end.

Definition nonEmpty (s : string) : bool := negb (s =? "").

(** A value spliced into a template literal: [undefined] prints as the word. *)
Definition interpolate (v : option string) : string :=
  match v with
  | Some s => s
  | None => "undefined"
  end.

(** ** Arrays *)

(** [arr.includes(x)] on an array of strings. *)
Definition mem (x : string) (l : list string) : bool := existsb (String.eqb x) l.

(** [arr.reduce(f)] without an initial value. *)
Definition reduce {A : Type} (f : A -> A -> A) (l : list A) : Completion A :=
  match l with
  | [] => Throw (TypeError "Reduce of empty array with no initial value")
  | x :: l' => Normal (fold_left f l' x)
  end.

(** [arr.slice(0, n)] for an integer [n]: a negative [n] counts from the end. *)
Definition slice0 {A : Type} (l : list A) (n : Z) : list A :=
  if (0 <=? n)%Z then firstn (Z.to_nat n) l
  else firstn (List.length l - Z.to_nat (- n)) l.

(** [arr.sort(cmp)]: ECMAScript requires a stable sort, and for a consistent
    comparator every stable sort returns the same array.  The embedding is the
    insertion sort that moves an element to the right only past elements the
    comparator ranks strictly before it.  It stands for the engine's sort on
    the arrays on which the comparator is consistent ([consistentb] below);
    on the others ECMAScript leaves the order to the engine, and
    [shortArraySort] below is what V8 then does. *)
Fixpoint insert {A : Type} (cmp : A -> A -> comparison) (x : A) (l : list A) : list A :=
  match l with
  | [] => [x]
  | y :: l' =>
      match cmp x y with
      | Gt => y :: insert cmp x l'
      | _ => x :: l
      end
  end.

Fixpoint sort {A : Type} (cmp : A -> A -> comparison) (l : list A) : list A :=
  match l with
  | [] => []
  | x :: l' => insert cmp x (sort cmp l')
  end.

(** ** Host library functions *)

Class Builtins : Type := {
  parseFloat : string -> float;
  toLowerCase : string -> string;
  localeCompare : string -> string -> Z;
  toISOString : Z -> string;
  toFixed : float -> Z -> string;
  toLocaleString : Z -> string
}.

(** ** Data *)

(** What [parsePrice] may be handed: a missing property, the text of an
    upstream price, or the number of a normalized record. *)
Inductive Value : Type :=
| Undefined
| Str (s : string)
| Num (x : float).

(** The upstream [pricing] object: string-valued properties. *)
Definition PricingObject : Type := list (string * string).

Fixpoint lookup (key : string) (o : PricingObject) : option string :=
  match o with
  | [] => None
  | (k, v) :: o' => if k =? key then Some v else lookup key o'
  end.

Definition prop (o : PricingObject) (key : string) : Value :=
  match lookup key o with
  | Some s => Str s
  | None => Undefined
  end.

Record Architecture : Type := {
  modality : option string;
  input_modalities : option (list string);
  output_modalities : option (list string)
}.

Record TopProvider : Type := {
  max_completion_tokens : option Z;
  is_moderated : option bool
}.

(** One record of the upstream catalog. *)
Module Raw.
Record t : Type := mk {
  id : string;
  canonical_slug : option string;
  name : string;
  hugging_face_id : option string;
  created : Z;
  description : option string;
  context_length : Z;
  architecture : option Architecture;
  pricing : PricingObject;
  top_provider : option TopProvider;
  supported_parameters : option (list string)
}.
End Raw.

Record Pricing : Type := {
  prompt : float;
  completion : float;
  prompt_per_1m : float;
  completion_per_1m : float;
  total_per_1m : float;
  request : option float;
  image : option float;
  web_search : option float;
  internal_reasoning : option float;
  has_caching : bool;
  cache_read_per_1m : option float
}.

(** The normalized record [formatModelData] returns. *)
Module Rec.
Record t : Type := mk {
  id : string;
  canonical_slug : option string;
  name : string;
  provider : string;
  api_endpoint : string;
  api_format : string;
  hugging_face_id : option string;
  context_length : Z;
  max_completion_tokens : option Z;
  created : string;
  description : option string;
  modality : option string;
  input_modalities : list string;
  output_modalities : list string;
  supported_parameters : list string;
  pricing : Pricing;
  is_moderated : bool;
  is_free : bool
}.
End Rec.

(** ** The catalog cache and the world around it *)

Record Cache : Type := {
  data : option (list Raw.t);
  timestamp : option Z
}.

Record Response : Type := {
  ok : bool;
  status : Z;
  statusText : string;
  json : Completion (list Raw.t)
}.

(** What [await fetch(...)] does: the promise rejects, or a response comes. *)
Inductive FetchOutcome : Type :=
| Rejected (e : Exn)
| Fulfilled (r : Response).

Record World : Type := {
  now : Z;
  modelsCache : Cache;
  network : FetchOutcome;
  requests : nat
}.

Record FetchResult : Type := {
  models : list Raw.t;
  cache_age : Z;
  cached : bool
}.

Definition CACHE_DURATION_MS : Z := (10 * 60 * 1000)%Z.

(** [modelsCache.data && modelsCache.timestamp]. *)
Definition hasSnapshot (c : Cache) : bool :=
  match data c, timestamp c with
  | Some _, Some t => truthyZ t
  | _, _ => false
  end.

Definition issueRequest (w : World) : World :=
  {| now := now w; modelsCache := modelsCache w; network := network w;
     requests := S (requests w) |}.

Definition updateCache (w : World) (c : Cache) : World :=
  {| now := now w; modelsCache := c; network := network w;
     requests := requests w |}.

Definition fetchFresh (w : World) : Completion FetchResult * World :=
  let w1 := issueRequest w in
  match network w with
  | Rejected e => (Throw e, w1)
  | Fulfilled response =>
      if negb (ok response) then
        (Throw (Error ("OpenRouter API error: " ++ string_of_Z (status response)
                         ++ " " ++ statusText response)), w1)
      else
        match json response with
        | Throw e => (Throw e, w1)
        | Normal body =>
            (Normal {| models := body; cache_age := 0; cached := false |},
             updateCache w1 {| data := Some body; timestamp := Some (now w) |})
        end
  end.

Definition fetchModels (forceRefresh : bool) (w : World) : Completion FetchResult * World :=
  match data (modelsCache w), timestamp (modelsCache w) with
  | Some snapshot, Some fetchedAt =>
      if negb forceRefresh && truthyZ fetchedAt then
        let age := (now w - fetchedAt)%Z in
        if (age <? CACHE_DURATION_MS)%Z then
          (Normal {| models := snapshot; cache_age := (age / 1000)%Z; cached := true |}, w)
        else fetchFresh w
      else fetchFresh w
  | _, _ => fetchFresh w
  end.

(** ** Requests and responses of [consider_models] *)

Inductive ProviderFilter : Type :=
| OneProvider (p : string)
| ManyProviders (ps : list string).

Module Filters.
Record t : Type := mk {
  provider : option ProviderFilter;
  free_only : option bool;
  min_context : option Z;
  max_context : option Z;
  max_price_per_1m : option float;
  has_vision : option bool;
  has_tools : option bool;
  has_reasoning : option bool;
  modality : option string
}.
End Filters.

Record Workload : Type := {
  prompt_tokens : option float;
  completion_tokens : option float;
  requests_per_day : option float;
  requests_per_month : option float;
  images : option float
}.

Record Intent : Type := {
  filters : Filters.t;
  search_terms : list string;
  sort_preference : string;
  understood_as : string
}.

Record Scored : Type := {
  model : Raw.t;
  score : nat
}.

Record Breakdown : Type := {
  prompt_cost : option float;
  completion_cost : option float;
  daily_request_cost : option float;
  monthly_request_cost : option float;
  image_cost : option float
}.

Record CostEstimate : Type := {
  total : float;
  breakdown : Breakdown;
  daily : option float;
  monthly : option float;
  per_request : option float
}.

Record Table : Type := {
  headers : list string;
  rows : list (list string)
}.

Record CostTable : Type := {
  cost_headers : list string;
  cost_rows : list (list string);
  cost_cheapest : string
}.

Record Summary : Type := {
  cheapest : string;
  highest_context : string;
  most_capable : string
}.

Record Comparison : Type := {
  pricing_table : Table;
  capabilities_table : Table;
  cost_estimate : option CostTable;
  summary : Summary
}.

Module Params.
Record t : Type := mk {
  request : option string;
  filters : option Filters.t;
  model_ids : option (list string);
  workload : option Workload;
  max_results : option Z;
  sort_by : option string;
  force_refresh : bool
}.
End Params.

Record Interpretation : Type := {
  interpreted_as : string;
  applied_filters : Filters.t;
  search_strategy : string;
  interpreted_terms : list string
}.

Record ResultEntry : Type := {
  entry_id : string;
  entry_name : string;
  entry_provider : string;
  entry_context_length : Z;
  entry_prompt_per_1m : float;
  entry_completion_per_1m : float;
  entry_total_per_1m : float;
  capabilities : list string;
  entry_is_free : bool;
  estimated_cost : option CostEstimate
}.

Record CostOption : Type := {
  option_id : string;
  cost : float
}.

Record CostAnalysis : Type := {
  cheapest_option : CostOption;
  most_expensive_option : CostOption;
  potential_savings : float
}.

Module Reply.
Record t : Type := mk {
  interpretation : Interpretation;
  models : list ResultEntry;
  total_models_found : nat;
  models_returned : nat;
  cache_age : option Z;
  comparison : option Comparison;
  cost_analysis : option CostAnalysis
}.
End Reply.

(** ** Concrete host functions, used where a statement is evaluated *)

Definition lowerAscii (c : ascii) : ascii :=
  let n := nat_of_ascii c in
  if (65 <=? n)%nat && (n <=? 90)%nat then ascii_of_nat (n + 32) else c.

Fixpoint lowerString (s : string) : string :=
  match s with
  | EmptyString => EmptyString
  | String c s' => String (lowerAscii c) (lowerString s')
  end.

Definition digitOf (c : ascii) : option Z :=
  let n := nat_of_ascii c in
  if (48 <=? n)%nat && (n <=? 57)%nat then Some (Z.of_nat (n - 48)) else None.

(** Reads [digits] or [digits.digits]; [None] on anything else.  The result is
    the digit string as an integer and the number of fraction digits. *)
Fixpoint readDecimal (s : string) (acc : Z) (seen : bool) (frac : option nat) : option (Z * nat) :=
  match s with
  | EmptyString =>
      if seen then Some (acc, match frac with Some k => k | None => 0%nat end) else None
  | String c s' =>
      match digitOf c with
      | Some d =>
          readDecimal s' (10 * acc + d)%Z true
            (match frac with Some k => Some (S k) | None => None end)
      | None =>
          if Ascii.eqb c "."%char then
            match frac with
            | None => if seen then readDecimal s' acc false (Some 0%nat) else None
            | Some _ => None
            end
          else None
      end
  end.

Fixpoint pow10 (k : nat) : float :=
  match k with
  | O => 1%float
  | S k' => (10 * pow10 k')%float
  end.

(** [parseFloat] on plain decimal literals ([digits] or [digits.digits], at
    most 15 digits), where one correctly rounded division gives the nearest
    double.  On any other text the answer here is [NaN], which is what
    [parseFloat] gives for text that starts with no numeral, such as "abc". *)
Definition parseDecimal (s : string) : float :=
  match readDecimal s 0 false None with
  | Some (n, k) =>
      if (n <? 1000000000000000)%Z && (k <=? 22)%nat
      then (of_uint63 (Uint63.of_Z n) / pow10 k)%float
      else nan
  | None => nan
  end.

(** Comparison by character code, one possible collation. *)
Fixpoint compareString (a b : string) : Z :=
  match a, b with
  | EmptyString, EmptyString => 0
  | EmptyString, String _ _ => -1
  | String _ _, EmptyString => 1
  | String x a', String y b' =>
      match (nat_of_ascii x ?= nat_of_ascii y)%nat with
      | Lt => -1
      | Gt => 1
      | Eq => compareString a' b'
      end
  end.

(** A host for plain ASCII text.  The printers only produce display text,
    which no statement below inspects; here they are stand-ins. *)
Definition hostModel : Builtins := {|
  parseFloat := parseDecimal;
  toLowerCase := lowerString;
  localeCompare := compareString;
  toISOString := fun ms => (string_of_Z ms ++ "ms")%string;
  toFixed := fun _ digits => ("#." ++ string_of_Z digits)%string;
  toLocaleString := string_of_Z
|}.

(** ** The program *)

Section Program.

Context `{Builtins}.

(** [priceStr ? parseFloat(priceStr) : 0].  On a number, [parseFloat] first
    prints it, and the printed form of a truthy number reads back as that
    number. *)
Definition parsePrice (priceStr : Value) : float :=
  match priceStr with
  | Undefined => 0%float
  | Str s => if nonEmpty s then parseFloat s else 0%float
  | Num x => if truthy x then x else 0%float
  end.

(** [modelId.split('/')[0] || '']. *)
Definition extractProvider (modelId : string) : string :=
  match split "/" modelId with
  | p :: _ => if nonEmpty p then p else ""
  | [] => ""
  end.

Definition isFree (pricing : PricingObject) : bool :=
  (parsePrice (prop pricing "prompt") =? 0)%float
  && (parsePrice (prop pricing "completion") =? 0)%float.

(** [arr?.includes(x)], read as a condition. *)
Definition has (x : string) (arr : option (list string)) : bool :=
  match arr with
  | Some l => mem x l
  | None => false
  end.

Definition getCapabilities (inputs params : option (list string)) : list string :=
  (if has "image" inputs then ["vision"] else [])
  ++ (if match inputs with Some l => (1 <? List.length l)%nat | None => false end
      then ["multimodal"] else [])
  ++ (if has "tools" params then ["tools"] else [])
  ++ (if has "reasoning" params then ["reasoning"] else [])
  ++ (if has "structured_outputs" params then ["structured_outputs"] else []).

(** [x || undefined] on a number. *)
Definition orUndefined (x : float) : option float :=
  if truthy x then Some x else None.

(** [new Date(seconds * 1000).toISOString()], which throws outside the range
    of time values. *)
Definition isoDate (seconds : Z) : Completion string :=
  let ms := (seconds * 1000)%Z in
  if (Z.abs ms <=? 8640000000000000)%Z then Normal (toISOString ms)
  else Throw (RangeError "Invalid time value").

Definition formatPricing (pricing : PricingObject) : Pricing :=
  let promptPrice := parsePrice (prop pricing "prompt") in
  let completionPrice := parsePrice (prop pricing "completion") in
  {| prompt := promptPrice;
     completion := completionPrice;
     prompt_per_1m := (promptPrice * million)%float;
     completion_per_1m := (completionPrice * million)%float;
     total_per_1m := ((promptPrice + completionPrice) * million)%float;
     request := orUndefined (parsePrice (prop pricing "request"));
     image := orUndefined (parsePrice (prop pricing "image"));
     web_search := orUndefined (parsePrice (prop pricing "web_search"));
     internal_reasoning := orUndefined (parsePrice (prop pricing "internal_reasoning"));
     has_caching :=
       match lookup "input_cache_read" pricing with
       | Some s => nonEmpty s
       | None => false
       end;
     cache_read_per_1m :=
       match lookup "input_cache_read" pricing with
       | Some s =>
           if nonEmpty s then Some (parsePrice (Str s) * million)%float else None
       | None => None
       end |}.

Definition formatModelData (m : Raw.t) : Completion Rec.t :=
  iso <- isoDate (Raw.created m) ;;
  Normal
    {| Rec.id := Raw.id m;
       Rec.canonical_slug := Raw.canonical_slug m;
       Rec.name := Raw.name m;
       Rec.provider := extractProvider (Raw.id m);
       Rec.api_endpoint := "https://openrouter.ai/api/v1/chat/completions";
       Rec.api_format := "OpenAI-compatible";
       Rec.hugging_face_id :=
         match Raw.hugging_face_id m with
         | Some s => if nonEmpty s then Some s else None
         | None => None
         end;
       Rec.context_length := Raw.context_length m;
       Rec.max_completion_tokens :=
         match Raw.top_provider m with
         | Some tp =>
             match max_completion_tokens tp with
             | Some n => if truthyZ n then Some n else None
             | None => None
             end
         | None => None
         end;
       Rec.created := iso;
       Rec.description := Raw.description m;
       Rec.modality :=
         match Raw.architecture m with
         | Some a => modality a
         | None => None
         end;
       Rec.input_modalities :=
         match Raw.architecture m with
         | Some a => match input_modalities a with Some l => l | None => [] end
         | None => []
         end;
       Rec.output_modalities :=
         match Raw.architecture m with
         | Some a => match output_modalities a with Some l => l | None => [] end
         | None => []
         end;
       Rec.supported_parameters :=
         match Raw.supported_parameters m with Some l => l | None => [] end;
       Rec.pricing := formatPricing (Raw.pricing m);
       Rec.is_moderated :=
         match Raw.top_provider m with
         | Some tp => match is_moderated tp with Some b => b | None => false end
         | None => false
         end;
       Rec.is_free := isFree (Raw.pricing m) |}.

(** The predicate [getModel] hands to [models.find]. *)
Definition matchesIdentifier (modelId : string) (m : Raw.t) : bool :=
  (Raw.id m =? modelId)
  || match Raw.canonical_slug m with Some slug => slug =? modelId | None => false end
  || (toLowerCase (Raw.id m) =? toLowerCase modelId)
  || includes (toLowerCase (Raw.name m)) (toLowerCase modelId).

(** [getModel] once the snapshot is in hand. *)
Definition lookupModel (snapshot : list Raw.t) (modelId : string) : Completion Rec.t :=
  match find (matchesIdentifier modelId) snapshot with
  | None => Throw (Error ("Model not found: " ++ modelId))
  | Some m => formatModelData m
  end.

Definition getModel (modelId : string) (w : World) : Completion Rec.t * World :=
  let (fetched, w') := fetchModels false w in
  (r <- fetched ;; lookupModel (models r) modelId, w').

(** [if (filters.provider)] and the array the filter then works with. *)
Definition providersOf (f : option ProviderFilter) : option (list string) :=
  match f with
  | Some (OneProvider p) => if nonEmpty p then Some [p] else None
  | Some (ManyProviders ps) => Some ps
  | None => None
  end.

Definition flag (b : option bool) : bool :=
  match b with
  | Some true => true
  | _ => false
  end.

Definition rawTotal (m : Raw.t) : float :=
  (parsePrice (prop (Raw.pricing m) "prompt")
   + parsePrice (prop (Raw.pricing m) "completion"))%float.

Definition applyFilters (models : list Raw.t) (f : Filters.t) : list Raw.t :=
  let filtered := models in
  let filtered :=
    match providersOf (Filters.provider f) with
    | Some providers =>
        filter (fun m =>
                  existsb (fun p => toLowerCase (extractProvider (Raw.id m)) =? toLowerCase p)
                    providers) filtered
    | None => filtered
    end in
  let filtered :=
    if flag (Filters.free_only f)
    then filter (fun m => isFree (Raw.pricing m)) filtered else filtered in
  let filtered :=
    match Filters.min_context f with
    | Some n =>
        if truthyZ n then filter (fun m => (n <=? Raw.context_length m)%Z) filtered
        else filtered
    | None => filtered
    end in
  let filtered :=
    match Filters.max_context f with
    | Some n =>
        if truthyZ n then filter (fun m => (Raw.context_length m <=? n)%Z) filtered
        else filtered
    | None => filtered
    end in
  let filtered :=
    match Filters.max_price_per_1m f with
    | Some limit =>
        if truthy limit
        then filter (fun m => (rawTotal m * million <=? limit)%float) filtered
        else filtered
    | None => filtered
    end in
  let filtered :=
    if flag (Filters.has_vision f)
    then filter (fun m =>
                   match Raw.architecture m with
                   | Some a => has "image" (input_modalities a)
                   | None => false
                   end) filtered
    else filtered in
  let filtered :=
    if flag (Filters.has_tools f)
    then filter (fun m => has "tools" (Raw.supported_parameters m)) filtered
    else filtered in
  let filtered :=
    if flag (Filters.has_reasoning f)
    then filter (fun m => has "reasoning" (Raw.supported_parameters m)) filtered
    else filtered in
  match Filters.modality f with
  | Some wanted =>
      if nonEmpty wanted
      then filter (fun m =>
                     match Raw.architecture m with
                     | Some a =>
                         match modality a with
                         | Some tag => tag =? wanted
                         | None => false
                         end
                     | None => false
                     end) filtered
      else filtered
  | None => filtered
  end.

Definition providerKeywords : list string :=
  ["openai"; "anthropic"; "claude"; "gpt"; "meta"; "llama"; "google"; "gemini"].

Definition parseRequest (request : string) : Intent :=
  let lower := toLowerCase request in
  let cost :=
    includes lower "cheap" || includes lower "affordable" || includes lower "low cost" in
  let free := includes lower "free" in
  let vision :=
    includes lower "vision" || includes lower "image" || includes lower "multimodal" in
  let tools := includes lower "tool" || includes lower "function" in
  let reasoning := includes lower "reasoning" || includes lower "think" in
  let instruct := includes lower "instruct" in
  let chat := includes lower "chat" in
  let long := includes lower "long context" || includes lower "large context" in
  {| filters :=
       {| Filters.provider := None;
          Filters.free_only := if free then Some true else None;
          Filters.min_context := if long then Some 100000%Z else None;
          Filters.max_context := None;
          Filters.max_price_per_1m := None;
          Filters.has_vision := if vision then Some true else None;
          Filters.has_tools := if tools then Some true else None;
          Filters.has_reasoning := if reasoning then Some true else None;
          Filters.modality := None |};
     search_terms :=
       (if vision then ["vision"; "multimodal"] else [])
       ++ (if tools then ["tools"; "function"] else [])
       ++ (if reasoning then ["reasoning"] else [])
       ++ (if instruct then ["instruct"] else [])
       ++ (if chat then ["chat"] else [])
       ++ filter (fun keyword => includes lower keyword) providerKeywords;
     sort_preference :=
       if long then "context" else if cost then "price" else "relevance";
     understood_as :=
       if free then "free models only"
       else if cost then "cost-optimized search" else "" |}.

(** The text a search term is looked for in:
    [`${model.name} ${model.description} ${model.id}`.toLowerCase()]. *)
Definition searchableText (m : Raw.t) : string :=
  toLowerCase
    (Raw.name m ++ " " ++ interpolate (Raw.description m) ++ " " ++ Raw.id m)%string.

Definition termOccurs (m : Raw.t) (term : string) : bool :=
  includes (searchableText m) (toLowerCase term).

(** The loop [for (const term of searchTerms) if (...) score += 1]. *)
Definition scoreOf (m : Raw.t) (searchTerms : list string) : nat :=
  fold_left (fun score term => if termOccurs m term then S score else score)
    searchTerms 0%nat.

Definition searchModels (models : list Raw.t) (searchTerms : list string) : list Scored :=
  match searchTerms with
  | [] => map (fun m => {| model := m; score := 1 |}) models
  | _ :: _ =>
      filter (fun item => (0 <? score item)%nat)
        (map (fun m => {| model := m; score := scoreOf m searchTerms |}) models)
  end.

(** A workload field read as a condition: present and truthy. *)
Definition given (v : option float) : option float :=
  match v with
  | Some x => if truthy x then Some x else None
  | None => None
  end.

Definition numberOrUndefined (v : option float) : Value :=
  match v with
  | Some x => Num x
  | None => Undefined
  end.

(** [a || b] on numbers. *)
Definition orElse (a b : float) : float := if truthy a then a else b.

Definition calculateCost (m : Rec.t) (w : Workload) : CostEstimate :=
  let pricing := Rec.pricing m in
  let totalCost := 0%float in
  let prompt_cost :=
    match given (prompt_tokens w) with
    | Some n => Some (parsePrice (Num (prompt pricing)) * n)%float
    | None => None
    end in
  let totalCost :=
    match prompt_cost with Some c => (totalCost + c)%float | None => totalCost end in
  let completion_cost :=
    match given (completion_tokens w) with
    | Some n => Some (parsePrice (Num (completion pricing)) * n)%float
    | None => None
    end in
  let totalCost :=
    match completion_cost with Some c => (totalCost + c)%float | None => totalCost end in
  let requestCost := orElse (parsePrice (numberOrUndefined (request pricing))) 0%float in
  let daily_request_cost :=
    match given (requests_per_day w) with
    | Some n => Some (requestCost * n)%float
    | None => None
    end in
  let monthly_projection :=
    match daily_request_cost with
    | Some d => Some (d * 30)%float
    | None => None
    end in
  let totalCost :=
    match daily_request_cost with Some c => (totalCost + c)%float | None => totalCost end in
  let monthly_of_month :=
    match given (requests_per_month w) with
    | Some n => Some (requestCost * n)%float
    | None => None
    end in
  let totalCost :=
    match monthly_of_month with Some c => (totalCost + c)%float | None => totalCost end in
  let image_cost :=
    match given (images w) with
    | Some n => Some (parsePrice (numberOrUndefined (image pricing)) * n)%float
    | None => None
    end in
  let totalCost :=
    match image_cost with Some c => (totalCost + c)%float | None => totalCost end in
  {| total := totalCost;
     breakdown :=
       {| prompt_cost := prompt_cost;
          completion_cost := completion_cost;
          daily_request_cost := daily_request_cost;
          monthly_request_cost :=
            match monthly_of_month with
            | Some c => Some c
            | None => monthly_projection
            end;
          image_cost := image_cost |};
     daily :=
       match given (requests_per_day w) with
       | Some _ => Some totalCost
       | None => None
       end;
     monthly :=
       match given (requests_per_day w) with
       | Some _ => Some (totalCost * 30)%float
       | None =>
           match given (requests_per_month w) with
           | Some _ => Some totalCost
           | None => None
           end
       end;
     per_request :=
       match given (requests_per_day w) with
       | Some perDay => Some (totalCost / perDay)%float
       | None =>
           match given (requests_per_month w) with
           | Some perMonth => Some (totalCost / (perMonth / 30))%float
           | None => None
           end
       end |}.

(** The comparator each criterion hands to [sort]; [None] for the [default]
    branch of the [switch], which sorts nothing. *)
Definition comparator (sortBy : string) : option (Raw.t -> Raw.t -> comparison) :=
  if sortBy =? "price" then
    Some (fun a b => signF (rawTotal a - rawTotal b)%float)
  else if sortBy =? "context" then
    Some (fun a b => signZ (Raw.context_length b - Raw.context_length a)%Z)
  else if sortBy =? "created" then
    Some (fun a b => signZ (Raw.created b - Raw.created a)%Z)
  else if sortBy =? "name" then
    Some (fun a b => signZ (localeCompare (Raw.name a) (Raw.name b)))
  else None.

Definition sortModels (models : list Raw.t) (sortBy : string) : list Raw.t :=
  match comparator sortBy with
  | Some cmp => sort cmp models
  | None => models
  end.

(** [v.toFixed(digits)] where [v] was read from a property that may be
    missing, or may hold a string, which has no [toFixed]. *)
Definition toFixedOf (v : Value) (digits : Z) : Completion string :=
  match v with
  | Num x => Normal (toFixed x digits)
  | Str _ => Throw (TypeError "toFixed is not a function")
  | Undefined => Throw (TypeError "Cannot read properties of undefined (reading 'toFixed')")
  end.

Definition mark (b : bool) : string := if b then "✓" else "✗".

Definition pricingRow (m : Raw.t) : Completion (list string) :=
  p <- toFixedOf (prop (Raw.pricing m) "prompt_per_1m") 2 ;;
  c <- toFixedOf (prop (Raw.pricing m) "completion_per_1m") 2 ;;
  t <- toFixedOf (prop (Raw.pricing m) "total_per_1m") 2 ;;
  Normal [Raw.name m; ("$" ++ p)%string; ("$" ++ c)%string; ("$" ++ t)%string].

Definition capabilitiesRow (m : Raw.t) : list string :=
  [Raw.name m;
   toLocaleString (Raw.context_length m);
   mark match Raw.architecture m with
        | Some a => has "image" (input_modalities a)
        | None => false
        end;
   mark (has "tools" (Raw.supported_parameters m));
   mark (has "reasoning" (Raw.supported_parameters m))].

Definition costRow (entry : Raw.t * CostEstimate) : list string :=
  let (m, estimate) := entry in
  [Raw.name m;
   ("$" ++ toFixed (total estimate) 4)%string;
   match per_request estimate with
   | Some r => if truthy r then ("$" ++ toFixed r 6)%string else "N/A"
   | None => "N/A"
   end].

Definition cheaperEstimate (min curr : Raw.t * CostEstimate) : Raw.t * CostEstimate :=
  if (total (snd curr) <? total (snd min))%float then curr else min.

Definition cheaper (min curr : Raw.t) : Raw.t :=
  if (rawTotal curr <? rawTotal min)%float then curr else min.

Definition longerContext (max curr : Raw.t) : Raw.t :=
  if (Raw.context_length max <? Raw.context_length curr)%Z then curr else max.

(** [m.supported_parameters?.length || 0]. *)
Definition parameterCount (m : Raw.t) : nat :=
  match Raw.supported_parameters m with
  | Some l => List.length l
  | None => 0%nat
  end.

Definition moreCapable (max curr : Raw.t) : Raw.t :=
  if (parameterCount max <? parameterCount curr)%nat then curr else max.

Definition costEstimateTable (models : list Raw.t) (w : Workload) : Completion CostTable :=
  costs <- mapM (fun m =>
                   formatted <- formatModelData m ;;
                   Normal (m, calculateCost formatted w)) models ;;
  best <- reduce cheaperEstimate costs ;;
  Normal {| cost_headers := ["Model"; "Total Cost"; "Per Request"];
            cost_rows := map costRow costs;
            cost_cheapest := Raw.id (fst best) |}.

Definition generateComparison (models : list Raw.t) (w : option Workload) : Completion Comparison :=
  pricingRows <- mapM pricingRow models ;;
  let capabilityRows := map capabilitiesRow models in
  estimate <- match w with
              | Some workload => t <- costEstimateTable models workload ;; Normal (Some t)
              | None => Normal None
              end ;;
  cheapestModel <- reduce cheaper models ;;
  highest <- reduce longerContext models ;;
  capable <- reduce moreCapable models ;;
  Normal
    {| pricing_table :=
         {| headers := ["Model"; "Prompt/1M"; "Completion/1M"; "Total/1M"];
            rows := pricingRows |};
       capabilities_table :=
         {| headers := ["Model"; "Context"; "Vision"; "Tools"; "Reasoning"];
            rows := capabilityRows |};
       cost_estimate := estimate;
       summary :=
         {| cheapest := Raw.id cheapestModel;
            highest_context := Raw.id highest;
            most_capable := Raw.id capable |} |}.

(** [{ ...intent.filters, ...params.filters }]: a property the caller supplies
    replaces the parsed one. *)
Definition override {A : Type} (parsed explicit : option A) : option A :=
  match explicit with
  | Some v => Some v
  | None => parsed
  end.

Definition mergeFilters (parsed : Filters.t) (explicit : option Filters.t) : Filters.t :=
  match explicit with
  | None => parsed
  | Some e =>
      {| Filters.provider := override (Filters.provider parsed) (Filters.provider e);
         Filters.free_only := override (Filters.free_only parsed) (Filters.free_only e);
         Filters.min_context := override (Filters.min_context parsed) (Filters.min_context e);
         Filters.max_context := override (Filters.max_context parsed) (Filters.max_context e);
         Filters.max_price_per_1m :=
           override (Filters.max_price_per_1m parsed) (Filters.max_price_per_1m e);
         Filters.has_vision := override (Filters.has_vision parsed) (Filters.has_vision e);
         Filters.has_tools := override (Filters.has_tools parsed) (Filters.has_tools e);
         Filters.has_reasoning :=
           override (Filters.has_reasoning parsed) (Filters.has_reasoning e);
         Filters.modality := override (Filters.modality parsed) (Filters.modality e) |}
  end.

(** The predicate of the [model_ids] restriction. *)
Definition namedBy (ids : list string) (m : Raw.t) : bool :=
  existsb (fun wanted =>
             (Raw.id m =? wanted)
             || match Raw.canonical_slug m with Some slug => slug =? wanted | None => false end
             || (toLowerCase (Raw.id m) =? toLowerCase wanted)) ids.

(** [params.model_ids && params.model_ids.length > n]. *)
Definition moreIdsThan (n : nat) (ids : option (list string)) : bool :=
  match ids with
  | Some l => (n <? List.length l)%nat
  | None => false
  end.

Definition firstTruthy (candidates : list (option string)) (fallback : string) : string :=
  match find (fun c => match c with Some s => nonEmpty s | None => false end) candidates with
  | Some (Some s) => s
  | _ => fallback
  end.

Definition entryOf (item : Rec.t * option CostEstimate) : ResultEntry :=
  let (m, estimate) := item in
  {| entry_id := Rec.id m;
     entry_name := Rec.name m;
     entry_provider := Rec.provider m;
     entry_context_length := Rec.context_length m;
     entry_prompt_per_1m := prompt_per_1m (Rec.pricing m);
     entry_completion_per_1m := completion_per_1m (Rec.pricing m);
     entry_total_per_1m := total_per_1m (Rec.pricing m);
     capabilities :=
       getCapabilities (Some (Rec.input_modalities m)) (Some (Rec.supported_parameters m));
     entry_is_free := Rec.is_free m;
     estimated_cost := estimate |}.

Definition costOptions (results : list (Rec.t * option CostEstimate)) : list CostOption :=
  sort (fun a b => signF (cost a - cost b)%float)
    (flat_map (fun item =>
                 match snd item with
                 | Some estimate => [{| option_id := Rec.id (fst item); cost := total estimate |}]
                 | None => []
                 end) results).

Definition costAnalysis (results : list (Rec.t * option CostEstimate)) : option CostAnalysis :=
  let costs := costOptions results in
  match costs with
  | [] => None
  | first :: _ =>
      let final := last costs first in
      Some {| cheapest_option := first;
              most_expensive_option := final;
              potential_savings := (cost final - cost first)%float |}
  end.

Definition considerModels (params : Params.t) (w : World) : Completion Reply.t * World :=
  let (fetched, w') := fetchModels (Params.force_refresh params) w in
  (r <- fetched ;;
   let rawModels := models r in
   let intent := parseRequest match Params.request params with Some s => s | None => "" end in
   let combinedFilters := mergeFilters (filters intent) (Params.filters params) in
   let filtered := applyFilters rawModels combinedFilters in
   let filtered :=
     if moreIdsThan 0 (Params.model_ids params)
     then filter (namedBy match Params.model_ids params with Some l => l | None => [] end)
            filtered
     else filtered in
   let searchResults :=
     match search_terms intent with
     | [] => filtered
     | _ :: _ =>
         map model
           (sort (fun a b => signZ (Z.of_nat (score b) - Z.of_nat (score a))%Z)
              (searchModels filtered (search_terms intent)))
     end in
   let sortBy :=
     firstTruthy [Params.sort_by params; Some (sort_preference intent)] "relevance" in
   let sorted := sortModels searchResults sortBy in
   formatted <- mapM formatModelData sorted ;;
   let costed :=
     map (fun m =>
            (m, match Params.workload params with
                | Some workload => Some (calculateCost m workload)
                | None => None
                end)) formatted in
   let maxResults :=
     match Params.max_results params with
     | Some n => if truthyZ n then n else 10%Z
     | None => 10%Z
     end in
   let results := slice0 costed maxResults in
   comparison <-
     (if moreIdsThan 1 (Params.model_ids params)
      then c <- generateComparison
                  (slice0 sorted
                     (Z.of_nat (List.length match Params.model_ids params with
                                            | Some l => l
                                            | None => []
                                            end)))
                  (Params.workload params) ;;
           Normal (Some c)
      else Normal None) ;;
   Normal
     {| Reply.interpretation :=
          {| interpreted_as :=
               if nonEmpty (understood_as intent) then understood_as intent
               else "model listing";
             applied_filters := combinedFilters;
             search_strategy :=
               match search_terms intent with
               | [] => "filtered list"
               | _ :: _ => "keyword search"
               end;
             interpreted_terms := search_terms intent |};
        Reply.models := map entryOf results;
        Reply.total_models_found := List.length formatted;
        Reply.models_returned := List.length results;
        Reply.cache_age := if cached r then Some (cache_age r) else None;
        Reply.comparison := comparison;
        Reply.cost_analysis :=
          match Params.workload params, results with
          | Some _, _ :: _ => costAnalysis results
          | _, _ => None
          end |},
   w').

End Program.

(** ** Words of the specification, stated over the program's data *)

(** [a] occurs somewhere before [b] in [l]. *)
Definition precedes {A : Type} (a b : A) (l : list A) : Prop :=
  exists l1 l2 l3, l = l1 ++ a :: l2 ++ b :: l3.

(** A time value [new Date] accepts. *)
Definition validDate (seconds : Z) : Prop :=
  (Z.abs (seconds * 1000) <= 8640000000000000)%Z.

Definition hasSeparator (s : string) : Prop := In "/"%char (list_ascii_of_string s).

(** The number of distinct search terms that occur in a record's text. *)
Definition distinctMatches `{Builtins} (m : Raw.t) (searchTerms : list string) : nat :=
  List.length (nodup string_dec (filter (termOccurs m) searchTerms)).

(** The components present in a breakdown, in the order the object lists them. *)
Definition components (b : Breakdown) : list (option float) :=
  [prompt_cost b; completion_cost b; daily_request_cost b; monthly_request_cost b;
   image_cost b].

(** The components [calculateCost] adds to its running total: the monthly
    figure counts only when it comes from [requests_per_month]. *)
Definition addedComponents (w : Workload) (b : Breakdown) : list (option float) :=
  [prompt_cost b; completion_cost b; daily_request_cost b;
   match given (requests_per_month w) with
   | Some _ => monthly_request_cost b
   | None => None
   end;
   image_cost b].

(** Left-to-right sum of the components that are present, from [0]. *)
Definition sumOf (l : list (option float)) : float :=
  fold_left (fun acc c => match c with Some x => (acc + x)%float | None => acc end)
    l 0%float.

Definition isSome {A : Type} (o : option A) : bool :=
  match o with
  | Some _ => true
  | None => false
  end.

(** The array is free of repeated entries. *)
Fixpoint distinctb (l : list string) : bool :=
  match l with
  | [] => true
  | x :: l' => negb (mem x l') && distinctb l'
  end.

(** The comparator does not put [a] strictly after [b]. *)
Definition inOrder {A : Type} (cmp : A -> A -> comparison) (a b : A) : Prop :=
  cmp a b <> Gt.

(** The step of a scan that keeps the current best unless the next element is
    strictly better. *)
Definition keepBest {A : Type} (better : A -> A -> bool) (best curr : A) : A :=
  if better curr best then curr else best.

(** Doubles, as their specification sees them: strictly positive, and the
    place of a number on the extended line ([None] for [NaN]). *)
Definition positiveSF (r : spec_float) : bool := SFltb (S754_zero false) r.

Definition rank (x : spec_float) : option (Z * Z * Z) :=
  match x with
  | S754_nan => None
  | S754_infinity true => Some (-2, 0, 0)%Z
  | S754_finite true m e => Some (-1, - e, Zneg m)%Z
  | S754_zero _ => Some (0, 0, 0)%Z
  | S754_finite false m e => Some (1, e, Zpos m)%Z
  | S754_infinity false => Some (2, 0, 0)%Z
  end.

Definition compare3 (a b : Z * Z * Z) : comparison :=
  match (fst (fst a) ?= fst (fst b))%Z with
  | Eq => match (snd (fst a) ?= snd (fst b))%Z with
          | Eq => (snd a ?= snd b)%Z
          | c => c
          end
  | c => c
  end.

(** ** Sample data *)

Definition sampleRecord (id name : string) (ctx : Z) (pricing : PricingObject) : Raw.t :=
  {| Raw.id := id;
     Raw.canonical_slug := None;
     Raw.name := name;
     Raw.hugging_face_id := None;
     Raw.created := 1700000000;
     Raw.description := None;
     Raw.context_length := ctx;
     Raw.architecture := None;
     Raw.pricing := pricing;
     Raw.top_provider := None;
     Raw.supported_parameters := None |}.

Definition gpt4turbo : Raw.t :=
  sampleRecord "openai/gpt-4-turbo" "GPT-4 Turbo" 128000
    [("prompt", "0.00001"); ("completion", "0.00003")].

Definition gpt4 : Raw.t :=
  sampleRecord "gpt-4" "Base model" 8192
    [("prompt", "0.00003"); ("completion", "0.00006")].

Definition flash : Raw.t :=
  sampleRecord "google/flash" "Flash" 1000000
    [("prompt", "0.000001"); ("completion", "0.00001")].

Definition perCall : Raw.t :=
  sampleRecord "acme/per-call" "Per call" 4096
    [("prompt", "0"); ("completion", "0"); ("request", "0.5")].

(** A record dated past the last day a [Date] can hold. *)
Definition farFuture : Raw.t :=
  {| Raw.id := "acme/far";
     Raw.canonical_slug := None;
     Raw.name := "Far";
     Raw.hugging_face_id := None;
     Raw.created := 9000000000000;
     Raw.description := None;
     Raw.context_length := 1;
     Raw.architecture := None;
     Raw.pricing := [];
     Raw.top_provider := None;
     Raw.supported_parameters := None |}.

Definition twoRequestsPerDay : Workload :=
  {| prompt_tokens := None; completion_tokens := None;
     requests_per_day := Some 2%float; requests_per_month := None; images := None |}.

Definition emptyCache : Cache := {| data := None; timestamp := None |}.

(** A world whose cache is empty and whose upstream answers with [catalog]. *)
Definition freshWorld (catalog : list Raw.t) : World :=
  {| now := 1700000000000;
     modelsCache := emptyCache;
     network := Fulfilled {| ok := true; status := 200; statusText := "OK";
                             json := Normal catalog |};
     requests := 0 |}.

(** A world whose cache holds [catalog], fetched [age] milliseconds ago, and
    whose upstream is down. *)
Definition cachedWorld (catalog : list Raw.t) (age : Z) : World :=
  {| now := 1700000000000;
     modelsCache := {| data := Some catalog; timestamp := Some (1700000000000 - age)%Z |};
     network := Rejected (TypeError "fetch failed");
     requests := 0 |}.

Definition askFor (ids : list string) : Params.t :=
  {| Params.request := Some "";
     Params.filters := None;
     Params.model_ids := Some ids;
     Params.workload := None;
     Params.max_results := None;
     Params.sort_by := None;
     Params.force_refresh := false |}.

(** ** Further words of the specification *)

(** The record meets every constraint the filter set carries. *)
Definition passes `{Builtins} (f : Filters.t) (m : Raw.t) : bool :=
  match providersOf (Filters.provider f) with
  | Some providers =>
      existsb (fun p => toLowerCase (extractProvider (Raw.id m)) =? toLowerCase p) providers
  | None => true
  end
  && (if flag (Filters.free_only f) then isFree (Raw.pricing m) else true)
  && match Filters.min_context f with
     | Some n => if truthyZ n then (n <=? Raw.context_length m)%Z else true
     | None => true
     end
  && match Filters.max_context f with
     | Some n => if truthyZ n then (Raw.context_length m <=? n)%Z else true
     | None => true
     end
  && match Filters.max_price_per_1m f with
     | Some limit => if truthy limit then (rawTotal m * million <=? limit)%float else true
     | None => true
     end
  && (if flag (Filters.has_vision f)
      then match Raw.architecture m with
           | Some a => has "image" (input_modalities a)
           | None => false
           end
      else true)
  && (if flag (Filters.has_tools f) then has "tools" (Raw.supported_parameters m) else true)
  && (if flag (Filters.has_reasoning f)
      then has "reasoning" (Raw.supported_parameters m) else true)
  && match Filters.modality f with
     | Some wanted =>
         if nonEmpty wanted
         then match Raw.architecture m with
              | Some a =>
                  match modality a with
                  | Some tag => tag =? wanted
                  | None => false
                  end
              | None => false
              end
         else true
     | None => true
     end.

(** A filter set whose every field holds the falsy value of its type. *)
Definition falsyFilters : Filters.t :=
  {| Filters.provider := Some (OneProvider "");
     Filters.free_only := Some false;
     Filters.min_context := Some 0%Z;
     Filters.max_context := Some 0%Z;
     Filters.max_price_per_1m := Some 0%float;
     Filters.has_vision := Some false;
     Filters.has_tools := Some false;
     Filters.has_reasoning := Some false;
     Filters.modality := Some "" |}.

Definition noFilters : Filters.t :=
  {| Filters.provider := None;
     Filters.free_only := None;
     Filters.min_context := None;
     Filters.max_context := None;
     Filters.max_price_per_1m := None;
     Filters.has_vision := None;
     Filters.has_tools := None;
     Filters.has_reasoning := None;
     Filters.modality := None |}.

(** The request, letter case aside, contains one of the words. *)
Definition mentions `{Builtins} (request : string) (words : list string) : bool :=
  existsb (includes (toLowerCase request)) words.

(** Every search term the intent parser can produce. *)
Definition vocabulary : list string :=
  ["vision"; "multimodal"; "tools"; "function"; "reasoning"; "instruct"; "chat"]
  ++ providerKeywords.

(** No field of the filter set is a constraint: each is missing or falsy. *)
Definition unconstrained (f : Filters.t) : Prop :=
  providersOf (Filters.provider f) = None
  /\ Filters.free_only f <> Some true
  /\ (forall n, Filters.min_context f = Some n -> n = 0%Z)
  /\ (forall n, Filters.max_context f = Some n -> n = 0%Z)
  /\ (forall limit, Filters.max_price_per_1m f = Some limit -> truthy limit = false)
  /\ Filters.has_vision f <> Some true
  /\ Filters.has_tools f <> Some true
  /\ Filters.has_reasoning f <> Some true
  /\ (forall wanted, Filters.modality f = Some wanted -> wanted = "").

(** The stages of [considerModels], named: the intent, the merged filters,
    the list [sorted], the cap on the reply, and the records with their
    estimates. *)
Definition intentOf `{Builtins} (params : Params.t) : Intent :=
  parseRequest match Params.request params with Some s => s | None => "" end.

Definition combinedFilters `{Builtins} (params : Params.t) : Filters.t :=
  mergeFilters (filters (intentOf params)) (Params.filters params).

Definition byScore (a b : Scored) : comparison :=
  signZ (Z.of_nat (score b) - Z.of_nat (score a))%Z.

Definition shortlist `{Builtins} (params : Params.t) (rawModels : list Raw.t) : list Raw.t :=
  let filtered := applyFilters rawModels (combinedFilters params) in
  let filtered :=
    if moreIdsThan 0 (Params.model_ids params)
    then filter (namedBy match Params.model_ids params with Some l => l | None => [] end)
           filtered
    else filtered in
  let searchResults :=
    match search_terms (intentOf params) with
    | [] => filtered
    | _ :: _ => map model (sort byScore (searchModels filtered (search_terms (intentOf params))))
    end in
  sortModels searchResults
    (firstTruthy [Params.sort_by params; Some (sort_preference (intentOf params))]
       "relevance").

Definition limitOf (params : Params.t) : Z :=
  match Params.max_results params with
  | Some n => if truthyZ n then n else 10%Z
  | None => 10%Z
  end.

Definition withCosts `{Builtins} (params : Params.t) (formatted : list Rec.t)
  : list (Rec.t * option CostEstimate) :=
  map (fun m =>
         (m, match Params.workload params with
             | Some workload => Some (calculateCost m workload)
             | None => None
             end)) formatted.

(** The same process at a later moment: the clock reads [t] and the upstream
    answers with [net]; the cache and the request count are as they were. *)
Definition elapse (w : World) (t : Z) (net : FetchOutcome) : World :=
  {| now := t; modelsCache := modelsCache w; network := net; requests := requests w |}.

(** The five capability tags, in the order [getCapabilities] pushes them. *)
Definition capabilityTags : list string :=
  ["vision"; "multimodal"; "tools"; "reasoning"; "structured_outputs"].

(** The optional fees of a normalized pricing block. *)
Definition optionalFees (p : Pricing) : list (option float) :=
  [request p; image p; web_search p; internal_reasoning p].

(** The sort key in force: the caller's, else the intent's, else relevance. *)
Definition sortKey `{Builtins} (params : Params.t) : string :=
  firstTruthy [Params.sort_by params; Some (sort_preference (intentOf params))] "relevance".

(** The figures of a workload, in the order the calculator reads them. *)
Definition workloadFigures (w : Workload) : list (option float) :=
  [prompt_tokens w; completion_tokens w; requests_per_day w; requests_per_month w; images w].

(** ** Further sample data *)

Definition catalog : list Raw.t := [gpt4turbo; gpt4; flash].

(** A record whose prompt price is not the text of a number. *)
Definition mispriced : Raw.t :=
  sampleRecord "acme/odd" "Odd" 4096 [("prompt", "abc"); ("completion", "0")].

Definition freebie : Raw.t :=
  sampleRecord "acme/free" "Free" 4096 [("prompt", "0"); ("completion", "0")].

Definition freeOnly : Filters.t :=
  {| Filters.provider := None;
     Filters.free_only := Some true;
     Filters.min_context := None;
     Filters.max_context := None;
     Filters.max_price_per_1m := None;
     Filters.has_vision := None;
     Filters.has_tools := None;
     Filters.has_reasoning := None;
     Filters.modality := None |}.

Definition thousandTokens : Workload :=
  {| prompt_tokens := Some 1000%float; completion_tokens := Some 500%float;
     requests_per_day := None; requests_per_month := None; images := None |}.

(** A request in words, with or without a workload. *)
Definition askInWords (request : string) (workload : option Workload) : Params.t :=
  {| Params.request := Some request;
     Params.filters := None;
     Params.model_ids := None;
     Params.workload := workload;
     Params.max_results := None;
     Params.sort_by := None;
     Params.force_refresh := false |}.

(** ** The comparator the engine's sort needs, and V8 without it *)

Definition sameSign (x y : comparison) : bool :=
  match x, y with
  | Eq, Eq | Lt, Lt | Gt, Gt => true
  | _, _ => false
  end.

(** ECMAScript's requirements on a consistent comparator at three values,
    read on the sign [SortCompare] hands to the engine (a [NaN] counts as 0):
    "equal" is reflexive, symmetric and transitive, "before" is transitive,
    and "after" is transitive. *)
Definition consistentAt {A : Type} (cmp : A -> A -> comparison) (a b c : A) : bool :=
  sameSign (cmp a a) Eq
  && implb (sameSign (cmp a b) Eq) (sameSign (cmp b a) Eq)
  && implb (sameSign (cmp a b) Eq && sameSign (cmp b c) Eq) (sameSign (cmp a c) Eq)
  && implb (sameSign (cmp a b) Lt && sameSign (cmp b c) Lt) (sameSign (cmp a c) Lt)
  && implb (sameSign (cmp a b) Gt && sameSign (cmp b c) Gt) (sameSign (cmp a c) Gt).

(** The comparator is consistent for the elements of the array. *)
Definition consistentb {A : Type} (cmp : A -> A -> comparison) (l : list A) : bool :=
  forallb (fun a => forallb (fun b => forallb (consistentAt cmp a b) l) l) l.

(** V8's [Array.prototype.sort] (Node.js 11 and later) on an array of fewer
    than 64 elements, which its TimSort treats as a single run:
    [CountAndMakeRun] finds the longest run at the start of the array, and
    reverses it when it is strictly descending; [BinaryInsertionSort] then
    takes the other elements from left to right and puts each at the place a
    binary search in the sorted part gives. *)
Section EngineSort.

Variable A : Type.
Variable cmp : A -> A -> comparison.

(** [order < 0]. *)
Definition negative (x y : A) : bool :=
  match cmp x y with
  | Lt => true
  | _ => false
  end.

(** The loop of [CountAndMakeRun]: the number of further elements that
    continue the run. *)
Fixpoint continueRun (isDescending : bool) (previousElement : A) (l : list A) : nat :=
  match l with
  | [] => 0%nat
  | currentElement :: l' =>
      if Bool.eqb (negative currentElement previousElement) isDescending
      then S (continueRun isDescending currentElement l')
      else 0%nat
  end.

(** The run, made ascending, and the elements after it. *)
Definition countAndMakeRun (l : list A) : list A * list A :=
  match l with
  | elementHigh :: elementLow :: l' =>
      let isDescending := negative elementLow elementHigh in
      let runLength := (2 + continueRun isDescending elementLow l')%nat in
      (if isDescending then rev (firstn runLength l) else firstn runLength l,
       skipn runLength l)
  | _ => (l, [])
  end.

(** The binary search [while (left < right)]; the interval at least halves
    at every turn, so one turn per element, and one more, are enough. *)
Fixpoint insertionPoint (turns : nat) (workArray : list A) (pivot : A) (left right : nat)
  : nat :=
  match turns with
  | O => left
  | S turns' =>
      if (left <? right)%nat then
        let mid := (left + (right - left) / 2)%nat in
        if negative pivot (nth mid workArray pivot)
        then insertionPoint turns' workArray pivot left mid
        else insertionPoint turns' workArray pivot (S mid) right
      else left
  end.

Definition binaryInsertionSort (run rest : list A) : list A :=
  fold_left
    (fun workArray pivot =>
       let left :=
         insertionPoint (S (List.length workArray)) workArray pivot 0 (List.length workArray) in
       firstn left workArray ++ pivot :: skipn left workArray)
    rest run.

Definition shortArraySort (l : list A) : list A :=
  let (run, rest) := countAndMakeRun l in
  binaryInsertionSort run rest.

End EngineSort.

Arguments shortArraySort {A} cmp l.

(** [sortModels] with the engine's sort made explicit: [sortModels] is
    [sortModelsWith] at the sort every engine performs for a consistent
    comparator. *)
Definition sortModelsWith `{Builtins}
  (arraySort : (Raw.t -> Raw.t -> comparison) -> list Raw.t -> list Raw.t)
  (models : list Raw.t) (sortBy : string) : list Raw.t :=
  match comparator sortBy with
  | Some cmp => arraySort cmp models
  | None => models
  end.

(** * Properties *)

(** ** Doubles: the sign of a difference *)

Lemma binary_round_aux_negative prec emax m e l :
  positiveSF (binary_round_aux prec emax true m e l) = false.
Proof.
  unfold binary_round_aux.
  destruct (shr_fexp prec emax m e l) as [mrs' e'].
  destruct (shr_fexp prec emax _ e' loc_Exact) as [mrs'' e''].
  destruct (shr_m mrs'') as [|p|p]; try reflexivity.
  destruct (Z.leb e'' (emax - prec)); reflexivity.
Qed.

Lemma binary_normalize_positive prec emax m e :
  positiveSF (binary_normalize prec emax m e false) = true -> (0 < m)%Z.
Proof.
  destruct m as [|p|p]; simpl; intros Hpos.
  - discriminate.
  - lia.
  - unfold binary_round in Hpos.
    destruct (shl_align p e _) as [mz ez].
    rewrite binary_round_aux_negative in Hpos. discriminate.
Qed.

Lemma SFsub_positive_asym prec emax x y :
  positiveSF (SFsub prec emax x y) = true ->
  positiveSF (SFsub prec emax y x) = false.
Proof.
  destruct x as [sx|sx| |sx mx ex], y as [sy|sy| |sy my ey].
  16: {
    unfold SFsub. intros Hpos.
    apply binary_normalize_positive in Hpos.
    rewrite (Z.min_comm ey ex).
    set (a := cond_Zopp sx _) in *.
    set (b := cond_Zopp sy _) in *.
    destruct (positiveSF (binary_normalize prec emax (b - a) (Z.min ex ey) false)) eqn:E;
      [|reflexivity].
    apply binary_normalize_positive in E. lia. }
  all: try destruct sx; try destruct sy; simpl; intros Hpos;
    reflexivity || discriminate.
Qed.

Lemma float_sub_positive_asym (x y : float) :
  (0 <? x - y)%float = true -> (0 <? y - x)%float = false.
Proof.
  rewrite !ltb_spec, !sub_spec.
  apply SFsub_positive_asym.
Qed.

Lemma signF_sub_asym (x y : float) :
  signF (x - y) = Gt -> signF (y - x) <> Gt.
Proof.
  unfold signF. intros Hgt.
  destruct (x - y <? 0)%float; [discriminate|].
  destruct (0 <? x - y)%float eqn:Hpos; [|discriminate].
  rewrite (float_sub_positive_asym _ _ Hpos).
  destruct (y - x <? 0)%float; discriminate.
Qed.

Lemma signZ_sub_asym (x y : Z) :
  signZ (x - y) = Gt -> signZ (y - x) <> Gt.
Proof.
  unfold signZ. rewrite !Z.compare_gt_iff. lia.
Qed.

(** ** Doubles: the order *)

Lemma SFcompare_rank (x y : spec_float) :
  SFcompare x y
  = match rank x, rank y with
    | Some a, Some b => Some (compare3 a b)
    | _, _ => None
    end.
Proof.
  destruct x as [sx|sx| |sx mx ex], y as [sy|sy| |sy my ey];
    try destruct sx; try destruct sy; try reflexivity.
  unfold SFcompare, rank, compare3. cbn [fst snd].
  rewrite Z.compare_opp, (Z.compare_antisym ex ey).
  destruct (ex ?= ey)%Z; reflexivity.
Qed.

Lemma compare3_Lt (a b : Z * Z * Z) :
  compare3 a b = Lt <->
  (fst (fst a) < fst (fst b)
   \/ (fst (fst a) = fst (fst b)
       /\ (snd (fst a) < snd (fst b)
           \/ (snd (fst a) = snd (fst b) /\ snd a < snd b))))%Z.
Proof.
  unfold compare3.
  destruct (Z.compare_spec (fst (fst a)) (fst (fst b)));
    destruct (Z.compare_spec (snd (fst a)) (snd (fst b)));
    destruct (Z.compare_spec (snd a) (snd b));
    split; intros; try discriminate; try lia; auto.
Qed.

Lemma compare3_Eq (a b : Z * Z * Z) :
  compare3 a b = Eq <->
  (fst (fst a) = fst (fst b) /\ snd (fst a) = snd (fst b) /\ snd a = snd b)%Z.
Proof.
  unfold compare3.
  destruct (Z.compare_spec (fst (fst a)) (fst (fst b)));
    destruct (Z.compare_spec (snd (fst a)) (snd (fst b)));
    destruct (Z.compare_spec (snd a) (snd b));
    split; intros; try discriminate; try lia; auto.
Qed.

Lemma compare3_not_Gt (a b : Z * Z * Z) :
  compare3 a b <> Gt <-> compare3 a b = Lt \/ compare3 a b = Eq.
Proof.
  destruct (compare3 a b); intuition congruence.
Qed.

Lemma ltb_rank (x y : float) :
  (x <? y)%float = true <->
  exists a b,
    rank (Prim2SF x) = Some a /\ rank (Prim2SF y) = Some b /\ compare3 a b = Lt.
Proof.
  rewrite ltb_spec. unfold SFltb. rewrite SFcompare_rank.
  destruct (rank (Prim2SF x)) as [a|], (rank (Prim2SF y)) as [b|]; split;
    try (intros; discriminate); try (intros (a' & b' & Ha & Hb & _); discriminate).
  - intros Hc. exists a, b. repeat split. destruct (compare3 a b); congruence.
  - intros (a' & b' & Ha & Hb & Hc). injection Ha as <-. injection Hb as <-.
    now rewrite Hc.
Qed.

Lemma leb_rank (x y : float) :
  (x <=? y)%float = true <->
  exists a b,
    rank (Prim2SF x) = Some a /\ rank (Prim2SF y) = Some b /\ compare3 a b <> Gt.
Proof.
  rewrite leb_spec. unfold SFleb. rewrite SFcompare_rank.
  destruct (rank (Prim2SF x)) as [a|], (rank (Prim2SF y)) as [b|]; split;
    try (intros; discriminate); try (intros (a' & b' & Ha & Hb & _); discriminate).
  - intros Hc. exists a, b. repeat split. destruct (compare3 a b); congruence.
  - intros (a' & b' & Ha & Hb & Hc). injection Ha as <-. injection Hb as <-.
    destruct (compare3 a b); congruence.
Qed.

Lemma float_le_lt_trans (x y z : float) :
  (x <=? y)%float = true -> (y <? z)%float = true -> (x <? z)%float = true.
Proof.
  rewrite leb_rank, !ltb_rank.
  intros (a & b & Ha & Hb & Hab) (b' & c & Hb' & Hc & Hbc).
  rewrite Hb in Hb'. injection Hb' as <-.
  exists a, c. repeat split; try assumption.
  apply compare3_not_Gt in Hab. rewrite compare3_Lt, compare3_Eq in *. lia.
Qed.

Lemma float_lt_le (x y : float) :
  (x <? y)%float = true -> (x <=? y)%float = true.
Proof.
  rewrite leb_rank, ltb_rank. intros (a & b & Ha & Hb & Hab).
  exists a, b. repeat split; try assumption. congruence.
Qed.

Lemma float_lt_not_ge (x y : float) :
  (x <? y)%float = true -> (y <=? x)%float = false.
Proof.
  intros Hlt. destruct (y <=? x)%float eqn:Hle; [|reflexivity].
  apply ltb_rank in Hlt. apply leb_rank in Hle.
  destruct Hlt as (a & b & Ha & Hb & Hab).
  destruct Hle as (b' & a' & Hb' & Ha' & Hba).
  rewrite Hb in Hb'. injection Hb' as <-. rewrite Ha in Ha'. injection Ha' as <-.
  apply compare3_not_Gt in Hba. rewrite compare3_Lt, compare3_Eq in *. lia.
Qed.

Lemma float_eq_not_lt (x y : float) :
  (x =? y)%float = true -> (y <? x)%float = false.
Proof.
  intros Heq. destruct (y <? x)%float eqn:Hlt; [|reflexivity].
  apply ltb_rank in Hlt. destruct Hlt as (b & a & Hb & Ha & Hba).
  rewrite eqb_spec in Heq. unfold SFeqb in Heq.
  rewrite SFcompare_rank, Ha, Hb in Heq.
  destruct (compare3 a b) eqn:Hab; try discriminate.
  rewrite compare3_Lt in Hba. rewrite compare3_Eq in Hab. lia.
Qed.

(** ** Scans that keep the best element seen so far *)

Section Scan.

Variable A : Type.
Variables better atLeast : A -> A -> bool.

Hypothesis atLeast_better :
  forall a b c, atLeast a b = true -> better b c = true -> better a c = true.
Hypothesis better_atLeast : forall a b, better a b = true -> atLeast a b = true.
Hypothesis better_asym : forall a b, better a b = true -> atLeast b a = false.

Lemma scan_invariant (l before after : list A) (best : A) :
  (forall y, In y before -> atLeast y best = false) ->
  (forall y, In y after -> better y best = false) ->
  exists before' after',
    before ++ best :: after ++ l
    = before' ++ fold_left (keepBest better) l best :: after'
    /\ (forall y, In y before' -> atLeast y (fold_left (keepBest better) l best) = false)
    /\ (forall y, In y after' -> better y (fold_left (keepBest better) l best) = false).
Proof.
  revert before after best.
  induction l as [|c l IH]; intros before after best Hbefore Hafter.
  - exists before, after. rewrite app_nil_r. now repeat split.
  - cbn [fold_left]. unfold keepBest at 2 4 6.
    destruct (better c best) eqn:Hc.
    + destruct (IH (before ++ best :: after) [] c) as (b' & a' & Heq & Hb' & Ha').
      * intros y Hy. destruct (atLeast y c) eqn:Hyc; [|reflexivity].
        pose proof (atLeast_better _ _ _ Hyc Hc) as Hyb.
        apply in_app_or in Hy. destruct Hy as [Hy | [<- | Hy]].
        -- apply better_atLeast in Hyb.
           rewrite (Hbefore y Hy) in Hyb. discriminate.
        -- rewrite (better_asym _ _ Hc) in Hyc. discriminate.
        -- rewrite (Hafter y Hy) in Hyb. discriminate.
      * intros y [].
      * exists b', a'. split; [|now split].
        rewrite <- Heq. rewrite <- app_assoc. reflexivity.
    + destruct (IH before (after ++ [c]) best Hbefore) as (b' & a' & Heq & Hb' & Ha').
      * intros y Hy. apply in_app_or in Hy. destruct Hy as [Hy | [<- | []]].
        -- now apply Hafter.
        -- exact Hc.
      * exists b', a'. split; [|now split].
        rewrite <- Heq. rewrite <- app_assoc. reflexivity.
Qed.

(** The element a scan returns is strictly better than every element before
    it and no element after it is strictly better: among equals the first
    occurrence wins. *)
Lemma scan_first_occurrence (x : A) (l : list A) :
  exists best before after,
    reduce (keepBest better) (x :: l) = Normal best
    /\ x :: l = before ++ best :: after
    /\ (forall y, In y before -> atLeast y best = false)
    /\ (forall y, In y after -> better y best = false).
Proof.
  destruct (scan_invariant l [] [] x) as (before & after & Heq & Hb & Ha).
  - intros y [].
  - intros y [].
  - exists (fold_left (keepBest better) l x), before, after.
    split; [reflexivity|]. now split.
Qed.

End Scan.

(** ** Completions *)

Lemma mapM_Normal {A B : Type} (f : A -> Completion B) (l : list A) :
  (forall x, In x l -> exists y, f x = Normal y) ->
  exists ys, mapM f l = Normal ys /\ List.length ys = List.length l.
Proof.
  induction l as [|x l IH]; intros Hall; simpl.
  - exists []. split; reflexivity.
  - destruct (Hall x (or_introl eq_refl)) as [y Hy].
    destruct IH as [ys [Hys Hlen]].
    + intros z Hz. apply Hall. right. exact Hz.
    + rewrite Hy, Hys. simpl. exists (y :: ys). split; [reflexivity|].
      simpl. now rewrite Hlen.
Qed.

Lemma mapM_Throw_head {A B : Type} (f : A -> Completion B) (x : A) (l : list A) (e : Exn) :
  f x = Throw e -> mapM f (x :: l) = Throw e.
Proof.
  intros Hx. simpl. now rewrite Hx.
Qed.

(** ** The sort *)

Section SortFacts.

Variable A : Type.
Variable cmp : A -> A -> comparison.

Lemma insert_In (x y : A) (l : list A) :
  In y (insert cmp x l) <-> y = x \/ In y l.
Proof.
  induction l as [|z l IH]; simpl.
  - intuition congruence.
  - destruct (cmp x z); simpl; try rewrite IH; intuition congruence.
Qed.

Lemma sort_In (y : A) (l : list A) :
  In y (sort cmp l) <-> In y l.
Proof.
  induction l as [|x l IH]; simpl.
  - tauto.
  - rewrite insert_In, IH. intuition congruence.
Qed.

Lemma insert_Permutation (x : A) (l : list A) :
  Permutation (x :: l) (insert cmp x l).
Proof.
  induction l as [|z l IH]; simpl.
  - apply Permutation_refl.
  - destruct (cmp x z); try apply Permutation_refl.
    eapply Permutation_trans; [apply perm_swap|].
    now apply perm_skip.
Qed.

Lemma sort_Permutation (l : list A) :
  Permutation l (sort cmp l).
Proof.
  induction l as [|x l IH]; simpl.
  - apply Permutation_refl.
  - eapply Permutation_trans; [|apply insert_Permutation].
    now apply perm_skip.
Qed.

(** An array that is already in order is returned as it is. *)
Lemma sort_in_order (l : list A) :
  Sorted (inOrder cmp) l -> sort cmp l = l.
Proof.
  induction l as [|x l IH]; intros Hs; simpl.
  - reflexivity.
  - inversion Hs as [|? ? Htail Hhead]; subst.
    rewrite (IH Htail).
    destruct l as [|y l']; simpl.
    + reflexivity.
    + inversion Hhead as [|? ? Hxy]; subst.
      unfold inOrder in Hxy.
      destruct (cmp x y); congruence.
Qed.

(** Two elements leave the sort in exchanged order only when the comparator
    ranks the earlier one strictly after the later one. *)
Lemma insert_precedes (x a b : A) (l : list A) :
  precedes b a (insert cmp x l) ->
  (b = x /\ In a l) \/ (a = x /\ In b l /\ cmp x b = Gt) \/ precedes b a l.
Proof.
  induction l as [|z l IH]; intros Hp; cbn [insert] in Hp.
  - destruct Hp as (l1 & l2 & l3 & Heq).
    destruct l1 as [|u l1]; simpl in Heq.
    + injection Heq as _ Heq. destruct l2; discriminate.
    + injection Heq as _ Heq. destruct l1; discriminate.
  - destruct (cmp x z) eqn:Hc.
    1,2: destruct Hp as (l1 & l2 & l3 & Heq);
      destruct l1 as [|u l1]; simpl in Heq; injection Heq as Hx Heq;
      [ left; split; [now symmetry|]; rewrite Heq; apply in_or_app; right; left; reflexivity
      | right; right; exists l1, l2, l3; exact Heq ].
    destruct Hp as (l1 & l2 & l3 & Heq).
    destruct l1 as [|u l1]; simpl in Heq; injection Heq as Hz Heq; subst z.
    + assert (Hin : In a (insert cmp x l)).
      { rewrite Heq. apply in_or_app. right. left. reflexivity. }
      apply insert_In in Hin. destruct Hin as [Hax | Hal].
      * right. left. split; [exact Hax|]. split; [left; reflexivity|exact Hc].
      * right. right. apply in_split in Hal. destruct Hal as (m1 & m2 & Hl).
        exists [], m1, m2. simpl. now rewrite Hl.
    + destruct (IH (ex_intro _ l1 (ex_intro _ l2 (ex_intro _ l3 Heq))))
        as [[Hb Ha] | [[Ha [Hb Hg]] | Hp]].
      * left. split; [exact Hb|]. right. exact Ha.
      * right. left. split; [exact Ha|]. split; [right; exact Hb|exact Hg].
      * right. right. destruct Hp as (m1 & m2 & m3 & Hl).
        exists (u :: m1), m2, m3. simpl. now rewrite Hl.
Qed.

Lemma sort_stable (a b : A) (l : list A) :
  precedes b a (sort cmp l) -> precedes b a l \/ cmp a b = Gt.
Proof.
  induction l as [|x l IH]; simpl; intros Hp.
  - destruct Hp as (l1 & l2 & l3 & Heq). destruct l1; discriminate.
  - apply insert_precedes in Hp.
    destruct Hp as [[Hb Ha] | [[Ha [Hb Hg]] | Hp]].
    + left. subst b. apply (proj1 (sort_In _ _)) in Ha. apply in_split in Ha.
      destruct Ha as (m1 & m2 & Hl). exists [], m1, m2. simpl. now rewrite Hl.
    + right. now subst a.
    + destruct (IH Hp) as [Hq | Hg].
      * left. destruct Hq as (m1 & m2 & m3 & Hl).
        exists (x :: m1), m2, m3. simpl. now rewrite Hl.
      * right. exact Hg.
Qed.

Hypothesis cmp_asym : forall a b, cmp a b = Gt -> cmp b a <> Gt.

Lemma insert_Sorted (x : A) (l : list A) :
  Sorted (inOrder cmp) l -> Sorted (inOrder cmp) (insert cmp x l).
Proof.
  induction l as [|z l IH]; intros Hs; simpl.
  - repeat constructor.
  - destruct (cmp x z) eqn:Hc.
    1,2: constructor; [exact Hs|]; constructor; unfold inOrder; congruence.
    inversion Hs as [|? ? Htail Hhead]; subst.
    constructor; [now apply IH|].
    destruct l as [|y l']; simpl.
    + constructor. now apply cmp_asym.
    + destruct (cmp x y); constructor;
        solve [ now apply cmp_asym | inversion Hhead; assumption ].
Qed.

Lemma sort_Sorted (l : list A) : Sorted (inOrder cmp) (sort cmp l).
Proof.
  induction l as [|x l IH]; simpl.
  - constructor.
  - now apply insert_Sorted.
Qed.

Lemma sort_idempotent (l : list A) :
  sort cmp (sort cmp l) = sort cmp l.
Proof.
  apply sort_in_order, sort_Sorted.
Qed.

End SortFacts.

(** ** Consistent comparators *)

Lemma sameSign_eq (x y : comparison) : sameSign x y = true <-> x = y.
Proof.
  destruct x, y; simpl; split; intros Heq; congruence.
Qed.

Lemma consistentb_forall {A : Type} (cmp : A -> A -> comparison) (l : list A) :
  consistentb cmp l = true <->
  forall a b c, In a l -> In b l -> In c l -> consistentAt cmp a b c = true.
Proof.
  unfold consistentb. rewrite forallb_forall. split.
  - intros Hall a b c Ha Hb Hc. specialize (Hall a Ha).
    rewrite forallb_forall in Hall. specialize (Hall b Hb).
    rewrite forallb_forall in Hall. now apply Hall.
  - intros Hall a Ha. apply forallb_forall. intros b Hb.
    apply forallb_forall. intros c Hc. now apply Hall.
Qed.

Lemma consistentAt_spec {A : Type} (cmp : A -> A -> comparison) (a b c : A) :
  consistentAt cmp a b c = true <->
  cmp a a = Eq
  /\ (cmp a b = Eq -> cmp b a = Eq)
  /\ (cmp a b = Eq -> cmp b c = Eq -> cmp a c = Eq)
  /\ (cmp a b = Lt -> cmp b c = Lt -> cmp a c = Lt)
  /\ (cmp a b = Gt -> cmp b c = Gt -> cmp a c = Gt).
Proof.
  unfold consistentAt.
  destruct (cmp a a), (cmp a b), (cmp b a), (cmp b c), (cmp a c); simpl;
    split; try discriminate; try (intros _; repeat split; congruence);
    intros (H1 & H2 & H3 & H4 & H5); try discriminate;
    try (specialize (H2 eq_refl); discriminate);
    try (specialize (H3 eq_refl eq_refl); discriminate);
    try (specialize (H4 eq_refl eq_refl); discriminate);
    try (specialize (H5 eq_refl eq_refl); discriminate).
Qed.

(** A consistent comparator never ranks two elements strictly both ways. *)
Lemma consistent_asym {A : Type} (cmp : A -> A -> comparison) (l : list A) :
  consistentb cmp l = true ->
  forall a b, In a l -> In b l -> cmp a b = Gt -> cmp b a <> Gt.
Proof.
  intros Hcons a b Ha Hb Hab Hba.
  pose proof (proj1 (consistentb_forall cmp l) Hcons a b a Ha Hb Ha) as Hat.
  apply consistentAt_spec in Hat. destruct Hat as (Hrefl & _ & _ & _ & Hgt).
  specialize (Hgt Hab Hba). congruence.
Qed.

Lemma insert_Sorted_on {A : Type} (cmp : A -> A -> comparison) (x : A) (l : list A) :
  (forall y, In y l -> cmp x y = Gt -> cmp y x <> Gt) ->
  Sorted (inOrder cmp) l -> Sorted (inOrder cmp) (insert cmp x l).
Proof.
  induction l as [|z l IH]; intros Hasym Hs; simpl.
  - repeat constructor.
  - destruct (cmp x z) eqn:Hc.
    1,2: constructor; [exact Hs|]; constructor; unfold inOrder; congruence.
    inversion Hs as [|? ? Htail Hhead]; subst.
    constructor; [apply IH; [intros y Hy; apply Hasym; now right|exact Htail]|].
    pose proof (Hasym z (or_introl eq_refl) Hc) as Hzx.
    destruct l as [|y l']; simpl.
    + constructor. exact Hzx.
    + destruct (cmp x y); constructor;
        solve [ exact Hzx | inversion Hhead; assumption ].
Qed.

Lemma sort_Sorted_on {A : Type} (cmp : A -> A -> comparison) (l : list A) :
  (forall a b, In a l -> In b l -> cmp a b = Gt -> cmp b a <> Gt) ->
  Sorted (inOrder cmp) (sort cmp l).
Proof.
  induction l as [|x l IH]; intros Hasym; simpl.
  - constructor.
  - apply insert_Sorted_on.
    + intros y Hy. apply sort_In in Hy. apply Hasym; [now left|now right].
    + apply IH. intros a b Ha Hb. apply Hasym; now right.
Qed.

Lemma sort_idempotent_on {A : Type} (cmp : A -> A -> comparison) (l : list A) :
  consistentb cmp l = true -> sort cmp (sort cmp l) = sort cmp l.
Proof.
  intros Hcons. apply sort_in_order, sort_Sorted_on, (consistent_asym cmp l Hcons).
Qed.

(** A comparator that subtracts integer keys is consistent on every array. *)
Lemma descending_consistent {A : Type} (key : A -> Z) (l : list A) :
  consistentb (fun a b => signZ (key b - key a)%Z) l = true.
Proof.
  apply consistentb_forall. intros a b c _ _ _. apply consistentAt_spec.
  unfold signZ. rewrite !Z.compare_eq_iff, !Z.compare_lt_iff, !Z.compare_gt_iff. lia.
Qed.

(** A failing element is what makes a traversal fail. *)
Lemma mapM_Throw_In {A B : Type} (f : A -> Completion B) (l : list A) (e : Exn) :
  mapM f l = Throw e -> exists x, In x l /\ f x = Throw e.
Proof.
  induction l as [|x l IH]; simpl; [discriminate|].
  destruct (f x) as [y|e'] eqn:Hx; simpl.
  - destruct (mapM f l) as [ys|e'']; simpl; [discriminate|].
    intros Heq. injection Heq as ->. destruct (IH eq_refl) as [z [Hz Hfz]].
    exists z. split; [now right|exact Hfz].
  - intros Heq. injection Heq as ->. exists x. split; [now left|exact Hx].
Qed.

(** ** Lists of strings without repetition *)

Lemma mem_In (x : string) (l : list string) : mem x l = true <-> In x l.
Proof.
  unfold mem. rewrite existsb_exists. split.
  - intros [y [Hy Heq]]. apply String.eqb_eq in Heq. now subst.
  - intros Hin. exists x. split; [exact Hin|apply String.eqb_refl].
Qed.

Lemma distinctb_NoDup (l : list string) : distinctb l = true -> NoDup l.
Proof.
  induction l as [|x l IH]; simpl; intros Hd.
  - constructor.
  - apply andb_true_iff in Hd. destruct Hd as [Hx Hl].
    constructor; [|now apply IH].
    intros Hin. apply mem_In in Hin. rewrite Hin in Hx. discriminate.
Qed.

Lemma NoDup_app_filter (f : string -> bool) (p q : list string) :
  NoDup (p ++ q) -> NoDup (p ++ filter f q).
Proof.
  induction p as [|x p IH]; simpl; intros Hnd.
  - now apply NoDup_filter.
  - inversion Hnd as [|? ? Hx Hrest]; subst.
    constructor; [|now apply IH].
    intros Hin. apply Hx. apply in_app_or in Hin. apply in_or_app.
    destruct Hin as [Hp | Hq]; [now left|].
    right. apply filter_In in Hq. tauto.
Qed.

Lemma find_first {A : Type} (f : A -> bool) (before : list A) (x : A) (after : list A) :
  (forall y, In y before -> f y = false) -> f x = true ->
  find f (before ++ x :: after) = Some x.
Proof.
  induction before as [|y before IH]; simpl; intros Hnone Hx.
  - now rewrite Hx.
  - rewrite (Hnone y (or_introl eq_refl)). apply IH; [|exact Hx].
    intros z Hz. apply Hnone. now right.
Qed.

Lemma compareString_asym (a b : string) :
  (0 < compareString a b)%Z -> (compareString b a <= 0)%Z.
Proof.
  revert b. induction a as [|x a IH]; intros [|y b]; simpl; try lia.
  rewrite (Nat.compare_antisym (nat_of_ascii x) (nat_of_ascii y)).
  destruct (nat_of_ascii x ?= nat_of_ascii y)%nat; simpl; try lia.
  apply IH.
Qed.

Section Properties.

Context `{Builtins}.

(** *** The sorter *)

Lemma comparator_asym (sortBy : string) (cmp : Raw.t -> Raw.t -> comparison) :
  (forall a b, (0 < localeCompare a b)%Z -> (localeCompare b a <= 0)%Z) ->
  comparator sortBy = Some cmp ->
  forall a b, cmp a b = Gt -> cmp b a <> Gt.
Proof.
  intros Hlocale. unfold comparator.
  destruct (sortBy =? "price"); [|destruct (sortBy =? "context");
    [|destruct (sortBy =? "created"); [|destruct (sortBy =? "name"); [|discriminate]]]];
    intros Hcmp; injection Hcmp as <-; intros a b.
  - apply signF_sub_asym.
  - apply signZ_sub_asym.
  - apply signZ_sub_asym.
  - unfold signZ. rewrite !Z.compare_gt_iff. intros Hab Hba.
    specialize (Hlocale _ _ Hab). lia.
Qed.

Lemma comparator_unknown (sortBy : string) :
  sortBy <> "price" -> sortBy <> "context" -> sortBy <> "created" -> sortBy <> "name" ->
  comparator sortBy = None.
Proof.
  intros Hp Hc Hd Hn. unfold comparator.
  apply String.eqb_neq in Hp, Hc, Hd, Hn.
  now rewrite Hp, Hc, Hd, Hn.
Qed.


(** *** The record normalizer *)

Lemma formatModelData_inv (m : Raw.t) (r : Rec.t) :
  formatModelData m = Normal r ->
  Rec.pricing r = formatPricing (Raw.pricing m)
  /\ Rec.is_free r = isFree (Raw.pricing m)
  /\ Rec.provider r = extractProvider (Raw.id m)
  /\ Rec.id r = Raw.id m.
Proof.
  unfold formatModelData. destruct (isoDate (Raw.created m)); simpl; [|discriminate].
  intros Heq. injection Heq as <-. simpl. repeat split.
Qed.

(** C4, as the code has it.  In a normalized record, [is_free] holds exactly
    when the prompt and completion prices both equal zero; the two per-million
    figures are the per-token prices times one million; and [total_per_1m] is
    the sum of the per-token prices, times one million. *)
Theorem formatModelData_pricing_invariant (m : Raw.t) (r : Rec.t) :
  formatModelData m = Normal r ->
  (Rec.is_free r = true <->
     (prompt (Rec.pricing r) =? 0)%float = true
     /\ (completion (Rec.pricing r) =? 0)%float = true)
  /\ prompt_per_1m (Rec.pricing r) = (prompt (Rec.pricing r) * million)%float
  /\ completion_per_1m (Rec.pricing r) = (completion (Rec.pricing r) * million)%float
  /\ total_per_1m (Rec.pricing r)
     = ((prompt (Rec.pricing r) + completion (Rec.pricing r)) * million)%float.
Proof.
  intros Hm. destruct (formatModelData_inv m r Hm) as (Hp & Hf & _).
  rewrite Hp, Hf. unfold isFree, formatPricing. simpl.
  split; [apply andb_true_iff|]. repeat split.
Qed.

(** [split] cuts at the first separator. *)
Lemma split_no_separator (s : string) :
  ~ hasSeparator s -> split "/" s = [s].
Proof.
  unfold hasSeparator. induction s as [|c s IH]; simpl; intros Hno.
  - reflexivity.
  - destruct (Ascii.eqb c "/") eqn:Hc.
    + apply Ascii.eqb_eq in Hc. subst. exfalso. apply Hno. now left.
    + rewrite IH; [reflexivity|]. intros Hin. apply Hno. now right.
Qed.

Lemma split_first_separator (p rest : string) :
  ~ hasSeparator p ->
  exists pieces, split "/" (p ++ String "/" rest) = p :: pieces.
Proof.
  unfold hasSeparator. induction p as [|c p IH]; simpl; intros Hno.
  - eexists. reflexivity.
  - destruct (Ascii.eqb c "/") eqn:Hc.
    + apply Ascii.eqb_eq in Hc. subst. exfalso. apply Hno. now left.
    + destruct IH as [pieces Hp]; [intros Hin; apply Hno; now right|].
      rewrite Hp. eexists. reflexivity.
Qed.

Lemma nonEmpty_false (s : string) : nonEmpty s = false -> s = "".
Proof.
  unfold nonEmpty. intros Hs. apply negb_false_iff in Hs. now apply String.eqb_eq.
Qed.

(** C10, as the code has it.  A record whose creation time is one a date can
    hold is normalized without an exception, whichever optional fields are
    missing.  The provider is the text of [id] before its first separator,
    and the whole [id] when it has none.  A price that is missing or empty
    reads as zero; any other text reads as whatever [parseFloat] makes of it. *)
Theorem formatModelData_total (m : Raw.t) :
  validDate (Raw.created m) ->
  (exists r, formatModelData m = Normal r
             /\ Rec.provider r = extractProvider (Raw.id m)
             /\ prompt (Rec.pricing r) = parsePrice (prop (Raw.pricing m) "prompt")
             /\ completion (Rec.pricing r) = parsePrice (prop (Raw.pricing m) "completion"))
  /\ (forall p rest, ~ hasSeparator p -> extractProvider (p ++ String "/" rest) = p)
  /\ (forall s, ~ hasSeparator s -> extractProvider s = s)
  /\ parsePrice Undefined = 0%float
  /\ parsePrice (Str "") = 0%float
  /\ (forall s, s <> "" -> parsePrice (Str s) = parseFloat s).
Proof.
  intros Hdate. split; [|split; [|split; [|split; [|split]]]].
  - unfold formatModelData, isoDate.
    unfold validDate in Hdate. apply Z.leb_le in Hdate. rewrite Hdate. simpl.
    eexists. split; [reflexivity|]. simpl. repeat split.
  - intros p rest Hno. unfold extractProvider.
    destruct (split_first_separator p rest Hno) as [pieces ->].
    destruct (nonEmpty p) eqn:Hp; [reflexivity|].
    symmetry. now apply nonEmpty_false.
  - intros s Hno. unfold extractProvider. rewrite (split_no_separator s Hno).
    destruct (nonEmpty s) eqn:Hs; [reflexivity|].
    symmetry. now apply nonEmpty_false.
  - reflexivity.
  - reflexivity.
  - intros s Hs. simpl. unfold nonEmpty.
    apply String.eqb_neq in Hs. now rewrite Hs.
Qed.

(** *** Direct lookup *)

Lemma formatModelData_not_Error (m : Raw.t) (message : string) :
  formatModelData m <> Throw (Error message).
Proof.
  unfold formatModelData, isoDate.
  destruct (Z.abs (Raw.created m * 1000) <=? 8640000000000000)%Z; simpl; discriminate.
Qed.

Lemma matchesIdentifier_spec (modelId : string) (m : Raw.t) :
  matchesIdentifier modelId m = true <->
  Raw.id m = modelId
  \/ Raw.canonical_slug m = Some modelId
  \/ toLowerCase (Raw.id m) = toLowerCase modelId
  \/ includes (toLowerCase (Raw.name m)) (toLowerCase modelId) = true.
Proof.
  unfold matchesIdentifier. rewrite !orb_true_iff, !String.eqb_eq.
  destruct (Raw.canonical_slug m) as [slug|].
  - rewrite String.eqb_eq. intuition congruence.
  - intuition congruence.
Qed.

(** C1, as the code has it.  [get_model] answers with the first record of
    the snapshot, in snapshot order, that meets any one of the four criteria
    (same [id], same [canonical_slug], same [id] up to letter case, name
    containing the identifier up to letter case); the criteria carry no
    priority among records.  It fails with "Model not found" exactly when no
    record meets any criterion. *)
Theorem lookupModel_first_match (snapshot : list Raw.t) (modelId : string) :
  (lookupModel snapshot modelId = Throw (Error ("Model not found: " ++ modelId))
   <-> forall m, In m snapshot -> matchesIdentifier modelId m = false)
  /\ (forall before m after,
        snapshot = before ++ m :: after ->
        (forall x, In x before -> matchesIdentifier modelId x = false) ->
        matchesIdentifier modelId m = true ->
        lookupModel snapshot modelId = formatModelData m)
  /\ (forall m,
        matchesIdentifier modelId m = true <->
        Raw.id m = modelId
        \/ Raw.canonical_slug m = Some modelId
        \/ toLowerCase (Raw.id m) = toLowerCase modelId
        \/ includes (toLowerCase (Raw.name m)) (toLowerCase modelId) = true)
  /\ (forall w,
        getModel modelId w
        = (r <- fst (fetchModels false w) ;; lookupModel (models r) modelId,
           snd (fetchModels false w))).
Proof.
  split; [|split; [|split]].
  - unfold lookupModel. split.
    + destruct (find (matchesIdentifier modelId) snapshot) as [m|] eqn:Hfind.
      * intros Hthrow. exfalso. exact (formatModelData_not_Error _ _ Hthrow).
      * intros _ m Hin. exact (find_none _ _ Hfind m Hin).
    + intros Hnone.
      destruct (find (matchesIdentifier modelId) snapshot) as [m|] eqn:Hfind;
        [|reflexivity].
      apply find_some in Hfind. destruct Hfind as [Hin Hm].
      rewrite (Hnone m Hin) in Hm. discriminate.
  - intros before m after -> Hbefore Hm. unfold lookupModel.
    now rewrite (find_first _ before m after Hbefore Hm).
  - intros m. apply matchesIdentifier_spec.
  - intros w. unfold getModel. now destruct (fetchModels false w).
Qed.

(** *** Search and ranking *)

Lemma fold_count {A : Type} (f : A -> bool) (l : list A) (n : nat) :
  fold_left (fun acc x => if f x then S acc else acc) l n
  = (n + List.length (filter f l))%nat.
Proof.
  revert n. induction l as [|x l IH]; intros n; simpl.
  - lia.
  - rewrite IH. destruct (f x); simpl; lia.
Qed.

Lemma scoreOf_count (m : Raw.t) (searchTerms : list string) :
  scoreOf m searchTerms = List.length (filter (termOccurs m) searchTerms).
Proof.
  unfold scoreOf. now rewrite fold_count.
Qed.

Lemma count_distinct (m : Raw.t) (searchTerms : list string) :
  NoDup searchTerms ->
  List.length (filter (termOccurs m) searchTerms) = distinctMatches m searchTerms.
Proof.
  intros Hnd. unfold distinctMatches.
  rewrite nodup_fixed_point; [reflexivity|].
  now apply NoDup_filter.
Qed.

Lemma parseRequest_terms_NoDup (request : string) :
  NoDup (search_terms (parseRequest request)).
Proof.
  unfold parseRequest. cbn [search_terms].
  set (lower := toLowerCase request).
  destruct (includes lower "vision" || includes lower "image" || includes lower "multimodal");
    destruct (includes lower "tool" || includes lower "function");
    destruct (includes lower "reasoning" || includes lower "think");
    destruct (includes lower "instruct");
    destruct (includes lower "chat");
    cbn [app];
    match goal with
    | |- NoDup (?a :: ?b :: ?c :: ?d :: ?e :: ?f :: ?g :: filter ?p ?q) =>
        apply (NoDup_app_filter p [a; b; c; d; e; f; g] q)
    | |- NoDup (?a :: ?b :: ?c :: ?d :: ?e :: ?f :: filter ?p ?q) =>
        apply (NoDup_app_filter p [a; b; c; d; e; f] q)
    | |- NoDup (?a :: ?b :: ?c :: ?d :: ?e :: filter ?p ?q) =>
        apply (NoDup_app_filter p [a; b; c; d; e] q)
    | |- NoDup (?a :: ?b :: ?c :: ?d :: filter ?p ?q) =>
        apply (NoDup_app_filter p [a; b; c; d] q)
    | |- NoDup (?a :: ?b :: ?c :: filter ?p ?q) =>
        apply (NoDup_app_filter p [a; b; c] q)
    | |- NoDup (?a :: ?b :: filter ?p ?q) =>
        apply (NoDup_app_filter p [a; b] q)
    | |- NoDup (?a :: filter ?p ?q) =>
        apply (NoDup_app_filter p [a] q)
    | |- NoDup (filter ?p ?q) =>
        apply (NoDup_app_filter p [] q)
    end;
    apply distinctb_NoDup; reflexivity.
Qed.


(** *** The cost calculator *)

(** C3, as the code has it.  [total] is the left-to-right sum of the
    components the workload contributes: prompt, completion and image cost,
    the daily request cost, and the monthly request cost of a request count
    per month.  (The thirty-day projection of the daily request cost is listed
    in the breakdown without being added.)  A component is listed exactly
    when its workload field is present and not zero, the monthly one when
    either request count is; and [per_request] is listed exactly when one of
    the two request counts is present and not zero. *)
Theorem calculateCost_total (m : Rec.t) (w : Workload) :
  let estimate := calculateCost m w in
  total estimate = sumOf (addedComponents w (breakdown estimate))
  /\ isSome (prompt_cost (breakdown estimate)) = isSome (given (prompt_tokens w))
  /\ isSome (completion_cost (breakdown estimate)) = isSome (given (completion_tokens w))
  /\ isSome (daily_request_cost (breakdown estimate)) = isSome (given (requests_per_day w))
  /\ isSome (monthly_request_cost (breakdown estimate))
     = isSome (given (requests_per_day w)) || isSome (given (requests_per_month w))
  /\ isSome (image_cost (breakdown estimate)) = isSome (given (images w))
  /\ isSome (per_request estimate)
     = isSome (given (requests_per_day w)) || isSome (given (requests_per_month w))
  /\ given None = None
  /\ given (Some 0%float) = None.
Proof.
  unfold calculateCost, addedComponents, sumOf. cbn zeta.
  destruct (given (prompt_tokens w)), (given (completion_tokens w)),
    (given (requests_per_day w)), (given (requests_per_month w)), (given (images w));
    cbn; repeat split.
Qed.

(** *** The catalog cache *)

Lemma fetchFresh_spec (w : World) :
  requests (snd (fetchFresh w)) = S (requests w)
  /\ match network w with
     | Rejected e =>
         fst (fetchFresh w) = Throw e
         /\ modelsCache (snd (fetchFresh w)) = modelsCache w
     | Fulfilled response =>
         if ok response then
           match json response with
           | Normal body =>
               fst (fetchFresh w)
               = Normal {| models := body; cache_age := 0; cached := false |}
               /\ modelsCache (snd (fetchFresh w))
                  = {| data := Some body; timestamp := Some (now w) |}
           | Throw e =>
               fst (fetchFresh w) = Throw e
               /\ modelsCache (snd (fetchFresh w)) = modelsCache w
           end
         else
           fst (fetchFresh w)
           = Throw (Error ("OpenRouter API error: " ++ string_of_Z (status response)
                             ++ " " ++ statusText response))
           /\ modelsCache (snd (fetchFresh w)) = modelsCache w
     end.
Proof.
  unfold fetchFresh.
  destruct (network w) as [e|response]; simpl; [now repeat split|].
  destruct (ok response); simpl; [|now repeat split].
  destruct (json response); simpl; now repeat split.
Qed.

(** C5.  Without [forceRefresh], a snapshot younger than the time to live is
    returned as it is, marked cached, with its age in whole seconds, and no
    request is made.  In every other case exactly one request is made: a
    rejected request, a response that is not [ok] or a body that does not
    parse makes the call throw and leaves the cache as it was, however stale
    a snapshot it holds; an [ok] response replaces the snapshot and is
    returned with age 0, not marked cached. *)
Theorem fetchModels_cache_policy (forceRefresh : bool) (w : World) :
  (forall snapshot fetchedAt,
      forceRefresh = false ->
      hasSnapshot (modelsCache w) = true ->
      data (modelsCache w) = Some snapshot ->
      timestamp (modelsCache w) = Some fetchedAt ->
      (now w - fetchedAt < CACHE_DURATION_MS)%Z ->
      fetchModels forceRefresh w
      = (Normal {| models := snapshot;
                   cache_age := ((now w - fetchedAt) / 1000)%Z;
                   cached := true |}, w))
  /\ (forceRefresh = true
      \/ hasSnapshot (modelsCache w) = false
      \/ (exists fetchedAt,
            timestamp (modelsCache w) = Some fetchedAt
            /\ (CACHE_DURATION_MS <= now w - fetchedAt)%Z) ->
      requests (snd (fetchModels forceRefresh w)) = S (requests w)
      /\ match network w with
         | Rejected e =>
             fst (fetchModels forceRefresh w) = Throw e
             /\ modelsCache (snd (fetchModels forceRefresh w)) = modelsCache w
         | Fulfilled response =>
             if ok response then
               match json response with
               | Normal body =>
                   fst (fetchModels forceRefresh w)
                   = Normal {| models := body; cache_age := 0; cached := false |}
                   /\ modelsCache (snd (fetchModels forceRefresh w))
                      = {| data := Some body; timestamp := Some (now w) |}
               | Throw e =>
                   fst (fetchModels forceRefresh w) = Throw e
                   /\ modelsCache (snd (fetchModels forceRefresh w)) = modelsCache w
               end
             else
               fst (fetchModels forceRefresh w)
               = Throw (Error ("OpenRouter API error: " ++ string_of_Z (status response)
                                 ++ " " ++ statusText response))
               /\ modelsCache (snd (fetchModels forceRefresh w)) = modelsCache w
         end).
Proof.
  split.
  - intros snapshot fetchedAt -> Hhas Hdata Htime Hage.
    unfold fetchModels. unfold hasSnapshot in Hhas.
    rewrite Hdata, Htime in *. rewrite Hhas. simpl.
    apply Z.ltb_lt in Hage. now rewrite Hage.
  - intros Hother.
    assert (Hfresh : fetchModels forceRefresh w = fetchFresh w).
    { unfold fetchModels, hasSnapshot in *.
      destruct (data (modelsCache w)) as [snapshot|]; [|reflexivity].
      destruct (timestamp (modelsCache w)) as [fetchedAt|]; [|reflexivity].
      destruct Hother as [-> | [Hno | [t [Ht Hold]]]].
      - reflexivity.
      - rewrite Hno, andb_false_r. reflexivity.
      - injection Ht as ->.
        destruct (negb forceRefresh && truthyZ t); [|reflexivity].
        apply Z.ltb_ge in Hold. now rewrite Hold. }
    rewrite Hfresh. apply fetchFresh_spec.
Qed.

(** *** The comparison builder and the orchestrator *)

Lemma toFixedOf_prop_throws (pricing : PricingObject) (key : string) (digits : Z) :
  exists message, toFixedOf (prop pricing key) digits = Throw (TypeError message).
Proof.
  unfold prop. destruct (lookup key pricing); simpl; eexists; reflexivity.
Qed.

Lemma pricingRow_throws (m : Raw.t) :
  exists message, pricingRow m = Throw (TypeError message).
Proof.
  unfold pricingRow.
  destruct (toFixedOf_prop_throws (Raw.pricing m) "prompt_per_1m" 2) as [message ->].
  simpl. eexists. reflexivity.
Qed.

Lemma generateComparison_throws (models : list Raw.t) (w : option Workload) :
  exists message, generateComparison models w = Throw (TypeError message).
Proof.
  destruct models as [|m rest]; unfold generateComparison.
  - destruct w; simpl; eexists; reflexivity.
  - destruct (pricingRow_throws m) as [message Hm].
    rewrite (mapM_Throw_head _ _ _ _ Hm). simpl. eexists. reflexivity.
Qed.

Lemma formatModelData_Normal (m : Raw.t) :
  validDate (Raw.created m) -> exists r, formatModelData m = Normal r.
Proof.
  unfold validDate, formatModelData, isoDate. intros Hdate.
  apply Z.leb_le in Hdate. rewrite Hdate. simpl. eexists. reflexivity.
Qed.

Ltac within :=
  repeat match goal with
         | |- incl ?l ?l => apply incl_refl
         | |- incl (filter _ _) _ => eapply incl_tran; [apply incl_filter|]
         | |- incl (if ?b then _ else _) _ => destruct b
         | |- incl (match ?o with Some _ => _ | None => _ end) _ => destruct o
         end.

Lemma applyFilters_incl (models : list Raw.t) (f : Filters.t) :
  incl (applyFilters models f) models.
Proof.
  unfold applyFilters. cbv zeta. within.
Qed.

Lemma searchModels_incl (models : list Raw.t) (searchTerms : list string) :
  incl (map model (searchModels models searchTerms)) models.
Proof.
  intros x Hx. apply in_map_iff in Hx. destruct Hx as [item [<- Hitem]].
  unfold searchModels in Hitem. destruct searchTerms.
  - apply in_map_iff in Hitem. destruct Hitem as [m [<- Hm]]. exact Hm.
  - apply filter_In in Hitem. destruct Hitem as [Hitem _].
    apply in_map_iff in Hitem. destruct Hitem as [m [<- Hm]]. exact Hm.
Qed.

Lemma sortModels_incl (models : list Raw.t) (sortBy : string) :
  incl (sortModels models sortBy) models.
Proof.
  unfold sortModels. destruct (comparator sortBy); [|apply incl_refl].
  intros x Hx. now apply sort_In in Hx.
Qed.

Lemma sorted_scores_incl (cmp : Scored -> Scored -> comparison) (scored : list Scored) :
  incl (map model (sort cmp scored)) (map model scored).
Proof.
  intros x Hx. apply in_map_iff in Hx. destruct Hx as [item [<- Hitem]].
  apply sort_In in Hitem. now apply in_map.
Qed.

(** What [considerModels] does once the snapshot is in hand. *)
Lemma considerModels_outcome (params : Params.t) (w w' : World) (r : FetchResult) :
  fetchModels (Params.force_refresh params) w = (Normal r, w') ->
  (forall m, In m (models r) -> validDate (Raw.created m)) ->
  if moreIdsThan 1 (Params.model_ids params)
  then exists message, considerModels params w = (Throw (TypeError message), w')
  else exists reply,
      considerModels params w = (Normal reply, w') /\ Reply.comparison reply = None.
Proof.
  intros Hfetch Hdates. unfold considerModels. rewrite Hfetch. cbn [bind]. cbv zeta.
  match goal with
  | |- context [mapM formatModelData ?s] => set (sorted := s)
  end.
  assert (Hin : incl sorted (models r)).
  { subst sorted. eapply incl_tran; [apply sortModels_incl|].
    destruct (search_terms (parseRequest _)).
    - destruct (moreIdsThan 0 _).
      + eapply incl_tran; [apply incl_filter|apply applyFilters_incl].
      + apply applyFilters_incl.
    - eapply incl_tran; [apply sorted_scores_incl|].
      eapply incl_tran; [apply searchModels_incl|].
      destruct (moreIdsThan 0 _).
      + eapply incl_tran; [apply incl_filter|apply applyFilters_incl].
      + apply applyFilters_incl. }
  destruct (mapM_Normal formatModelData sorted) as [formatted [Hformatted _]].
  { intros m Hm. apply formatModelData_Normal, Hdates, Hin, Hm. }
  rewrite Hformatted. cbn [bind].
  destruct (moreIdsThan 1 (Params.model_ids params)).
  - match goal with
    | |- context [generateComparison ?l ?wl] =>
        destruct (generateComparison_throws l wl) as [message ->]
    end.
    cbn [bind]. eexists. reflexivity.
  - cbn [bind]. eexists. split; reflexivity.
Qed.

(** C2, as the code has it.  The comparison builder has no check on the
    number of records: it never throws an error of the program's own, whatever
    that number is, and neither does the orchestrator once the catalog is
    fetched.  The orchestrator asks for a comparison exactly when two or more
    identifiers are supplied, with no upper bound: with two or more, the call
    ends as the builder ends on the first records of the sorted list, as many
    as there are identifiers; with fewer, and a catalog whose dates are
    valid, it returns a reply without a comparison. *)
Theorem comparison_has_no_size_check :
  (forall models w message, generateComparison models w <> Throw (Error message))
  /\ (forall params w reply,
        fst (considerModels params w) = Normal reply ->
        isSome (Reply.comparison reply) = moreIdsThan 1 (Params.model_ids params))
  /\ (forall params w w' r,
        fetchModels (Params.force_refresh params) w = (Normal r, w') ->
        (forall m, In m (models r) -> validDate (Raw.created m)) ->
        moreIdsThan 1 (Params.model_ids params) = false ->
        exists reply,
          considerModels params w = (Normal reply, w')
          /\ Reply.comparison reply = None)
  /\ (forall params w w' r message,
        fetchModels (Params.force_refresh params) w = (Normal r, w') ->
        fst (considerModels params w) <> Throw (Error message))
  /\ (forall params w w' r formatted ids,
        fetchModels (Params.force_refresh params) w = (Normal r, w') ->
        mapM formatModelData (shortlist params (models r)) = Normal formatted ->
        Params.model_ids params = Some ids ->
        (2 <= List.length ids)%nat ->
        exists e,
          generateComparison
            (slice0 (shortlist params (models r)) (Z.of_nat (List.length ids)))
            (Params.workload params) = Throw e
          /\ considerModels params w = (Throw e, w')).
Proof.
  split; [|split; [|split; [|split]]].
  - intros models w message Hthrow.
    destruct (generateComparison_throws models w) as [other Hother].
    rewrite Hother in Hthrow. discriminate.
  - intros params w reply. unfold considerModels.
    destruct (fetchModels (Params.force_refresh params) w) as [[r|e] w']; cbn [fst bind];
      [|discriminate].
    cbv zeta.
    match goal with
    | |- context [mapM formatModelData ?s] => destruct (mapM formatModelData s)
    end; cbn [bind]; [|discriminate].
    destruct (moreIdsThan 1 (Params.model_ids params)).
    + match goal with
      | |- context [generateComparison ?l ?wl] => destruct (generateComparison l wl)
      end; cbn [bind]; [|discriminate].
      intros Heq. injection Heq as <-. reflexivity.
    + cbn [bind]. intros Heq. injection Heq as <-. reflexivity.
  - intros params w w' r Hfetch Hdates Hfew.
    pose proof (considerModels_outcome params w w' r Hfetch Hdates) as Hout.
    now rewrite Hfew in Hout.
  - intros params w w' r message Hfetch. unfold considerModels.
    rewrite Hfetch. cbn [fst bind]. cbv zeta.
    match goal with
    | |- context [mapM formatModelData ?s] =>
        destruct (mapM formatModelData s) as [formatted|e] eqn:Hformatted
    end; cbn [bind].
    + destruct (moreIdsThan 1 (Params.model_ids params)).
      * match goal with
        | |- context [generateComparison ?l ?wl] =>
            destruct (generateComparison_throws l wl) as [other ->]
        end.
        cbn [bind]. discriminate.
      * cbn [bind]. discriminate.
    + intros Heq. injection Heq as ->.
      apply mapM_Throw_In in Hformatted. destruct Hformatted as [m [_ Hm]].
      exact (formatModelData_not_Error m message Hm).
  - intros params w w' r formatted ids Hfetch Hformatted Hids Hmany.
    destruct (generateComparison_throws
                (slice0 (shortlist params (models r)) (Z.of_nat (List.length ids)))
                (Params.workload params)) as [message Hthrow].
    exists (TypeError message). split; [exact Hthrow|].
    unfold considerModels. rewrite Hfetch. cbn [bind]. cbv zeta.
    fold (intentOf params). fold (combinedFilters params).
    change (mapM formatModelData _)
      with (mapM formatModelData (shortlist params (models r))).
    rewrite Hformatted. cbn [bind].
    assert (Hmore : moreIdsThan 1 (Params.model_ids params) = true).
    { unfold moreIdsThan. rewrite Hids. now apply Nat.ltb_lt. }
    rewrite Hmore.
    set (count := Z.of_nat (List.length match Params.model_ids params with
                                        | Some l => l
                                        | None => []
                                        end)).
    change (generateComparison _ (Params.workload params))
      with (generateComparison (slice0 (shortlist params (models r)) count)
              (Params.workload params)).
    assert (Hcount : count = Z.of_nat (List.length ids)) by (subst count; now rewrite Hids).
    rewrite Hcount, Hthrow. reflexivity.
Qed.

(** The three scans of the summary, taken on their own: each returns the
    first record among those that are best. *)
Lemma cheapest_scan (m : Raw.t) (rest : list Raw.t) :
  exists best before after,
    reduce cheaper (m :: rest) = Normal best
    /\ m :: rest = before ++ best :: after
    /\ (forall y, In y before -> (rawTotal y <=? rawTotal best)%float = false)
    /\ (forall y, In y after -> (rawTotal y <? rawTotal best)%float = false).
Proof.
  apply (scan_first_occurrence Raw.t
           (fun c b => (rawTotal c <? rawTotal b)%float)
           (fun y c => (rawTotal y <=? rawTotal c)%float)).
  - intros a b c. apply float_le_lt_trans.
  - intros a b. apply float_lt_le.
  - intros a b. apply float_lt_not_ge.
Qed.

Lemma cheapest_tie (a b : Raw.t) :
  (rawTotal a =? rawTotal b)%float = true -> reduce cheaper [a; b] = Normal a.
Proof.
  intros Htie. simpl. unfold cheaper. now rewrite (float_eq_not_lt _ _ Htie).
Qed.

Lemma highest_context_scan (m : Raw.t) (rest : list Raw.t) :
  exists best before after,
    reduce longerContext (m :: rest) = Normal best
    /\ m :: rest = before ++ best :: after
    /\ (forall y, In y before -> (Raw.context_length y < Raw.context_length best)%Z)
    /\ (forall y, In y after -> (Raw.context_length y <= Raw.context_length best)%Z).
Proof.
  destruct (scan_first_occurrence Raw.t
              (fun c b => (Raw.context_length b <? Raw.context_length c)%Z)
              (fun y c => (Raw.context_length c <=? Raw.context_length y)%Z))
    with (x := m) (l := rest) as (best & before & after & Hred & Heq & Hb & Ha).
  - intros a b c Hab Hbc. apply Z.leb_le in Hab. apply Z.ltb_lt in Hbc.
    apply Z.ltb_lt. lia.
  - intros a b Hab. apply Z.ltb_lt in Hab. apply Z.leb_le. lia.
  - intros a b Hab. apply Z.ltb_lt in Hab. apply Z.leb_gt. lia.
  - exists best, before, after. split; [exact Hred|]. split; [exact Heq|]. split.
    + intros y Hy. apply Z.leb_gt. now apply Hb.
    + intros y Hy. apply Z.ltb_ge. now apply Ha.
Qed.

Lemma most_capable_scan (m : Raw.t) (rest : list Raw.t) :
  exists best before after,
    reduce moreCapable (m :: rest) = Normal best
    /\ m :: rest = before ++ best :: after
    /\ (forall y, In y before -> (parameterCount y < parameterCount best)%nat)
    /\ (forall y, In y after -> (parameterCount y <= parameterCount best)%nat).
Proof.
  destruct (scan_first_occurrence Raw.t
              (fun c b => (parameterCount b <? parameterCount c)%nat)
              (fun y c => (parameterCount c <=? parameterCount y)%nat))
    with (x := m) (l := rest) as (best & before & after & Hred & Heq & Hb & Ha).
  - intros a b c Hab Hbc. apply Nat.leb_le in Hab. apply Nat.ltb_lt in Hbc.
    apply Nat.ltb_lt. lia.
  - intros a b Hab. apply Nat.ltb_lt in Hab. apply Nat.leb_le. lia.
  - intros a b Hab. apply Nat.ltb_lt in Hab. apply Nat.leb_gt. lia.
  - exists best, before, after. split; [exact Hred|]. split; [exact Heq|]. split.
    + intros y Hy. apply Nat.leb_gt. now apply Hb.
    + intros y Hy. apply Nat.ltb_ge. now apply Ha.
Qed.

(** C8 against the code.  The comparison builder reads [prompt_per_1m] off the
    pricing object of the records it is handed, which are upstream records:
    their prices are strings under other keys, so building the first pricing
    row throws a [TypeError]; on an empty list the scans themselves throw.
    No summary is ever returned. *)
Theorem generateComparison_never_returns (models : list Raw.t) (w : option Workload) :
  (exists message, generateComparison models w = Throw (TypeError message))
  /\ (forall result, generateComparison models w <> Normal result)
  /\ (forall m, exists message, pricingRow m = Throw (TypeError message)).
Proof.
  destruct (generateComparison_throws models w) as [message Hthrow].
  split; [now exists message|]. split.
  - intros result Hresult. rewrite Hthrow in Hresult. discriminate.
  - apply pricingRow_throws.
Qed.

End Properties.

(** ** The statements, evaluated *)

(** C1 refuted.  Asked for "gpt-4", the lookup returns the record whose name
    merely contains the identifier, because it comes first in the snapshot,
    although the next record carries "gpt-4" as its exact [id]. *)
Lemma lookupModel_priority_counterexample :
  Raw.id gpt4 = "gpt-4"
  /\ Raw.id gpt4turbo <> "gpt-4"
  /\ Raw.canonical_slug gpt4turbo <> Some "gpt-4"
  /\ lowerString (Raw.id gpt4turbo) <> lowerString "gpt-4"
  /\ exists r,
      lookupModel (H := hostModel) [gpt4turbo; gpt4] "gpt-4" = Normal r
      /\ Rec.id r = "openai/gpt-4-turbo".
Proof.
  split; [reflexivity|]. repeat (split; [discriminate|]).
  eexists. split; reflexivity.
Qed.

(** C2 refuted.  A request naming one model is answered with a reply and no
    comparison, not with an error; the builder does on one record and on six
    records exactly what it does on two; and a request naming six models
    ends as the builder ends, not in an error about their number. *)
Lemma comparison_size_counterexample :
  (exists reply,
      fst (considerModels (H := hostModel) (askFor ["gpt-4"]) (freshWorld [gpt4turbo; gpt4]))
      = Normal reply
      /\ Reply.comparison reply = None)
  /\ generateComparison (H := hostModel) [gpt4] None
     = generateComparison (H := hostModel) [gpt4turbo; gpt4] None
  /\ generateComparison (H := hostModel) [gpt4turbo; gpt4; flash; perCall; gpt4; flash] None
     = generateComparison (H := hostModel) [gpt4turbo; gpt4] None
  /\ exists e,
      generateComparison (H := hostModel)
        [gpt4turbo; gpt4; flash; perCall; mispriced; freebie] None = Throw e
      /\ fst (considerModels (H := hostModel)
                (askFor ["openai/gpt-4-turbo"; "gpt-4"; "google/flash"; "acme/per-call";
                         "acme/odd"; "acme/free"])
                (freshWorld [gpt4turbo; gpt4; flash; perCall; mispriced; freebie]))
         = Throw e
      /\ e = TypeError "Cannot read properties of undefined (reading 'toFixed')".
Proof.
  split; [eexists; split; reflexivity|]. split; [reflexivity|]. split; [reflexivity|].
  eexists. split; [reflexivity|]. split; reflexivity.
Qed.

(** C3 refuted.  For two requests per day at a fee of 0.5 per request the
    breakdown lists a daily cost of 1 and a monthly cost of 30, which sum to
    31, and the total is 1. *)
Lemma calculateCost_total_counterexample :
  exists r,
    formatModelData (H := hostModel) perCall = Normal r
    /\ components (breakdown (calculateCost (H := hostModel) r twoRequestsPerDay))
       = [None; None; Some 1%float; Some 30%float; None]
    /\ sumOf (components (breakdown (calculateCost (H := hostModel) r twoRequestsPerDay)))
       = 31%float
    /\ total (calculateCost (H := hostModel) r twoRequestsPerDay) = 1%float.
Proof.
  eexists. split; [reflexivity|]. repeat split; vm_compute; reflexivity.
Qed.

(** C4 refuted.  With a prompt price of 0.000001 and a completion price of
    0.00001 the per-million figures are 1 and 10, whose sum is 11, and
    [total_per_1m] is 11.000000000000002. *)
Lemma total_per_1m_counterexample :
  exists r,
    formatModelData (H := hostModel) flash = Normal r
    /\ prompt_per_1m (Rec.pricing r) = 1%float
    /\ completion_per_1m (Rec.pricing r) = 10%float
    /\ (total_per_1m (Rec.pricing r)
        =? prompt_per_1m (Rec.pricing r) + completion_per_1m (Rec.pricing r))%float = false.
Proof.
  eexists. split; [reflexivity|]. repeat split; vm_compute; reflexivity.
Qed.

Lemma formatModelData_pricing_invariant_witness :
  exists r,
    formatModelData (H := hostModel) flash = Normal r
    /\ total_per_1m (Rec.pricing r)
       = ((prompt (Rec.pricing r) + completion (Rec.pricing r)) * million)%float.
Proof.
  eexists. split; [reflexivity|].
  apply (formatModelData_pricing_invariant (H := hostModel) flash). reflexivity.
Defined.

(** C6 against the code.  Two identifiers that name no record of the catalog
    leave nothing to compare, and the scan over the empty list throws. *)
Theorem considerModels_unmatched_ids_throw :
  fst (considerModels (H := hostModel) (askFor ["a/x"; "b/y"]) (freshWorld [gpt4turbo; gpt4]))
  = Throw (TypeError "Reduce of empty array with no initial value")
  /\ filter (namedBy (H := hostModel) ["a/x"; "b/y"]) [gpt4turbo; gpt4] = []
  /\ exists reply,
      fst (considerModels (H := hostModel) (askFor ["a/x"]) (freshWorld [gpt4turbo; gpt4]))
      = Normal reply
      /\ Reply.models reply = [].
Proof.
  split; [reflexivity|]. split; [reflexivity|]. eexists. split; reflexivity.
Qed.



(** C10 refuted.  An identifier without a separator is its own provider,
    not the empty string; a price that is not a number reads as [NaN], not as
    zero; and a record dated beyond the range of dates is not normalized. *)
Lemma extractProvider_counterexample :
  extractProvider "gpt4" = "gpt4"
  /\ is_nan (parsePrice (H := hostModel) (Str "abc")) = true
  /\ (parsePrice (H := hostModel) (Str "abc") =? 0)%float = false
  /\ formatModelData (H := hostModel) farFuture = Throw (RangeError "Invalid time value").
Proof.
  repeat split; vm_compute; reflexivity.
Qed.

Lemma formatModelData_total_witness :
  validDate (Raw.created gpt4)
  /\ exists r, formatModelData (H := hostModel) gpt4 = Normal r /\ Rec.provider r = "gpt-4".
Proof.
  assert (Hdate : validDate (Raw.created gpt4)) by (unfold validDate; simpl; lia).
  split; [exact Hdate|].
  destruct (formatModelData_total (H := hostModel) gpt4 Hdate)
    as [[r [Hr [Hprovider _]]] _].
  exists r. split; [exact Hr|]. rewrite Hprovider. reflexivity.
Defined.

(** The cache at work: a snapshot one and a half seconds old is served with
    age 1 and no request; a snapshot ten minutes old is not served, and with
    the upstream down the call throws what [fetch] threw. *)
Example fetchModels_young_and_stale :
  fetchModels false (cachedWorld [gpt4] 1500)
  = (Normal {| models := [gpt4]; cache_age := 1; cached := true |},
     cachedWorld [gpt4] 1500)
  /\ fst (fetchModels false (cachedWorld [gpt4] 600000)) = Throw (TypeError "fetch failed")
  /\ requests (snd (fetchModels false (cachedWorld [gpt4] 600000))) = 1%nat
  /\ modelsCache (snd (fetchModels false (cachedWorld [gpt4] 600000)))
     = modelsCache (cachedWorld [gpt4] 600000).
Proof.
  repeat split.
Qed.

(** A comparison of two records that are both in the catalog, at equal
    prices or not, ends in the builder's [TypeError]. *)
Example comparison_of_two_records_throws :
  fst (considerModels (H := hostModel) (askFor ["openai/gpt-4-turbo"; "gpt-4"])
         (freshWorld [gpt4turbo; gpt4]))
  = Throw (TypeError "Cannot read properties of undefined (reading 'toFixed')")
  /\ generateComparison (H := hostModel) [gpt4; gpt4] None
     = Throw (TypeError "Cannot read properties of undefined (reading 'toFixed')").
Proof.
  split; reflexivity.
Qed.

(** * The engine beyond the statements *)

(** ** Filters as one pass *)

Lemma filter_and {A : Type} (p q : A -> bool) (l : list A) :
  filter p (filter q l) = filter (fun x => q x && p x) l.
Proof.
  induction l as [|x l IH]; simpl; [reflexivity|].
  destruct (q x); simpl; [destruct (p x)|]; now rewrite IH.
Qed.

Lemma filter_all {A : Type} (l : list A) : filter (fun _ => true) l = l.
Proof.
  induction l as [|x l IH]; simpl; [reflexivity|now rewrite IH].
Qed.

Lemma stage_if {A : Type} (b : bool) (p : A -> bool) (l : list A) :
  (if b then filter p l else l) = filter (fun x => if b then p x else true) l.
Proof.
  destruct b; [reflexivity|now rewrite filter_all].
Qed.

Lemma stage_option {A B : Type} (o : option B) (p : B -> A -> bool) (l : list A) :
  match o with Some v => filter (p v) l | None => l end
  = filter (fun x => match o with Some v => p v x | None => true end) l.
Proof.
  destruct o; [reflexivity|now rewrite filter_all].
Qed.

Lemma stage_option_if {A B : Type} (o : option B) (c : B -> bool) (p : B -> A -> bool)
  (l : list A) :
  match o with Some v => if c v then filter (p v) l else l | None => l end
  = filter (fun x => match o with Some v => if c v then p v x else true | None => true end) l.
Proof.
  destruct o as [v|]; [destruct (c v); [reflexivity|]|]; now rewrite filter_all.
Qed.

Lemma filter_precedes {A : Type} (p : A -> bool) (a b : A) (l : list A) :
  precedes a b (filter p l) -> precedes a b l.
Proof.
  induction l as [|x l IH]; simpl; intros Hp.
  - destruct Hp as (l1 & l2 & l3 & Heq). destruct l1; discriminate.
  - destruct (p x).
    + destruct Hp as (l1 & l2 & l3 & Heq). destruct l1 as [|u l1]; simpl in Heq.
      * injection Heq as <- Heq.
        assert (Hin : In b (filter p l)).
        { rewrite Heq. apply in_or_app. right. left. reflexivity. }
        apply filter_In in Hin. destruct Hin as [Hin _].
        apply in_split in Hin. destruct Hin as (m1 & m2 & ->).
        exists [], m1, m2. reflexivity.
      * injection Heq as <- Heq.
        destruct IH as (m1 & m2 & m3 & ->); [now exists l1, l2, l3|].
        exists (x :: m1), m2, m3. reflexivity.
    + destruct (IH Hp) as (m1 & m2 & m3 & ->).
      exists (x :: m1), m2, m3. reflexivity.
Qed.

Section Engine.

Context `{Builtins}.

Lemma applyFilters_filter (models : list Raw.t) (f : Filters.t) :
  applyFilters models f = filter (passes f) models.
Proof.
  unfold applyFilters. cbv zeta.
  rewrite (stage_option (providersOf (Filters.provider f))
             (fun providers m =>
                existsb (fun p => toLowerCase (extractProvider (Raw.id m)) =? toLowerCase p)
                  providers)).
  rewrite !stage_if.
  rewrite !(stage_option_if (Filters.min_context f) truthyZ
              (fun n m => (n <=? Raw.context_length m)%Z)).
  rewrite !(stage_option_if (Filters.max_context f) truthyZ
              (fun n m => (Raw.context_length m <=? n)%Z)).
  rewrite !(stage_option_if (Filters.max_price_per_1m f) truthy
              (fun limit m => (rawTotal m * million <=? limit)%float)).
  rewrite !(stage_option_if (Filters.modality f) nonEmpty
              (fun wanted m =>
                 match Raw.architecture m with
                 | Some a =>
                     match modality a with
                     | Some tag => tag =? wanted
                     | None => false
                     end
                 | None => false
                 end)).
  rewrite !filter_and. apply filter_ext. intros m. unfold passes.
  rewrite !andb_assoc. reflexivity.
Qed.


Lemma flag_true (b : option bool) : flag b = true <-> b = Some true.
Proof.
  destruct b as [[|]|]; simpl; split; intros Hb; congruence.
Qed.

Lemma nonEmpty_true (s : string) : nonEmpty s = true <-> s <> "".
Proof.
  unfold nonEmpty. rewrite negb_true_iff. apply String.eqb_neq.
Qed.

Lemma truthyZ_true (n : Z) : truthyZ n = true <-> n <> 0%Z.
Proof.
  unfold truthyZ. rewrite negb_true_iff. apply Z.eqb_neq.
Qed.

Lemma passes_spec (f : Filters.t) (m : Raw.t) :
  passes f m = true <->
  (forall providers,
      providersOf (Filters.provider f) = Some providers ->
      exists p, In p providers
                /\ toLowerCase (extractProvider (Raw.id m)) = toLowerCase p)
  /\ (Filters.free_only f = Some true -> isFree (Raw.pricing m) = true)
  /\ (forall n, Filters.min_context f = Some n -> n <> 0%Z ->
                (n <= Raw.context_length m)%Z)
  /\ (forall n, Filters.max_context f = Some n -> n <> 0%Z ->
                (Raw.context_length m <= n)%Z)
  /\ (forall limit, Filters.max_price_per_1m f = Some limit -> truthy limit = true ->
                    (rawTotal m * million <=? limit)%float = true)
  /\ (Filters.has_vision f = Some true ->
      exists a, Raw.architecture m = Some a /\ has "image" (input_modalities a) = true)
  /\ (Filters.has_tools f = Some true -> has "tools" (Raw.supported_parameters m) = true)
  /\ (Filters.has_reasoning f = Some true ->
      has "reasoning" (Raw.supported_parameters m) = true)
  /\ (forall wanted, Filters.modality f = Some wanted -> wanted <> "" ->
                     exists a, Raw.architecture m = Some a /\ modality a = Some wanted).
Proof.
  unfold passes. rewrite !andb_true_iff.
  split.
  - intros ((((((((Hp & Hf) & Hmin) & Hmax) & Hprice) & Hv) & Ht) & Hr) & Hm).
    repeat split.
    + intros providers Heq. rewrite Heq in Hp. apply existsb_exists in Hp.
      destruct Hp as [p [Hin Hp]]. exists p. split; [exact Hin|].
      now apply String.eqb_eq.
    + intros Heq. apply flag_true in Heq. now rewrite Heq in Hf.
    + intros n Heq Hn. rewrite Heq in Hmin. apply truthyZ_true in Hn.
      rewrite Hn in Hmin. now apply Z.leb_le.
    + intros n Heq Hn. rewrite Heq in Hmax. apply truthyZ_true in Hn.
      rewrite Hn in Hmax. now apply Z.leb_le.
    + intros limit Heq Hl. rewrite Heq, Hl in Hprice. exact Hprice.
    + intros Heq. apply flag_true in Heq. rewrite Heq in Hv.
      destruct (Raw.architecture m) as [a|]; [|discriminate]. now exists a.
    + intros Heq. apply flag_true in Heq. now rewrite Heq in Ht.
    + intros Heq. apply flag_true in Heq. now rewrite Heq in Hr.
    + intros wanted Heq Hw. rewrite Heq in Hm. apply nonEmpty_true in Hw.
      rewrite Hw in Hm.
      destruct (Raw.architecture m) as [a|]; [|discriminate]. exists a.
      split; [reflexivity|].
      destruct (modality a) as [tag|]; [|discriminate].
      apply String.eqb_eq in Hm. now subst.
  - intros (Hp & Hf & Hmin & Hmax & Hprice & Hv & Ht & Hr & Hm).
    repeat split.
    + destruct (providersOf (Filters.provider f)) as [providers|]; [|reflexivity].
      destruct (Hp providers eq_refl) as [p [Hin Heq]].
      apply existsb_exists. exists p. split; [exact Hin|]. now apply String.eqb_eq.
    + destruct (flag (Filters.free_only f)) eqn:Hflag; [|reflexivity].
      apply Hf. now apply flag_true.
    + destruct (Filters.min_context f) as [n|]; [|reflexivity].
      destruct (truthyZ n) eqn:Hn; [|reflexivity].
      apply Z.leb_le. apply Hmin; [reflexivity|]. now apply truthyZ_true.
    + destruct (Filters.max_context f) as [n|]; [|reflexivity].
      destruct (truthyZ n) eqn:Hn; [|reflexivity].
      apply Z.leb_le. apply Hmax; [reflexivity|]. now apply truthyZ_true.
    + destruct (Filters.max_price_per_1m f) as [limit|]; [|reflexivity].
      destruct (truthy limit) eqn:Hl; [|reflexivity]. now apply Hprice.
    + destruct (flag (Filters.has_vision f)) eqn:Hflag; [|reflexivity].
      apply flag_true in Hflag. destruct (Hv Hflag) as [a [-> Ha]]. exact Ha.
    + destruct (flag (Filters.has_tools f)) eqn:Hflag; [|reflexivity].
      apply Ht. now apply flag_true.
    + destruct (flag (Filters.has_reasoning f)) eqn:Hflag; [|reflexivity].
      apply Hr. now apply flag_true.
    + destruct (Filters.modality f) as [wanted|]; [|reflexivity].
      destruct (nonEmpty wanted) eqn:Hw; [|reflexivity].
      apply nonEmpty_true in Hw. destruct (Hm wanted eq_refl Hw) as [a [-> ->]].
      apply String.eqb_refl.
Qed.

(** X1.  A record survives the filters exactly when it is in the input and
    meets every constraint that is present and truthy: the constraints are
    combined with "and", the providers of a provider list with "or" and
    without regard to letter case. *)
Theorem applyFilters_conjunction (models : list Raw.t) (f : Filters.t) (m : Raw.t) :
  In m (applyFilters models f) <->
  In m models
  /\ (forall providers,
        providersOf (Filters.provider f) = Some providers ->
        exists p, In p providers
                  /\ toLowerCase (extractProvider (Raw.id m)) = toLowerCase p)
  /\ (Filters.free_only f = Some true -> isFree (Raw.pricing m) = true)
  /\ (forall n, Filters.min_context f = Some n -> n <> 0%Z ->
                (n <= Raw.context_length m)%Z)
  /\ (forall n, Filters.max_context f = Some n -> n <> 0%Z ->
                (Raw.context_length m <= n)%Z)
  /\ (forall limit, Filters.max_price_per_1m f = Some limit -> truthy limit = true ->
                    (rawTotal m * million <=? limit)%float = true)
  /\ (Filters.has_vision f = Some true ->
      exists a, Raw.architecture m = Some a /\ has "image" (input_modalities a) = true)
  /\ (Filters.has_tools f = Some true -> has "tools" (Raw.supported_parameters m) = true)
  /\ (Filters.has_reasoning f = Some true ->
      has "reasoning" (Raw.supported_parameters m) = true)
  /\ (forall wanted, Filters.modality f = Some wanted -> wanted <> "" ->
                     exists a, Raw.architecture m = Some a /\ modality a = Some wanted).
Proof.
  rewrite applyFilters_filter, filter_In, passes_spec. reflexivity.
Qed.

(** X2.  Filtering keeps the relative order of the records it keeps; doing it
    twice changes nothing; it works record by record, so the filtering of two
    lists joined is the two filterings joined; and two filter sets can be
    applied in either order. *)
Theorem applyFilters_subsequence (models : list Raw.t) (f : Filters.t) :
  (forall a b, precedes a b (applyFilters models f) -> precedes a b models)
  /\ applyFilters (applyFilters models f) f = applyFilters models f
  /\ (forall more,
        applyFilters (models ++ more) f = applyFilters models f ++ applyFilters more f)
  /\ (forall g,
        applyFilters (applyFilters models f) g = applyFilters (applyFilters models g) f).
Proof.
  split; [|split; [|split]].
  - intros a b. rewrite applyFilters_filter. apply filter_precedes.
  - rewrite !applyFilters_filter, filter_and. apply filter_ext.
    intros m. now destruct (passes f m).
  - intros more. rewrite !applyFilters_filter. apply filter_app.
  - intros g. rewrite !applyFilters_filter, !filter_and. apply filter_ext.
    intros m. apply andb_comm.
Qed.

Lemma passes_unconstrained (f : Filters.t) (m : Raw.t) :
  unconstrained f -> passes f m = true.
Proof.
  intros (Hp & Hf & Hmin & Hmax & Hprice & Hv & Ht & Hr & Hm).
  apply passes_spec. repeat split.
  - intros providers Heq. rewrite Hp in Heq. discriminate.
  - intros Heq. contradiction.
  - intros n Heq Hn. now specialize (Hmin n Heq).
  - intros n Heq Hn. now specialize (Hmax n Heq).
  - intros limit Heq Hl. rewrite (Hprice limit Heq) in Hl. discriminate.
  - intros Heq. contradiction.
  - intros Heq. contradiction.
  - intros Heq. contradiction.
  - intros wanted Heq Hw. now specialize (Hm wanted Heq).
Qed.

(** X3.  A field that is missing or falsy is no constraint: a filter set made
    only of such fields (a price cap of 0, a context bound of 0, an empty
    provider or modality string, a flag set to false) returns every record.
    An empty array of providers, being truthy, returns none. *)
Theorem applyFilters_falsy_values (models : list Raw.t) (f : Filters.t) :
  (unconstrained f -> applyFilters models f = models)
  /\ unconstrained falsyFilters
  /\ unconstrained noFilters
  /\ (Filters.provider f = Some (ManyProviders []) -> applyFilters models f = []).
Proof.
  split; [|split; [|split]].
  - intros Hf. rewrite applyFilters_filter.
    rewrite (filter_ext _ (fun _ => true)); [apply filter_all|].
    intros m. now apply passes_unconstrained.
  - unfold unconstrained, falsyFilters. simpl.
    repeat split; try discriminate; intros ? Heq; injection Heq as <-; reflexivity.
  - unfold unconstrained, noFilters. simpl.
    repeat split; try discriminate.
  - intros Hp. rewrite applyFilters_filter.
    induction models as [|m models IH]; [reflexivity|]. simpl.
    unfold passes at 1. rewrite Hp. simpl. exact IH.
Qed.

(** ** From the filters to the reply *)

Lemma formatModelData_fields (m : Raw.t) (r : Rec.t) :
  formatModelData m = Normal r ->
  Rec.id r = Raw.id m
  /\ Rec.name r = Raw.name m
  /\ Rec.provider r = extractProvider (Raw.id m)
  /\ Rec.context_length r = Raw.context_length m
  /\ Rec.pricing r = formatPricing (Raw.pricing m)
  /\ Rec.is_free r = isFree (Raw.pricing m)
  /\ Rec.modality r
     = match Raw.architecture m with Some a => modality a | None => None end
  /\ Rec.input_modalities r
     = match Raw.architecture m with
       | Some a => match input_modalities a with Some l => l | None => [] end
       | None => []
       end
  /\ Rec.supported_parameters r
     = match Raw.supported_parameters m with Some l => l | None => [] end.
Proof.
  unfold formatModelData. destruct (isoDate (Raw.created m)); simpl; [|discriminate].
  intros Heq. injection Heq as <-. simpl. repeat split.
Qed.

Lemma In_if_singleton (tag x : string) (b : bool) :
  In tag (if b then [x] else []) <-> tag = x /\ b = true.
Proof.
  destruct b; simpl; intuition congruence.
Qed.

Lemma getCapabilities_In (tag : string) (inputs params : list string) :
  In tag (getCapabilities (Some inputs) (Some params)) <->
  (tag = "vision" /\ mem "image" inputs = true)
  \/ (tag = "multimodal" /\ (1 < List.length inputs)%nat)
  \/ (tag = "tools" /\ mem "tools" params = true)
  \/ (tag = "reasoning" /\ mem "reasoning" params = true)
  \/ (tag = "structured_outputs" /\ mem "structured_outputs" params = true).
Proof.
  unfold getCapabilities, has. rewrite !in_app_iff, !In_if_singleton, Nat.ltb_lt.
  reflexivity.
Qed.

(** X4.  What the filters promise shows on the normalized record and on its
    entry in the reply: under [free_only] the record is marked free; under a
    price cap its [total_per_1m] is within the cap; under a context bound its
    context length is within the bound; under a capability flag the entry
    carries the capability tag; under a modality or provider constraint the
    record has that modality or one of those providers. *)
Theorem filtered_records_keep_promises
  (models : list Raw.t) (f : Filters.t) (m : Raw.t) (r : Rec.t)
  (estimate : option CostEstimate) :
  In m (applyFilters models f) ->
  formatModelData m = Normal r ->
  (Filters.free_only f = Some true ->
   Rec.is_free r = true /\ entry_is_free (entryOf (r, estimate)) = true)
  /\ (forall limit, Filters.max_price_per_1m f = Some limit -> truthy limit = true ->
        (total_per_1m (Rec.pricing r) <=? limit)%float = true
        /\ (entry_total_per_1m (entryOf (r, estimate)) <=? limit)%float = true)
  /\ (forall n, Filters.min_context f = Some n -> n <> 0%Z ->
        (n <= Rec.context_length r)%Z)
  /\ (forall n, Filters.max_context f = Some n -> n <> 0%Z ->
        (Rec.context_length r <= n)%Z)
  /\ (Filters.has_vision f = Some true ->
      In "vision" (capabilities (entryOf (r, estimate))))
  /\ (Filters.has_tools f = Some true ->
      In "tools" (capabilities (entryOf (r, estimate))))
  /\ (Filters.has_reasoning f = Some true ->
      In "reasoning" (capabilities (entryOf (r, estimate))))
  /\ (forall wanted, Filters.modality f = Some wanted -> wanted <> "" ->
        Rec.modality r = Some wanted)
  /\ (forall providers, providersOf (Filters.provider f) = Some providers ->
        exists p, In p providers /\ toLowerCase (Rec.provider r) = toLowerCase p).
Proof.
  intros Hin Hr.
  rewrite applyFilters_filter in Hin. apply filter_In in Hin.
  destruct Hin as [_ Hadm]. apply passes_spec in Hadm.
  destruct Hadm as (Hp & Hf & Hmin & Hmax & Hprice & Hv & Ht & Hre & Hm).
  destruct (formatModelData_fields m r Hr)
    as (_ & _ & Hprov & Hctx & Hpricing & Hfree & Hmod & Hins & Hparams).
  repeat split.
  - rewrite Hfree. now apply Hf.
  - simpl. rewrite Hfree. now apply Hf.
  - rewrite Hpricing. simpl. now apply Hprice.
  - simpl. rewrite Hpricing. simpl. now apply Hprice.
  - intros n Heq Hn. rewrite Hctx. now apply Hmin.
  - intros n Heq Hn. rewrite Hctx. now apply Hmax.
  - intros Heq. destruct (Hv Heq) as [a [Ha Himg]].
    simpl. apply getCapabilities_In. left. split; [reflexivity|].
    rewrite Hins, Ha. unfold has in Himg.
    destruct (input_modalities a); [exact Himg|discriminate].
  - intros Heq. specialize (Ht Heq).
    simpl. apply getCapabilities_In. right. right. left. split; [reflexivity|].
    rewrite Hparams. unfold has in Ht.
    destruct (Raw.supported_parameters m); [exact Ht|discriminate].
  - intros Heq. specialize (Hre Heq).
    simpl. apply getCapabilities_In. right. right. right. left. split; [reflexivity|].
    rewrite Hparams. unfold has in Hre.
    destruct (Raw.supported_parameters m); [exact Hre|discriminate].
  - intros wanted Heq Hw. destruct (Hm wanted Heq Hw) as [a [Ha Hmo]].
    now rewrite Hmod, Ha.
  - intros providers Heq. rewrite Hprov. now apply Hp.
Qed.

(** ** The intent parser *)

Lemma In_if_list {A : Type} (x : A) (b : bool) (l : list A) :
  In x (if b then l else []) <-> b = true /\ In x l.
Proof.
  destruct b; simpl; intuition congruence.
Qed.

(** The keyword table: which words of the request bring which search terms. *)
Lemma parseRequest_terms_In (request term : string) :
  In term (search_terms (parseRequest request)) <->
  (mentions request ["vision"; "image"; "multimodal"] = true
   /\ In term ["vision"; "multimodal"])
  \/ (mentions request ["tool"; "function"] = true /\ In term ["tools"; "function"])
  \/ (mentions request ["reasoning"; "think"] = true /\ In term ["reasoning"])
  \/ (mentions request ["instruct"] = true /\ In term ["instruct"])
  \/ (mentions request ["chat"] = true /\ In term ["chat"])
  \/ (In term providerKeywords /\ mentions request [term] = true).
Proof.
  unfold parseRequest, mentions. cbv zeta. cbn [search_terms existsb].
  rewrite !in_app_iff, !In_if_list, filter_In, !orb_false_r, !orb_assoc.
  reflexivity.
Qed.

Lemma parseRequest_filters (request : string) :
  filters (parseRequest request)
  = {| Filters.provider := None;
       Filters.free_only := if mentions request ["free"] then Some true else None;
       Filters.min_context :=
         if mentions request ["long context"; "large context"]
         then Some 100000%Z else None;
       Filters.max_context := None;
       Filters.max_price_per_1m := None;
       Filters.has_vision :=
         if mentions request ["vision"; "image"; "multimodal"] then Some true else None;
       Filters.has_tools :=
         if mentions request ["tool"; "function"] then Some true else None;
       Filters.has_reasoning :=
         if mentions request ["reasoning"; "think"] then Some true else None;
       Filters.modality := None |}.
Proof.
  unfold parseRequest, mentions. cbv zeta. cbn [filters existsb].
  now rewrite !orb_false_r, !orb_assoc.
Qed.

Lemma if_Some_true (b : bool) :
  (if b then Some true else None) = Some true <-> b = true.
Proof.
  destruct b; split; intros; congruence.
Qed.

(** X5.  Whatever the request, the parser sets only five filter fields, each
    to [true] (or 100000 for the context floor); it asks for one of three
    orderings, "context" exactly when it sets the context floor, even beside
    a cost keyword; its search terms come from a fixed vocabulary of fifteen
    words; a capability filter is set exactly when that capability's words
    are among the search terms; and the label "free models only" goes with
    the free filter. *)
Theorem parseRequest_shape (request : string) :
  let intent := parseRequest request in
  Filters.provider (filters intent) = None
  /\ Filters.max_context (filters intent) = None
  /\ Filters.max_price_per_1m (filters intent) = None
  /\ Filters.modality (filters intent) = None
  /\ (Filters.free_only (filters intent) = None
      \/ Filters.free_only (filters intent) = Some true)
  /\ (Filters.min_context (filters intent) = None
      \/ Filters.min_context (filters intent) = Some 100000%Z)
  /\ (sort_preference intent = "price" \/ sort_preference intent = "context"
      \/ sort_preference intent = "relevance")
  /\ (Filters.min_context (filters intent) = Some 100000%Z <->
      sort_preference intent = "context")
  /\ (forall term, In term (search_terms intent) -> In term vocabulary)
  /\ (Filters.has_vision (filters intent) = Some true <->
      In "vision" (search_terms intent))
  /\ (In "vision" (search_terms intent) <-> In "multimodal" (search_terms intent))
  /\ (Filters.has_tools (filters intent) = Some true <->
      In "tools" (search_terms intent))
  /\ (In "tools" (search_terms intent) <-> In "function" (search_terms intent))
  /\ (Filters.has_reasoning (filters intent) = Some true <->
      In "reasoning" (search_terms intent))
  /\ (understood_as intent = "free models only" <->
      Filters.free_only (filters intent) = Some true).
Proof.
  cbv zeta. rewrite !parseRequest_filters.
  cbn [Filters.provider Filters.free_only Filters.min_context Filters.max_context
         Filters.max_price_per_1m Filters.has_vision Filters.has_tools
         Filters.has_reasoning Filters.modality].
  rewrite !if_Some_true.
  split; [reflexivity|]. split; [reflexivity|]. split; [reflexivity|].
  split; [reflexivity|].
  split; [destruct (mentions request ["free"]); auto|].
  split; [destruct (mentions request ["long context"; "large context"]); auto|].
  split.
  { unfold parseRequest. cbv zeta. cbn [sort_preference].
    destruct (includes _ "long context" || includes _ "large context"); [auto|].
    destruct (includes _ "cheap" || includes _ "affordable" || includes _ "low cost");
      auto. }
  split.
  { unfold parseRequest, mentions. cbv zeta. cbn [sort_preference existsb].
    rewrite !orb_false_r.
    destruct (includes _ "long context" || includes _ "large context").
    - split; intros; reflexivity.
    - destruct (includes _ "cheap" || includes _ "affordable"
                || includes _ "low cost"); split; intros; discriminate. }
  split.
  { intros term Hin. apply parseRequest_terms_In in Hin. unfold vocabulary.
    apply in_or_app. simpl in Hin |- *. tauto. }
  assert (Hfixed : forall term,
             In term ["vision"; "multimodal"; "tools"; "function"; "reasoning"] ->
             ~ In term providerKeywords).
  { intros term Hin Hkey. simpl in Hin, Hkey.
    repeat (destruct Hin as [<- | Hin]; [intuition discriminate|]). exact Hin. }
  rewrite !parseRequest_terms_In.
  do 5 (split;
        [ split; intros Hyp;
          repeat match goal with
                 | H : _ \/ _ |- _ => destruct H as [H | H]
                 | H : _ /\ _ |- _ => destruct H
                 end;
          try (exfalso; eapply Hfixed; [|eassumption]; simpl; tauto);
          try (simpl in *; intuition discriminate);
          try (simpl; tauto)
        | ]).
  unfold parseRequest, mentions. cbv zeta. cbn [understood_as existsb].
  rewrite !orb_false_r.
  destruct (includes _ "free").
  - split; intros; reflexivity.
  - destruct (includes _ "cheap" || includes _ "affordable" || includes _ "low cost");
      split; intros; discriminate.
Qed.

(** ** The orchestrator, stage by stage *)

Lemma mapM_Forall2 {A B : Type} (f : A -> Completion B) (l : list A) (ys : list B) :
  mapM f l = Normal ys -> Forall2 (fun x y => f x = Normal y) l ys.
Proof.
  revert ys. induction l as [|x l IH]; simpl; intros ys Hys.
  - injection Hys as <-. constructor.
  - destruct (f x) as [y|e] eqn:Hx; simpl in Hys; [|discriminate].
    destruct (mapM f l) as [ys'|e]; simpl in Hys; [|discriminate].
    injection Hys as <-. constructor; [exact Hx|now apply IH].
Qed.

Lemma Forall2_In_r {A B : Type} (R : A -> B -> Prop) (l : list A) (ys : list B) (y : B) :
  Forall2 R l ys -> In y ys -> exists x, In x l /\ R x y.
Proof.
  induction 1 as [|x y' l ys Hxy _ IH]; simpl; intros Hin; [contradiction|].
  destruct Hin as [<- | Hin].
  - exists x. split; [now left|exact Hxy].
  - destruct (IH Hin) as [x' [Hx' Hr]]. exists x'. split; [now right|exact Hr].
Qed.

Lemma firstn_incl {A : Type} (n : nat) (l : list A) : incl (firstn n l) l.
Proof.
  intros x Hx. rewrite <- (firstn_skipn n l). apply in_or_app. now left.
Qed.

Lemma slice0_incl {A : Type} (l : list A) (n : Z) : incl (slice0 l n) l.
Proof.
  unfold slice0. destruct (0 <=? n)%Z; apply firstn_incl.
Qed.

Lemma slice0_length {A : Type} (l : list A) (n : Z) :
  List.length (slice0 l n)
  = if (0 <=? n)%Z then Nat.min (Z.to_nat n) (List.length l)
    else (List.length l - Z.to_nat (- n))%nat.
Proof.
  unfold slice0. destruct (0 <=? n)%Z; rewrite length_firstn; lia.
Qed.

(** What a reply is made of. *)
Lemma considerModels_inv (params : Params.t) (w w' : World) (r : FetchResult)
  (reply : Reply.t) :
  fetchModels (Params.force_refresh params) w = (Normal r, w') ->
  fst (considerModels params w) = Normal reply ->
  exists formatted,
    mapM formatModelData (shortlist params (models r)) = Normal formatted
    /\ Reply.models reply
       = map entryOf (slice0 (withCosts params formatted) (limitOf params))
    /\ Reply.total_models_found reply = List.length formatted
    /\ Reply.models_returned reply
       = List.length (slice0 (withCosts params formatted) (limitOf params))
    /\ Reply.cache_age reply = (if cached r then Some (cache_age r) else None)
    /\ Reply.cost_analysis reply
       = match Params.workload params,
               slice0 (withCosts params formatted) (limitOf params) with
         | Some _, _ :: _ =>
             costAnalysis (slice0 (withCosts params formatted) (limitOf params))
         | _, _ => None
         end
    /\ interpreted_terms (Reply.interpretation reply) = search_terms (intentOf params)
    /\ applied_filters (Reply.interpretation reply) = combinedFilters params.
Proof.
  intros Hfetch. unfold considerModels. rewrite Hfetch. cbn [fst bind]. cbv zeta.
  fold (intentOf params). fold (combinedFilters params).
  change (mapM formatModelData _) with (mapM formatModelData (shortlist params (models r))).
  destruct (mapM formatModelData (shortlist params (models r))) as [formatted|e];
    cbn [bind]; [|discriminate].
  fold (withCosts params formatted). fold (limitOf params).
  destruct (moreIdsThan 1 (Params.model_ids params)).
  - match goal with
    | |- context [generateComparison ?l ?wl] => destruct (generateComparison l wl)
    end; cbn [bind]; [|discriminate].
    intros Heq. injection Heq as <-. exists formatted. cbn. repeat split.
  - cbn [bind]. intros Heq. injection Heq as <-. exists formatted. cbn. repeat split.
Qed.

Lemma sortModels_In (models : list Raw.t) (sortBy : string) (m : Raw.t) :
  In m (sortModels models sortBy) <-> In m models.
Proof.
  unfold sortModels. destruct (comparator sortBy); [apply sort_In|reflexivity].
Qed.

Lemma sort_length {A : Type} (cmp : A -> A -> comparison) (l : list A) :
  List.length (sort cmp l) = List.length l.
Proof.
  symmetry. apply Permutation_length, sort_Permutation.
Qed.

Lemma sortModels_length (models : list Raw.t) (sortBy : string) :
  List.length (sortModels models sortBy) = List.length models.
Proof.
  unfold sortModels. destruct (comparator sortBy); [apply sort_length|reflexivity].
Qed.

Lemma scoreOf_positive (m : Raw.t) (searchTerms : list string) :
  (0 <? scoreOf m searchTerms)%nat = true <->
  exists term, In term searchTerms /\ termOccurs m term = true.
Proof.
  rewrite scoreOf_count, Nat.ltb_lt. split.
  - intros Hpos. destruct (filter (termOccurs m) searchTerms) as [|term rest] eqn:Hf;
      [simpl in Hpos; lia|].
    assert (Hin : In term (filter (termOccurs m) searchTerms)) by (rewrite Hf; now left).
    apply filter_In in Hin. now exists term.
  - intros [term [Hin Hocc]].
    assert (Hf : In term (filter (termOccurs m) searchTerms)) by now apply filter_In.
    destruct (filter (termOccurs m) searchTerms); [contradiction|simpl; lia].
Qed.

Lemma searchModels_In (models : list Raw.t) (searchTerms : list string) (m : Raw.t) :
  searchTerms <> [] ->
  In m (map model (searchModels models searchTerms)) <->
  In m models /\ exists term, In term searchTerms /\ termOccurs m term = true.
Proof.
  intros Hne. destruct searchTerms as [|t ts]; [congruence|].
  unfold searchModels. rewrite in_map_iff. split.
  - intros [item [<- Hitem]]. apply filter_In in Hitem. destruct Hitem as [Hitem Hpos].
    apply in_map_iff in Hitem. destruct Hitem as [m' [<- Hm']].
    split; [exact Hm'|]. now apply scoreOf_positive.
  - intros [Hm Hocc]. exists {| model := m; score := scoreOf m (t :: ts) |}.
    split; [reflexivity|]. apply filter_In. split.
    + apply in_map_iff. now exists m.
    + now apply scoreOf_positive.
Qed.

(** The records the orchestrator goes on with are those of the snapshot that
    pass the merged filters, are named by an identifier when identifiers are
    given, and contain a search term when there are search terms. *)
Lemma shortlist_In (params : Params.t) (snapshot : list Raw.t) (m : Raw.t) :
  In m (shortlist params snapshot) <->
  In m snapshot
  /\ passes (combinedFilters params) m = true
  /\ (forall ids, Params.model_ids params = Some ids -> ids <> [] -> namedBy ids m = true)
  /\ (search_terms (intentOf params) <> [] ->
      exists term, In term (search_terms (intentOf params)) /\ termOccurs m term = true).
Proof.
  unfold shortlist. cbv zeta. rewrite sortModels_In.
  set (filtered := if moreIdsThan 0 (Params.model_ids params) then _ else _).
  assert (Hfiltered : In m filtered <->
            In m snapshot /\ passes (combinedFilters params) m = true
            /\ (forall ids, Params.model_ids params = Some ids -> ids <> [] ->
                            namedBy ids m = true)).
  { subst filtered. unfold moreIdsThan.
    destruct (Params.model_ids params) as [[|id ids]|];
      cbn [List.length Nat.ltb Nat.leb].
    - rewrite applyFilters_filter, filter_In. split.
      + intros [Hin Hadm]. repeat split; try assumption.
        intros ids Heq Hne. injection Heq as <-. congruence.
      + tauto.
    - rewrite filter_In, applyFilters_filter, filter_In. split.
      + intros [[Hin Hadm] Hnamed]. repeat split; try assumption.
        intros ids' Heq _. now injection Heq as <-.
      + intros (Hin & Hadm & Hnamed). repeat split; try assumption.
        apply Hnamed; [reflexivity|discriminate].
    - rewrite applyFilters_filter, filter_In. split.
      + intros [Hin Hadm]. repeat split; try assumption. discriminate.
      + tauto. }
  destruct (search_terms (intentOf params)) as [|t ts] eqn:Hterms.
  - rewrite Hfiltered. split; [|tauto].
    intros (Hin & Hadm & Hnamed). repeat split; try assumption. congruence.
  - assert (Hsorted : In m (map model (sort byScore (searchModels filtered (t :: ts))))
                      <-> In m (map model (searchModels filtered (t :: ts)))).
    { rewrite !in_map_iff. split; intros [item [Hi Hin]]; exists item; split;
        try exact Hi; now apply sort_In in Hin || apply sort_In. }
    rewrite Hsorted, searchModels_In by discriminate. rewrite Hfiltered. split.
    + intros [(Hin & Hadm & Hnamed) Hocc]. repeat split; try assumption. now intros _.
    + intros (Hin & Hadm & Hnamed & Hocc). repeat split; try assumption.
      apply Hocc. discriminate.
Qed.

Lemma shortlist_length (params : Params.t) (snapshot : list Raw.t) :
  (List.length (shortlist params snapshot) <= List.length snapshot)%nat.
Proof.
  unfold shortlist. cbv zeta. rewrite sortModels_length.
  set (filtered := if moreIdsThan 0 (Params.model_ids params) then _ else _).
  assert (Hfiltered : (List.length filtered <= List.length snapshot)%nat).
  { subst filtered. rewrite applyFilters_filter.
    destruct (moreIdsThan 0 (Params.model_ids params)).
    - eapply Nat.le_trans; apply filter_length_le.
    - apply filter_length_le. }
  destruct (search_terms (intentOf params)) as [|t ts]; [exact Hfiltered|].
  rewrite length_map, sort_length. unfold searchModels.
  eapply Nat.le_trans; [apply filter_length_le|]. now rewrite length_map.
Qed.

(** X6.  Every model of a reply is the normal form of a record of the
    snapshot that passes the merged filters, is named by one of the
    identifiers when identifiers are supplied, and contains one of the
    intent's search terms when there are any; and the number of models found
    is the number of such records, counted before the reply is cut. *)
Theorem considerModels_sound (params : Params.t) (w w' : World) (r : FetchResult)
  (reply : Reply.t) :
  fetchModels (Params.force_refresh params) w = (Normal r, w') ->
  fst (considerModels params w) = Normal reply ->
  Reply.total_models_found reply = List.length (shortlist params (models r))
  /\ (forall m,
        In m (shortlist params (models r)) <->
        In m (models r)
        /\ passes (combinedFilters params) m = true
        /\ (forall ids, Params.model_ids params = Some ids -> ids <> [] ->
                        namedBy ids m = true)
        /\ (search_terms (intentOf params) <> [] ->
            exists term,
              In term (search_terms (intentOf params)) /\ termOccurs m term = true))
  /\ (forall entry,
        In entry (Reply.models reply) ->
        exists m record,
          In m (shortlist params (models r))
          /\ formatModelData m = Normal record
          /\ entry_id entry = Raw.id m
          /\ entry_name entry = Raw.name m
          /\ entry_context_length entry = Raw.context_length m
          /\ entry_is_free entry = isFree (Raw.pricing m)).
Proof.
  intros Hfetch Hreply.
  destruct (considerModels_inv params w w' r reply Hfetch Hreply)
    as (formatted & Hformatted & Hmodels & Htotal & _).
  apply mapM_Forall2 in Hformatted.
  split; [|split].
  - rewrite Htotal. symmetry. eapply Forall2_length. exact Hformatted.
  - intros m. apply shortlist_In.
  - intros entry Hentry. rewrite Hmodels in Hentry.
    apply in_map_iff in Hentry. destruct Hentry as [[record estimate] [<- Hitem]].
    apply slice0_incl in Hitem. unfold withCosts in Hitem.
    apply in_map_iff in Hitem. destruct Hitem as [record' [Heq Hrecord]].
    injection Heq as -> _.
    destruct (Forall2_In_r _ _ _ _ Hformatted Hrecord) as [m [Hm Hnormal]].
    exists m, record. split; [exact Hm|]. split; [exact Hnormal|].
    destruct (formatModelData_fields m record Hnormal)
      as (Hid & Hname & _ & Hctx & _ & Hfree & _).
    simpl. now rewrite Hid, Hname, Hctx, Hfree.
Qed.

(** X7.  A reply reports as many models as it lists, never more than were
    found, and never more were found than the snapshot holds.  Without
    [max_results], or with [max_results] 0, at most ten are listed; a
    positive [max_results] is the cap; a negative one drops that many from
    the end of the list. *)
Theorem considerModels_counts (params : Params.t) (w w' : World) (r : FetchResult)
  (reply : Reply.t) :
  fetchModels (Params.force_refresh params) w = (Normal r, w') ->
  fst (considerModels params w) = Normal reply ->
  Reply.models_returned reply = List.length (Reply.models reply)
  /\ (Reply.models_returned reply <= Reply.total_models_found reply)%nat
  /\ (Reply.total_models_found reply <= List.length (models r))%nat
  /\ (Params.max_results params = None \/ Params.max_results params = Some 0%Z ->
      Reply.models_returned reply = Nat.min 10 (Reply.total_models_found reply))
  /\ (forall n, Params.max_results params = Some n -> (0 < n)%Z ->
        Reply.models_returned reply
        = Nat.min (Z.to_nat n) (Reply.total_models_found reply))
  /\ (forall n, Params.max_results params = Some n -> (n < 0)%Z ->
        Reply.models_returned reply
        = (Reply.total_models_found reply - Z.to_nat (- n))%nat).
Proof.
  intros Hfetch Hreply.
  destruct (considerModels_inv params w w' r reply Hfetch Hreply)
    as (formatted & Hformatted & Hmodels & Htotal & Hreturned & _).
  apply mapM_Forall2 in Hformatted. apply Forall2_length in Hformatted.
  pose proof (shortlist_length params (models r)) as Hshort.
  assert (Hcosts : List.length (withCosts params formatted) = List.length formatted)
    by (unfold withCosts; apply length_map).
  rewrite Hreturned, Hmodels, Htotal, length_map, slice0_length, Hcosts.
  unfold limitOf, truthyZ.
  split; [reflexivity|]. split; [destruct (0 <=? _)%Z; lia|]. split; [lia|].
  split; [|split].
  - intros [-> | ->]; reflexivity.
  - intros n -> Hn. destruct (Z.eqb_spec n 0); [lia|]. simpl.
    destruct (Z.leb_spec 0 n); [reflexivity|lia].
  - intros n -> Hn. destruct (Z.eqb_spec n 0); [lia|]. simpl.
    destruct (Z.leb_spec 0 n); [lia|reflexivity].
Qed.

Lemma last_In {A : Type} (x d : A) (l : list A) : In (last (x :: l) d) (x :: l).
Proof.
  revert x. induction l as [|y l IH]; intros x.
  - now left.
  - right. apply (IH y).
Qed.

Lemma costOptions_In (results : list (Rec.t * option CostEstimate)) (o : CostOption) :
  In o (costOptions results) <->
  exists record estimate,
    In (record, Some estimate) results
    /\ o = {| option_id := Rec.id record; cost := total estimate |}.
Proof.
  unfold costOptions. rewrite sort_In, in_flat_map. split.
  - intros [[record [estimate|]] [Hitem Ho]]; simpl in Ho; [|contradiction].
    destruct Ho as [<-|[]]. now exists record, estimate.
  - intros (record & estimate & Hitem & ->). exists (record, Some estimate).
    split; [exact Hitem|]. now left.
Qed.

Lemma costAnalysis_inv (results : list (Rec.t * option CostEstimate)) (a : CostAnalysis) :
  costAnalysis results = Some a ->
  In (cheapest_option a) (costOptions results)
  /\ In (most_expensive_option a) (costOptions results)
  /\ potential_savings a = (cost (most_expensive_option a) - cost (cheapest_option a))%float
  /\ exists rest, costOptions results = cheapest_option a :: rest
                  /\ most_expensive_option a = last rest (cheapest_option a).
Proof.
  unfold costAnalysis. cbv zeta.
  destruct (costOptions results) as [|first rest] eqn:Hcosts; [discriminate|].
  intros Heq. injection Heq as <-. cbn [cheapest_option most_expensive_option potential_savings].
  split; [now left|]. split; [apply last_In|]. split; [reflexivity|].
  exists rest. split; [reflexivity|]. destruct rest; reflexivity.
Qed.

Lemma costAnalysis_None (results : list (Rec.t * option CostEstimate)) :
  costAnalysis results = None <-> forall item, In item results -> snd item = None.
Proof.
  unfold costAnalysis. cbv zeta. split.
  - destruct (costOptions results) as [|first rest] eqn:Hcosts; [|discriminate].
    intros _ [record [estimate|]] Hitem; [|reflexivity].
    assert (Hin : In {| option_id := Rec.id record; cost := total estimate |}
                     (costOptions results))
      by (apply costOptions_In; now exists record, estimate).
    rewrite Hcosts in Hin. contradiction.
  - intros Hnone. destruct (costOptions results) as [|first rest] eqn:Hcosts; [reflexivity|].
    assert (Hin : In first (costOptions results)) by (rewrite Hcosts; now left).
    apply costOptions_In in Hin. destruct Hin as (record & estimate & Hitem & _).
    apply Hnone in Hitem. discriminate.
Qed.

(** X8.  Cost figures follow the workload: without a workload no model of the
    reply carries an estimate and there is no cost analysis; with one, every
    model carries the estimate of its own record and the analysis is present
    exactly when a model is returned.  The analysis names two models of the
    reply with their own totals, and its saving is the dearer total minus
    the cheaper one. *)
Theorem considerModels_cost_analysis (params : Params.t) (w w' : World) (r : FetchResult)
  (reply : Reply.t) :
  fetchModels (Params.force_refresh params) w = (Normal r, w') ->
  fst (considerModels params w) = Normal reply ->
  (Params.workload params = None ->
     Reply.cost_analysis reply = None
     /\ forall entry, In entry (Reply.models reply) -> estimated_cost entry = None)
  /\ (forall workload, Params.workload params = Some workload ->
        (Reply.cost_analysis reply = None <-> Reply.models reply = [])
        /\ forall entry, In entry (Reply.models reply) ->
             exists m record,
               In m (models r) /\ formatModelData m = Normal record
               /\ entry_id entry = Raw.id m
               /\ estimated_cost entry = Some (calculateCost record workload))
  /\ (forall analysis, Reply.cost_analysis reply = Some analysis ->
        potential_savings analysis
        = (cost (most_expensive_option analysis) - cost (cheapest_option analysis))%float
        /\ forall o, o = cheapest_option analysis \/ o = most_expensive_option analysis ->
             exists entry estimate,
               In entry (Reply.models reply)
               /\ estimated_cost entry = Some estimate
               /\ entry_id entry = option_id o
               /\ total estimate = cost o).
Proof.
  intros Hfetch Hreply.
  destruct (considerModels_inv params w w' r reply Hfetch Hreply)
    as (formatted & Hformatted & Hmodels & _ & _ & _ & Hanalysis & _).
  apply mapM_Forall2 in Hformatted.
  set (results := slice0 (withCosts params formatted) (limitOf params)) in *.
  assert (Hitems : forall record estimate, In (record, estimate) results ->
            In record formatted
            /\ estimate = match Params.workload params with
                          | Some workload => Some (calculateCost record workload)
                          | None => None
                          end).
  { intros record estimate Hitem. apply slice0_incl in Hitem. unfold withCosts in Hitem.
    apply in_map_iff in Hitem. destruct Hitem as [record' [Heq Hrecord]].
    injection Heq as -> <-. now split. }
  split; [|split].
  - intros Hnone. rewrite Hanalysis, Hnone. split; [reflexivity|].
    intros entry Hentry. rewrite Hmodels in Hentry. apply in_map_iff in Hentry.
    destruct Hentry as [[record estimate] [<- Hitem]].
    apply Hitems in Hitem. destruct Hitem as [_ ->]. now rewrite Hnone.
  - intros workload Hwl. split.
    + rewrite Hanalysis, Hwl, Hmodels.
      destruct results as [|[record estimate] rest] eqn:Hresults; [tauto|].
      split; [|discriminate]. intros Hnone. exfalso.
      assert (Hnone' := proj1 (costAnalysis_None _) Hnone (record, estimate)
                          (or_introl eq_refl)).
      destruct (Hitems record estimate (or_introl eq_refl)) as [_ Hest].
      rewrite Hwl in Hest. simpl in Hnone'. congruence.
    + intros entry Hentry. rewrite Hmodels in Hentry. apply in_map_iff in Hentry.
      destruct Hentry as [[record estimate] [<- Hitem]].
      apply Hitems in Hitem. destruct Hitem as [Hrecord ->]. rewrite Hwl.
      destruct (Forall2_In_r _ _ _ _ Hformatted Hrecord) as [m [Hm Hnormal]].
      exists m, record. split; [now apply shortlist_In in Hm|]. split; [exact Hnormal|].
      destruct (formatModelData_fields m record Hnormal) as (Hid & _).
      simpl. now rewrite Hid.
  - intros analysis Hsome. rewrite Hanalysis in Hsome.
    assert (Hcost : costAnalysis results = Some analysis).
    { destruct (Params.workload params); [|discriminate].
      destruct results; [discriminate|exact Hsome]. }
    destruct (costAnalysis_inv results analysis Hcost) as (Hfirst & Hlast & Hsaving & _).
    split; [exact Hsaving|].
    assert (Hoption : forall o, In o (costOptions results) ->
              exists entry estimate,
                In entry (Reply.models reply) /\ estimated_cost entry = Some estimate
                /\ entry_id entry = option_id o /\ total estimate = cost o).
    { intros o Ho. apply costOptions_In in Ho.
      destruct Ho as (record & estimate & Hitem & ->).
      exists (entryOf (record, Some estimate)), estimate.
      split; [rewrite Hmodels; now apply in_map|]. now simpl. }
    intros o [-> | ->]; now apply Hoption.
Qed.

(** ** The order of the records *)

Lemma precedes_map_inv {A B : Type} (f : A -> B) (a b : B) (l : list A) :
  precedes a b (map f l) ->
  exists a' b', precedes a' b' l /\ f a' = a /\ f b' = b.
Proof.
  intros (l1 & l2 & l3 & Heq).
  apply map_eq_app in Heq. destruct Heq as (m1 & rest & -> & <- & Hrest).
  destruct rest as [|a' rest]; [discriminate|]. simpl in Hrest.
  injection Hrest as <- Hrest.
  apply map_eq_app in Hrest. destruct Hrest as (m2 & rest' & -> & <- & Hrest).
  destruct rest' as [|b' m3]; [discriminate|]. simpl in Hrest.
  injection Hrest as <- <-.
  exists a', b'. split; [|now split]. now exists m1, m2, m3.
Qed.

Lemma precedes_map {A B : Type} (f : A -> B) (a b : A) (l : list A) :
  precedes a b l -> precedes (f a) (f b) (map f l).
Proof.
  intros (l1 & l2 & l3 & ->). exists (map f l1), (map f l2), (map f l3).
  now rewrite !map_app, !map_cons, !map_app.
Qed.

Lemma Sorted_weaken {A : Type} (R S : A -> A -> Prop) (l : list A) :
  (forall a b, R a b -> S a b) -> Sorted R l -> Sorted S l.
Proof.
  intros Hsub Hs. induction Hs as [|a l Hs IH Hhd]; constructor; [exact IH|].
  destruct Hhd; constructor. now apply Hsub.
Qed.

Lemma descending_Sorted {A : Type} (key : A -> Z) (l : list A) :
  StronglySorted (fun a b => (key b <= key a)%Z)
    (sort (fun a b => signZ (key b - key a)%Z) l).
Proof.
  apply Sorted_StronglySorted; [intros a b c; lia|].
  eapply Sorted_weaken; [|apply sort_Sorted; intros a b; apply signZ_sub_asym].
  intros a b. unfold inOrder, signZ. rewrite Z.compare_gt_iff. lia.
Qed.

Lemma StronglySorted_map {A B : Type} (f : A -> B) (R : B -> B -> Prop) (l : list A) :
  StronglySorted (fun a b => R (f a) (f b)) l -> StronglySorted R (map f l).
Proof.
  induction 1 as [|a l Hs IH Hall]; simpl; constructor; [exact IH|].
  apply Forall_map. exact Hall.
Qed.

Lemma StronglySorted_weaken {A : Type} (R S : A -> A -> Prop) (l : list A) :
  (forall a b, In a l -> In b l -> R a b -> S a b) ->
  StronglySorted R l -> StronglySorted S l.
Proof.
  intros Hsub Hs. induction Hs as [|a l Hs IH Hall]; constructor.
  - apply IH. intros x y Hx Hy. apply Hsub; now right.
  - rewrite Forall_forall in *. intros x Hx. apply Hsub; [now left|now right|now apply Hall].
Qed.

Lemma searchModels_score (models : list Raw.t) (searchTerms : list string) (item : Scored) :
  searchTerms <> [] ->
  In item (searchModels models searchTerms) -> score item = scoreOf (model item) searchTerms.
Proof.
  intros Hne Hitem. unfold searchModels in Hitem.
  destruct searchTerms as [|t ts]; [congruence|].
  apply filter_In in Hitem. destruct Hitem as [Hitem _].
  apply in_map_iff in Hitem. now destruct Hitem as [m [<- _]].
Qed.

Lemma scoreOf_nil (m : Raw.t) : scoreOf m [] = 0%nat.
Proof.
  now rewrite scoreOf_count.
Qed.

(** X9.  When the sort key in force is none of price, context, created and
    name (relevance is the default), the records a reply is drawn from are in
    order of descending keyword score, and of two records with the same
    score the one that comes first in the snapshot comes first. *)
Theorem shortlist_ranked_by_score (params : Params.t) (snapshot : list Raw.t) :
  comparator (sortKey params) = None ->
  StronglySorted
    (fun a b => (scoreOf b (search_terms (intentOf params))
                 <= scoreOf a (search_terms (intentOf params)))%nat)
    (shortlist params snapshot)
  /\ (forall a b,
        precedes a b (shortlist params snapshot) ->
        scoreOf a (search_terms (intentOf params))
        = scoreOf b (search_terms (intentOf params)) ->
        precedes a b snapshot).
Proof.
  intros Hkey. unfold shortlist. cbv zeta. fold (sortKey params).
  unfold sortModels. rewrite Hkey.
  set (filtered := if moreIdsThan 0 (Params.model_ids params) then _ else _).
  assert (Hfiltered : forall a b, precedes a b filtered -> precedes a b snapshot).
  { intros a b. subst filtered. rewrite applyFilters_filter.
    destruct (moreIdsThan 0 (Params.model_ids params)); intros Hp.
    - now apply filter_precedes, filter_precedes in Hp.
    - now apply filter_precedes in Hp. }
  destruct (search_terms (intentOf params)) as [|t ts] eqn:Hterms.
  - split.
    + assert (Hall : forall l : list Raw.t,
                StronglySorted (fun a b => (scoreOf b [] <= scoreOf a [])%nat) l).
      { induction l as [|x l IH]; constructor; [exact IH|].
        apply Forall_forall. intros y _. now rewrite !scoreOf_nil. }
      apply Hall.
    + intros a b Hp _. now apply Hfiltered.
  - set (terms := t :: ts) in *.
    assert (Hne : terms <> []) by discriminate.
    split.
    + apply StronglySorted_map.
      eapply StronglySorted_weaken;
        [|apply (descending_Sorted (fun item : Scored => Z.of_nat (score item)))].
      intros a b Ha Hb Hle. cbv beta in Hle. apply sort_In in Ha, Hb.
      rewrite <- (searchModels_score filtered terms a Hne Ha).
      rewrite <- (searchModels_score filtered terms b Hne Hb). lia.
    + intros a b Hp Hscore. apply Hfiltered.
      apply precedes_map_inv in Hp. destruct Hp as (a' & b' & Hp & <- & <-).
      assert (Ha : In a' (searchModels filtered terms)).
      { destruct Hp as (l1 & l2 & l3 & Heq). apply (proj1 (sort_In _ byScore _ _)).
        rewrite Heq. apply in_or_app. right. now left. }
      assert (Hb : In b' (searchModels filtered terms)).
      { destruct Hp as (l1 & l2 & l3 & Heq). apply (proj1 (sort_In _ byScore _ _)).
        rewrite Heq. apply in_or_app. right. right. apply in_or_app. right. now left. }
      apply sort_stable in Hp. destruct Hp as [Hp | Hgt].
      * unfold searchModels in Hp. fold terms in Hp. unfold terms in Hp.
        apply filter_precedes in Hp. apply precedes_map_inv in Hp.
        destruct Hp as (a0 & b0 & Hp & <- & <-). exact Hp.
      * exfalso. unfold byScore, signZ in Hgt. rewrite Z.compare_gt_iff in Hgt.
        rewrite (searchModels_score filtered terms a' Hne Ha) in Hgt.
        rewrite (searchModels_score filtered terms b' Hne Hb) in Hgt.
        rewrite Hscore in Hgt. lia.
Qed.

(** X10.  Sorting by context puts the longest context first and sorting by
    creation time the newest record first: in the sorted list no record is
    followed, at any distance, by one with a larger value. *)
Theorem sortModels_descending (models : list Raw.t) :
  StronglySorted (fun a b => (Raw.context_length b <= Raw.context_length a)%Z)
    (sortModels models "context")
  /\ StronglySorted (fun a b => (Raw.created b <= Raw.created a)%Z)
       (sortModels models "created").
Proof.
  split.
  - apply (descending_Sorted Raw.context_length).
  - apply (descending_Sorted Raw.created).
Qed.

(** ** The cache over two calls *)

Lemma fetchModels_hit (w : World) (snapshot : list Raw.t) (fetchedAt : Z) :
  modelsCache w = {| data := Some snapshot; timestamp := Some fetchedAt |} ->
  fetchedAt <> 0%Z ->
  (now w - fetchedAt < CACHE_DURATION_MS)%Z ->
  fetchModels false w
  = (Normal {| models := snapshot;
               cache_age := ((now w - fetchedAt) / 1000)%Z;
               cached := true |}, w).
Proof.
  intros Hcache Hset Hyoung. unfold fetchModels. rewrite Hcache. cbn [data timestamp].
  unfold truthyZ. apply Z.eqb_neq in Hset. rewrite Hset.
  apply Z.ltb_lt in Hyoung. now rewrite Hyoung.
Qed.

Lemma fetchModels_miss (w : World) (snapshot : list Raw.t) (fetchedAt : Z) :
  modelsCache w = {| data := Some snapshot; timestamp := Some fetchedAt |} ->
  fetchedAt = 0%Z \/ (CACHE_DURATION_MS <= now w - fetchedAt)%Z ->
  fetchModels false w = fetchFresh w.
Proof.
  intros Hcache Hold. unfold fetchModels. rewrite Hcache. cbn [data timestamp].
  unfold truthyZ. destruct (Z.eqb_spec fetchedAt 0) as [Hz|Hnz]; [reflexivity|].
  destruct Hold as [Hold|Hold]; [contradiction|].
  apply Z.ltb_ge in Hold. now rewrite Hold.
Qed.

Lemma fetchFresh_Normal (w w1 : World) (r : FetchResult) :
  fetchFresh w = (Normal r, w1) ->
  cached r = false
  /\ cache_age r = 0%Z
  /\ modelsCache w1 = {| data := Some (models r); timestamp := Some (now w) |}
  /\ requests w1 = S (requests w).
Proof.
  unfold fetchFresh. destruct (network w) as [e|response]; [discriminate|].
  destruct (ok response); cbn [negb]; [|discriminate].
  destruct (json response) as [body|e]; [|discriminate].
  intros Heq. injection Heq as <- <-. now repeat split.
Qed.

Lemma fetchModels_Normal (forceRefresh : bool) (w w1 : World) (r : FetchResult) :
  fetchModels forceRefresh w = (Normal r, w1) ->
  (cached r = true /\ w1 = w
   /\ exists fetchedAt,
        modelsCache w = {| data := Some (models r); timestamp := Some fetchedAt |}
        /\ fetchedAt <> 0%Z /\ forceRefresh = false
        /\ (now w - fetchedAt < CACHE_DURATION_MS)%Z
        /\ cache_age r = ((now w - fetchedAt) / 1000)%Z)
  \/ (cached r = false /\ fetchFresh w = (Normal r, w1)).
Proof.
  unfold fetchModels.
  destruct (modelsCache w) as [[snapshot|] [fetchedAt|]] eqn:Hcache; cbn [data timestamp];
    try (intros Hf; right; split; [now apply fetchFresh_Normal in Hf|exact Hf]).
  destruct forceRefresh; cbn [negb andb];
    try (intros Hf; right; split; [now apply fetchFresh_Normal in Hf|exact Hf]).
  unfold truthyZ. destruct (Z.eqb_spec fetchedAt 0) as [Hz|Hnz]; cbn [negb];
    try (intros Hf; right; split; [now apply fetchFresh_Normal in Hf|exact Hf]).
  destruct (Z.ltb_spec (now w - fetchedAt) CACHE_DURATION_MS) as [Hyoung|Hold];
    try (intros Hf; right; split; [now apply fetchFresh_Normal in Hf|exact Hf]).
  intros Heq. injection Heq as <- <-. left. cbn [cached models cache_age].
  split; [reflexivity|]. split; [reflexivity|]. exists fetchedAt. now repeat split.
Qed.

(** X11.  What a successful call returns is what the cache holds afterwards.
    A later call without [forceRefresh], made before the snapshot's time to
    live is over, returns the same models marked cached, with the age counted
    from the moment of the fetch, and makes no request, whatever the upstream
    would answer; once the time to live is over, or when the fetch was
    stamped with time 0, the later call goes to the upstream. *)
Theorem fetchModels_round_trip (forceRefresh : bool) (w w1 : World) (r : FetchResult) :
  fetchModels forceRefresh w = (Normal r, w1) ->
  exists fetchedAt,
    modelsCache w1 = {| data := Some (models r); timestamp := Some fetchedAt |}
    /\ (cached r = false -> fetchedAt = now w /\ requests w1 = S (requests w))
    /\ (cached r = true -> w1 = w)
    /\ (forall t net,
          fetchedAt <> 0%Z -> (t - fetchedAt < CACHE_DURATION_MS)%Z ->
          fetchModels false (elapse w1 t net)
          = (Normal {| models := models r;
                       cache_age := ((t - fetchedAt) / 1000)%Z;
                       cached := true |}, elapse w1 t net))
    /\ (forall t net,
          fetchedAt = 0%Z \/ (CACHE_DURATION_MS <= t - fetchedAt)%Z ->
          requests (snd (fetchModels false (elapse w1 t net))) = S (requests w1)).
Proof.
  intros Hfetch.
  assert (Hcache : exists fetchedAt,
            modelsCache w1 = {| data := Some (models r); timestamp := Some fetchedAt |}
            /\ (cached r = false -> fetchedAt = now w /\ requests w1 = S (requests w))
            /\ (cached r = true -> w1 = w)).
  { destruct (fetchModels_Normal forceRefresh w w1 r Hfetch)
      as [(Hc & -> & fetchedAt & Hcache & _) | (Hc & Hfresh)].
    - exists fetchedAt. split; [exact Hcache|]. split; [congruence|reflexivity].
    - apply fetchFresh_Normal in Hfresh. destruct Hfresh as (_ & _ & Hcache & Hreq).
      exists (now w). split; [exact Hcache|]. split; [now split|congruence]. }
  destruct Hcache as (fetchedAt & Hcache & Hfreshly & Hsame).
  exists fetchedAt. split; [exact Hcache|]. split; [exact Hfreshly|].
  split; [exact Hsame|]. split.
  - intros t net Hset Hyoung.
    apply (fetchModels_hit (elapse w1 t net) (models r) fetchedAt Hcache Hset Hyoung).
  - intros t net Hold.
    rewrite (fetchModels_miss (elapse w1 t net) (models r) fetchedAt Hcache Hold).
    exact (proj1 (fetchFresh_spec (elapse w1 t net))).
Qed.

(** ** Direct lookup, with the world *)

Lemma find_split {A : Type} (f : A -> bool) (l : list A) (x : A) :
  find f l = Some x ->
  exists before after,
    l = before ++ x :: after
    /\ (forall y, In y before -> f y = false)
    /\ f x = true.
Proof.
  induction l as [|y l IH]; simpl; [discriminate|].
  destruct (f y) eqn:Hy.
  - intros Heq. injection Heq as ->. exists [], l. now repeat split.
  - intros Hfind. destruct (IH Hfind) as (before & after & -> & Hbefore & Hx).
    exists (y :: before), after. split; [reflexivity|]. split; [|exact Hx].
    intros z [<-|Hz]; [exact Hy|now apply Hbefore].
Qed.

(** X12.  [getModel] never forces a refresh and leaves the world as the fetch
    leaves it; a failure of the fetch is passed on unchanged; and a record it
    returns is the normal form of a record of the snapshot that meets one of
    the four criteria, the first such record. *)
Theorem getModel_outcome (modelId : string) (w : World) :
  snd (getModel modelId w) = snd (fetchModels false w)
  /\ (forall e, fst (fetchModels false w) = Throw e -> fst (getModel modelId w) = Throw e)
  /\ (forall record,
        fst (getModel modelId w) = Normal record ->
        exists r before m after,
          fst (fetchModels false w) = Normal r
          /\ models r = before ++ m :: after
          /\ (forall other, In other before -> matchesIdentifier modelId other = false)
          /\ matchesIdentifier modelId m = true
          /\ formatModelData m = Normal record)
  /\ (forall message,
        fst (getModel modelId w) = Throw (Error message) ->
        fst (fetchModels false w) = Throw (Error message)
        \/ (message = ("Model not found: " ++ modelId)%string
            /\ exists r, fst (fetchModels false w) = Normal r
                         /\ forall m, In m (models r) -> matchesIdentifier modelId m = false)).
Proof.
  unfold getModel. destruct (fetchModels false w) as [[r|e] w1]; cbn [fst snd bind].
  - split; [reflexivity|]. split; [discriminate|]. unfold lookupModel. split.
    + intros record Hrecord.
      destruct (find (matchesIdentifier modelId) (models r)) as [m|] eqn:Hfind;
        [|discriminate].
      destruct (find_split (matchesIdentifier modelId) (models r) m Hfind)
        as (before & after & Hsplit & Hbefore & Hm).
      exists r, before, m, after. now repeat split.
    + intros message Hthrow.
      destruct (find (matchesIdentifier modelId) (models r)) as [m|] eqn:Hfind.
      * exfalso. exact (formatModelData_not_Error m message Hthrow).
      * right. injection Hthrow as <-. split; [reflexivity|]. exists r.
        split; [reflexivity|]. intros m Hm. exact (find_none _ _ Hfind m Hm).
  - split; [reflexivity|]. split; [intros e' He'; now injection He' as ->|]. split; [discriminate|].
    intros message Heq. left. now injection Heq as ->.
Qed.

(** X13.  The empty identifier is contained in every name, so on a host whose
    lower-casing leaves the empty string empty, [getModel] of the empty
    identifier answers with the first record of the snapshot, whatever that
    record is, and reports a missing model only for an empty snapshot. *)
Theorem getModel_empty_identifier (w : World) (r : FetchResult) :
  toLowerCase "" = "" ->
  fst (fetchModels false w) = Normal r ->
  fst (getModel "" w)
  = match models r with
    | first :: _ => formatModelData first
    | [] => Throw (Error "Model not found: ")
    end.
Proof.
  intros Hlower Hfetch. unfold getModel.
  destruct (fetchModels false w) as [fetched w1]. cbn [fst] in *. subst fetched.
  cbn [bind]. unfold lookupModel. destruct (models r) as [|first rest]; [reflexivity|].
  cbn [find].
  assert (Hmatch : matchesIdentifier "" first = true).
  { unfold matchesIdentifier. rewrite Hlower.
    assert (Hinc : forall s, includes s "" = true) by (intros s; destruct s; reflexivity).
    rewrite Hinc. apply orb_true_r. }
  now rewrite Hmatch.
Qed.

(** ** The orchestrator asked to compare *)

(** X14.  A request that names two or more identifiers is never answered:
    the call ends in an exception in every world, whether or not records
    match, and leaves the world as the fetch leaves it. *)
Theorem considerModels_comparison_never_answers (params : Params.t) (w : World) :
  moreIdsThan 1 (Params.model_ids params) = true ->
  (exists e, fst (considerModels params w) = Throw e)
  /\ snd (considerModels params w) = snd (fetchModels (Params.force_refresh params) w).
Proof.
  intros Hmany. unfold considerModels.
  destruct (fetchModels (Params.force_refresh params) w) as [[r|e] w1]; cbn [fst snd bind];
    [|split; [now exists e|reflexivity]].
  split; [|reflexivity]. cbv zeta.
  match goal with
  | |- context [mapM formatModelData ?s] => destruct (mapM formatModelData s) as [formatted|e]
  end; cbn [bind]; [|now exists e].
  rewrite Hmany.
  match goal with
  | |- context [generateComparison ?l ?wl] =>
      destruct (generateComparison_throws l wl) as [message ->]
  end.
  cbn [bind]. eexists. reflexivity.
Qed.

(** ** Keyword search *)

Lemma map_filter_map {A B : Type} (f : A -> B) (g : B -> A) (p : B -> bool) (l : list A) :
  (forall x, g (f x) = x) ->
  map g (filter p (map f l)) = filter (fun x => p (f x)) l.
Proof.
  intros Hgf. induction l as [|x l IH]; simpl; [reflexivity|].
  destruct (p (f x)); simpl; now rewrite ?Hgf, IH.
Qed.

Lemma scoreOf_existsb (m : Raw.t) (searchTerms : list string) :
  (0 <? scoreOf m searchTerms)%nat = existsb (termOccurs m) searchTerms.
Proof.
  apply eq_true_iff_eq. rewrite scoreOf_positive, existsb_exists. reflexivity.
Qed.

(** X15.  With search terms, the records found are those of the input, in
    input order, in whose text at least one term occurs; a record found
    scores between 1 and the number of terms; and searching for more terms
    never loses a record. *)
Theorem searchModels_any_term (models : list Raw.t) (searchTerms : list string) :
  map model (searchModels models searchTerms)
  = match searchTerms with
    | [] => models
    | _ :: _ => filter (fun m => existsb (termOccurs m) searchTerms) models
    end
  /\ (forall item, In item (searchModels models searchTerms) ->
        (1 <= score item)%nat
        /\ (searchTerms <> [] -> (score item <= List.length searchTerms)%nat))
  /\ (forall more, searchTerms <> [] ->
        incl (map model (searchModels models searchTerms))
             (map model (searchModels models (searchTerms ++ more)))).
Proof.
  assert (Hfound : forall terms, terms <> [] ->
            map model (searchModels models terms)
            = filter (fun m => existsb (termOccurs m) terms) models).
  { intros terms Hne. destruct terms as [|t ts]; [congruence|]. unfold searchModels.
    rewrite (map_filter_map (fun m => {| model := m; score := scoreOf m (t :: ts) |}) model
               (fun item => (0 <? score item)%nat)) by reflexivity.
    apply filter_ext. intros m. cbn [score]. apply scoreOf_existsb. }
  split; [|split].
  - destruct searchTerms as [|t ts]; [|apply Hfound; discriminate].
    unfold searchModels. rewrite map_map. apply map_id.
  - intros item Hitem. destruct searchTerms as [|t ts].
    + unfold searchModels in Hitem. apply in_map_iff in Hitem.
      destruct Hitem as [m [<- _]]. cbn [score]. split; [lia|congruence].
    + assert (Hscore : score item = scoreOf (model item) (t :: ts))
        by (apply (searchModels_score models); [discriminate|exact Hitem]).
      unfold searchModels in Hitem. apply filter_In in Hitem. destruct Hitem as [_ Hpos].
      apply Nat.ltb_lt in Hpos. split; [lia|]. intros _.
      rewrite Hscore, scoreOf_count. apply filter_length_le.
  - intros more Hne. rewrite !Hfound; [|destruct searchTerms; [congruence|discriminate]|exact Hne].
    intros m Hm. apply filter_In in Hm. destruct Hm as [Hm Hocc]. apply filter_In.
    split; [exact Hm|]. rewrite existsb_app, Hocc. reflexivity.
Qed.

(** ** The normalizer's optional fields *)

(** X16.  In a normalized record an optional fee that is listed is a number
    other than zero and [NaN]; caching is reported exactly when a cache-read
    price is listed, which is exactly when the upstream gives a non-empty
    text for it, the text of a zero included; a Hugging Face identifier is
    never the empty string, and a completion limit is never 0. *)
Theorem formatModelData_optional_fields (m : Raw.t) (r : Rec.t) :
  formatModelData m = Normal r ->
  (forall fee, In (Some fee) (optionalFees (Rec.pricing r)) -> truthy fee = true)
  /\ has_caching (Rec.pricing r) = isSome (cache_read_per_1m (Rec.pricing r))
  /\ (has_caching (Rec.pricing r) = true <->
      exists text, lookup "input_cache_read" (Raw.pricing m) = Some text /\ text <> "")
  /\ Rec.hugging_face_id r <> Some ""
  /\ Rec.max_completion_tokens r <> Some 0%Z.
Proof.
  unfold formatModelData. destruct (isoDate (Raw.created m)); cbn [bind]; [|discriminate].
  intros Heq. injection Heq as <-. cbn [Rec.pricing Rec.hugging_face_id Rec.max_completion_tokens].
  split; [|split; [|split; [|split]]].
  - intros fee Hfee. unfold optionalFees, formatPricing in Hfee.
    cbn [request image web_search internal_reasoning In] in Hfee.
    unfold orUndefined in Hfee.
    repeat match type of Hfee with
           | _ \/ _ => destruct Hfee as [Hfee|Hfee]
           | (if truthy ?x then _ else _) = _ =>
               destruct (truthy x) eqn:Ht; [injection Hfee as <-; exact Ht|discriminate]
           | False => contradiction
           end.
  - unfold formatPricing. cbn [has_caching cache_read_per_1m].
    destruct (lookup "input_cache_read" (Raw.pricing m)) as [text|]; [|reflexivity].
    now destruct (nonEmpty text).
  - unfold formatPricing. cbn [has_caching].
    destruct (lookup "input_cache_read" (Raw.pricing m)) as [text|].
    + rewrite nonEmpty_true. split.
      * intros Hne. now exists text.
      * intros (text' & Heq & Hne). now injection Heq as ->.
    + split; [discriminate|]. intros (text & Heq & _). discriminate.
  - destruct (Raw.hugging_face_id m) as [s|]; [|discriminate].
    destruct (nonEmpty s) eqn:Hs; [|discriminate].
    intros Heq. injection Heq as ->. discriminate.
  - destruct (Raw.top_provider m) as [tp|]; [|discriminate].
    destruct (max_completion_tokens tp) as [n|]; [|discriminate].
    destruct (truthyZ n) eqn:Hn; [|discriminate].
    intros Heq. injection Heq as ->. discriminate.
Qed.

(** X17.  The capability tags come out in one fixed order, each at most once:
    the result is the list of the five tags with those left out that do not
    apply. *)
Theorem getCapabilities_canonical_order (inputs params : option (list string)) :
  getCapabilities inputs params
  = filter (fun tag => mem tag (getCapabilities inputs params)) capabilityTags
  /\ NoDup (getCapabilities inputs params).
Proof.
  unfold getCapabilities.
  destruct (has "image" inputs),
    (match inputs with Some l => (1 <? List.length l)%nat | None => false end),
    (has "tools" params), (has "reasoning" params), (has "structured_outputs" params);
    (split; [reflexivity|]);
    repeat (constructor; [simpl; intuition discriminate|]); constructor.
Qed.

(** ** The provider of an identifier *)

Lemma split_head (s : string) :
  exists p rest,
    split "/" s = p :: rest
    /\ ~ hasSeparator p
    /\ (s = p \/ exists tail, s = (p ++ String "/" tail)%string).
Proof.
  unfold hasSeparator. induction s as [|c s IH]; simpl.
  - exists "", []. split; [reflexivity|]. split; [intros []|now left].
  - destruct (Ascii.eqb c "/") eqn:Hc.
    + apply Ascii.eqb_eq in Hc. subst c.
      exists "", (split "/" s). split; [reflexivity|]. split; [intros []|].
      right. now exists s.
    + destruct IH as (p & rest & -> & Hno & Hs).
      exists (String c p), rest. split; [reflexivity|]. split.
      * simpl. intros [Heq|Hin]; [|now apply Hno].
        subst c. discriminate.
      * destruct Hs as [->|[tail ->]]; [now left|right; now exists tail].
Qed.

(** X18.  The provider of an identifier never contains the separator and is
    the part of the identifier before its first separator, whatever the
    identifier: the identifier itself, or what is followed in it by a
    separator; and the provider of a provider is that provider. *)
Theorem extractProvider_prefix (modelId : string) :
  ~ hasSeparator (extractProvider modelId)
  /\ (modelId = extractProvider modelId
      \/ exists tail, modelId = (extractProvider modelId ++ String "/" tail)%string)
  /\ extractProvider (extractProvider modelId) = extractProvider modelId.
Proof.
  assert (Hhead : exists p rest, split "/" modelId = p :: rest /\ extractProvider modelId = p).
  { destruct (split_head modelId) as (p & rest & Hsplit & _).
    exists p, rest. split; [exact Hsplit|]. unfold extractProvider. rewrite Hsplit.
    destruct (nonEmpty p) eqn:Hp; [reflexivity|]. symmetry. now apply nonEmpty_false. }
  destruct Hhead as (p & rest & Hsplit & ->).
  destruct (split_head modelId) as (p' & rest' & Hsplit' & Hno & Hs).
  rewrite Hsplit in Hsplit'. injection Hsplit' as <- <-.
  split; [exact Hno|]. split; [exact Hs|].
  unfold extractProvider. rewrite (split_no_separator p Hno).
  destruct (nonEmpty p) eqn:Hp; [reflexivity|]. symmetry. now apply nonEmpty_false.
Qed.

(** ** Merging the filters *)

(** X19.  Merging the caller's filters over the parsed ones is a monoid
    action: no filters, or a filter set with nothing in it, changes nothing;
    merging twice is merging the merge; merging a set over itself changes
    nothing; and a caller who sets every field is not affected by the
    request text. *)
Theorem mergeFilters_laws (parsed : Filters.t) :
  mergeFilters parsed None = parsed
  /\ mergeFilters parsed (Some noFilters) = parsed
  /\ mergeFilters noFilters (Some parsed) = parsed
  /\ mergeFilters parsed (Some parsed) = parsed
  /\ (forall b c,
        mergeFilters (mergeFilters parsed (Some b)) (Some c)
        = mergeFilters parsed (Some (mergeFilters b (Some c))))
  /\ (forall explicit other,
        isSome (Filters.provider explicit) && isSome (Filters.free_only explicit)
        && isSome (Filters.min_context explicit) && isSome (Filters.max_context explicit)
        && isSome (Filters.max_price_per_1m explicit) && isSome (Filters.has_vision explicit)
        && isSome (Filters.has_tools explicit) && isSome (Filters.has_reasoning explicit)
        && isSome (Filters.modality explicit) = true ->
        mergeFilters parsed (Some explicit) = mergeFilters other (Some explicit)).
Proof.
  destruct parsed as [p1 p2 p3 p4 p5 p6 p7 p8 p9].
  split; [reflexivity|]. split; [reflexivity|].
  split; [unfold mergeFilters, override; cbn;
          destruct p1, p2, p3, p4, p5, p6, p7, p8, p9; reflexivity|].
  split; [unfold mergeFilters, override; cbn;
          destruct p1, p2, p3, p4, p5, p6, p7, p8, p9; reflexivity|].
  split.
  - intros [b1 b2 b3 b4 b5 b6 b7 b8 b9] [c1 c2 c3 c4 c5 c6 c7 c8 c9].
    unfold mergeFilters, override. cbn.
    destruct c1, c2, c3, c4, c5, c6, c7, c8, c9; reflexivity.
  - intros [e1 e2 e3 e4 e5 e6 e7 e8 e9] other. cbn.
    destruct e1, e2, e3, e4, e5, e6, e7, e8, e9; cbn; try discriminate.
    reflexivity.
Qed.

(** ** Doubles: zero, [NaN] and the finite numbers *)

Lemma is_nan_Prim2SF (x : float) : is_nan x = true <-> Prim2SF x = S754_nan.
Proof.
  unfold is_nan. rewrite eqb_spec. unfold SFeqb. rewrite SFcompare_rank.
  destruct (Prim2SF x) as [s|s| |s m e] eqn:Hx; cbn [rank];
    try (split; [|discriminate]);
    try (assert (Hrefl : forall a, compare3 a a = Eq)
           by (intros a; apply compare3_Eq; now repeat split));
    try (destruct s; rewrite ?Hrefl; discriminate).
  split; reflexivity.
Qed.

Lemma is_zero_Prim2SF (x : float) :
  (x =? 0)%float = true <-> exists s, Prim2SF x = S754_zero s.
Proof.
  rewrite eqb_spec. change (Prim2SF 0) with (S754_zero false).
  destruct (Prim2SF x) as [s|s| |s m e]; cbn.
  - split; [now exists s|reflexivity].
  - split; [destruct s; discriminate|intros [s' Hs]; discriminate].
  - split; [discriminate|intros [s' Hs]; discriminate].
  - split; [destruct s; discriminate|intros [s' Hs]; discriminate].
Qed.

Lemma nan_not_zero (x : float) : is_nan x = true -> (x =? 0)%float = false.
Proof.
  intros Hx. apply is_nan_Prim2SF in Hx. rewrite eqb_spec, Hx. reflexivity.
Qed.

Lemma nan_add_l (x y : float) : is_nan x = true -> is_nan (x + y) = true.
Proof.
  rewrite !is_nan_Prim2SF, add_spec. intros ->. reflexivity.
Qed.

Lemma nan_mul_l (x y : float) : is_nan x = true -> is_nan (x * y) = true.
Proof.
  rewrite !is_nan_Prim2SF, mul_spec. intros ->. reflexivity.
Qed.

Lemma nan_not_le (x y : float) : is_nan x = true -> (x <=? y)%float = false.
Proof.
  intros Hx. apply is_nan_Prim2SF in Hx. rewrite leb_spec, Hx. reflexivity.
Qed.

Lemma nan_not_truthy (x : float) : is_nan x = true -> truthy x = false.
Proof.
  intros Hx. unfold truthy. rewrite Hx. apply andb_false_r.
Qed.

Lemma zero_not_truthy (x : float) : (x =? 0)%float = true -> truthy x = false.
Proof.
  intros Hx. unfold truthy. now rewrite Hx.
Qed.

Lemma truthy_finite (n : float) :
  truthy n = true -> is_infinity n = false ->
  exists s m e, Prim2SF n = S754_finite s m e.
Proof.
  unfold truthy, is_infinity. rewrite andb_true_iff, !negb_true_iff.
  intros [Hzero Hnan] Hinf.
  rewrite eqb_spec, abs_spec in Hinf. change (Prim2SF infinity) with (S754_infinity false) in Hinf.
  destruct (Prim2SF n) as [s|s| |s m e] eqn:Hn.
  - assert (Hz : (n =? 0)%float = true) by (apply is_zero_Prim2SF; now exists s).
    congruence.
  - discriminate.
  - assert (Hx : is_nan n = true) by now apply is_nan_Prim2SF.
    congruence.
  - now exists s, m, e.
Qed.

Lemma zero_mul_finite (x n : float) :
  (x =? 0)%float = true -> truthy n = true -> is_infinity n = false ->
  (x * n =? 0)%float = true.
Proof.
  intros Hx Hn Hfin. apply is_zero_Prim2SF in Hx. destruct Hx as [s Hx].
  destruct (truthy_finite n Hn Hfin) as (s' & m & e & Hn').
  apply is_zero_Prim2SF. rewrite mul_spec, Hx, Hn'. eexists. reflexivity.
Qed.

Lemma zero_add_zero (x y : float) :
  (x =? 0)%float = true -> (y =? 0)%float = true -> (x + y =? 0)%float = true.
Proof.
  intros Hx Hy. apply is_zero_Prim2SF in Hx, Hy.
  destruct Hx as [s Hx], Hy as [s' Hy].
  apply is_zero_Prim2SF. rewrite add_spec, Hx, Hy.
  destruct s, s'; eexists; reflexivity.
Qed.

Lemma given_Some (v : option float) (n : float) :
  given v = Some n -> v = Some n /\ truthy n = true.
Proof.
  unfold given. destruct v as [x|]; [|discriminate].
  destruct (truthy x) eqn:Hx; [|discriminate].
  intros Heq. injection Heq as <-. now split.
Qed.

(** ** A price that is not a number *)

(** X20.  A record whose prompt price reads as [NaN] is not free and is kept
    by no filter set that asks for free models or sets a price cap; its
    per-million figures are [NaN]; yet the cost calculator prices its prompt
    tokens at zero. *)
Theorem unparsable_price_is_inconsistent (m : Raw.t) (r : Rec.t) :
  formatModelData m = Normal r ->
  is_nan (parsePrice (prop (Raw.pricing m) "prompt")) = true ->
  Rec.is_free r = false
  /\ is_nan (prompt_per_1m (Rec.pricing r)) = true
  /\ is_nan (total_per_1m (Rec.pricing r)) = true
  /\ (forall models f,
        Filters.free_only f = Some true -> ~ In m (applyFilters models f))
  /\ (forall models f limit,
        Filters.max_price_per_1m f = Some limit -> truthy limit = true ->
        ~ In m (applyFilters models f))
  /\ (forall w tokens,
        given (prompt_tokens w) = Some tokens ->
        prompt_cost (breakdown (calculateCost r w)) = Some (0 * tokens)%float).
Proof.
  intros Hnormal Hnan.
  destruct (formatModelData_fields m r Hnormal) as (_ & _ & _ & _ & Hpricing & Hfree & _).
  assert (Hnot : isFree (Raw.pricing m) = false).
  { unfold isFree. now rewrite (nan_not_zero _ Hnan). }
  split; [now rewrite Hfree|].
  rewrite Hpricing. unfold formatPricing. cbn [prompt_per_1m total_per_1m prompt].
  split; [now apply nan_mul_l|]. split; [now apply nan_mul_l, nan_add_l|].
  split; [|split].
  - intros models f Hf Hin. rewrite applyFilters_filter in Hin.
    apply filter_In in Hin. destruct Hin as [_ Hadm].
    apply passes_spec in Hadm. destruct Hadm as (_ & Hfr & _).
    rewrite (Hfr Hf) in Hnot. discriminate.
  - intros models f limit Hf Hlimit Hin. rewrite applyFilters_filter in Hin.
    apply filter_In in Hin. destruct Hin as [_ Hadm].
    apply passes_spec in Hadm. destruct Hadm as (_ & _ & _ & _ & Hprice & _).
    specialize (Hprice limit Hf Hlimit).
    rewrite nan_not_le in Hprice; [discriminate|].
    apply nan_mul_l. unfold rawTotal. now apply nan_add_l.
  - intros w tokens Hgiven. unfold calculateCost. cbv zeta. cbn [breakdown prompt_cost].
    rewrite Hgiven, Hpricing. unfold formatPricing. cbn [prompt].
    set (price := parsePrice (prop (Raw.pricing m) "prompt")) in *.
    cbn [parsePrice]. now rewrite (nan_not_truthy price Hnan).
Qed.

(** ** What a free model costs *)

Lemma parsePrice_zero (x : float) :
  (x =? 0)%float = true -> parsePrice (Num x) = 0%float.
Proof.
  intros Hx. cbn [parsePrice]. now rewrite (zero_not_truthy x Hx).
Qed.

(** X21.  A free model that lists no request fee and no image fee costs
    nothing: for every workload none of whose figures is infinite, every
    component of the estimate is zero and so is the total. *)
Theorem free_model_costs_nothing (m : Raw.t) (r : Rec.t) (w : Workload) :
  formatModelData m = Normal r ->
  Rec.is_free r = true ->
  request (Rec.pricing r) = None ->
  image (Rec.pricing r) = None ->
  (forall figure, In (Some figure) (workloadFigures w) -> is_infinity figure = false) ->
  (total (calculateCost r w) =? 0)%float = true
  /\ forall c, In (Some c) (components (breakdown (calculateCost r w))) ->
               (c =? 0)%float = true.
Proof.
  intros Hnormal Hfree Hrequest Himage Hfinite.
  destruct (formatModelData_fields m r Hnormal) as (_ & _ & _ & _ & Hpricing & Hisfree & _).
  rewrite Hisfree in Hfree. unfold isFree in Hfree. apply andb_true_iff in Hfree.
  destruct Hfree as [Hprompt Hcompletion].
  assert (Hp : parsePrice (Num (prompt (Rec.pricing r))) = 0%float)
    by (rewrite Hpricing; apply parsePrice_zero, Hprompt).
  assert (Hc : parsePrice (Num (completion (Rec.pricing r))) = 0%float)
    by (rewrite Hpricing; apply parsePrice_zero, Hcompletion).
  assert (Hzero : (0 =? 0)%float = true) by reflexivity.
  assert (Hmul : forall v n, given v = Some n -> In v (workloadFigures w) ->
                   (0 * n =? 0)%float = true).
  { intros v n Hgiven Hin. apply given_Some in Hgiven. destruct Hgiven as [-> Hn].
    apply zero_mul_finite; [reflexivity|exact Hn|now apply Hfinite]. }
  assert (Hthirty : forall x, (x =? 0)%float = true -> (x * 30 =? 0)%float = true).
  { intros x Hx. apply zero_mul_finite; [exact Hx|reflexivity|reflexivity]. }
  unfold calculateCost, components. cbv zeta.
  cbn [total breakdown prompt_cost completion_cost daily_request_cost monthly_request_cost
       image_cost].
  rewrite Hp, Hc, Hrequest, Himage. cbn [numberOrUndefined parsePrice].
  change (orElse 0 0) with 0%float.
  pose proof (Hmul (prompt_tokens w)) as H1.
  pose proof (Hmul (completion_tokens w)) as H2.
  pose proof (Hmul (requests_per_day w)) as H3.
  pose proof (Hmul (requests_per_month w)) as H4.
  pose proof (Hmul (images w)) as H5.
  unfold workloadFigures in H1, H2, H3, H4, H5.
  destruct (given (prompt_tokens w)) as [n1|];
    [specialize (H1 n1 eq_refl (or_introl eq_refl))|clear H1];
  (destruct (given (completion_tokens w)) as [n2|];
    [specialize (H2 n2 eq_refl (or_intror (or_introl eq_refl)))|clear H2]);
  (destruct (given (requests_per_day w)) as [n3|];
    [specialize (H3 n3 eq_refl (or_intror (or_intror (or_introl eq_refl))))|clear H3]);
  (destruct (given (requests_per_month w)) as [n4|];
    [specialize (H4 n4 eq_refl (or_intror (or_intror (or_intror (or_introl eq_refl)))))
    |clear H4]);
  (destruct (given (images w)) as [n5|];
    [specialize (H5 n5 eq_refl
                   (or_intror (or_intror (or_intror (or_intror (or_introl eq_refl))))))
    |clear H5]);
  (split;
   [repeat (apply zero_add_zero; [|assumption]); exact Hzero
   |intros c Hin; cbn [In] in Hin;
    repeat match type of Hin with
           | _ \/ _ => destruct Hin as [Hin|Hin]
           | Some _ = Some _ => injection Hin as <-; auto
           | None = Some _ => discriminate
           | False => contradiction
           end]).
Qed.

(** ** A request for long context, end to end *)

Lemma parseRequest_sort (request : string) :
  sort_preference (parseRequest request)
  = if mentions request ["long context"; "large context"] then "context"
    else if mentions request ["cheap"; "affordable"; "low cost"] then "price"
         else "relevance".
Proof.
  unfold parseRequest, mentions. cbv zeta. cbn [sort_preference existsb].
  now rewrite !orb_false_r, !orb_assoc.
Qed.

Lemma StronglySorted_firstn {A : Type} (R : A -> A -> Prop) (n : nat) (l : list A) :
  StronglySorted R l -> StronglySorted R (firstn n l).
Proof.
  intros Hs. revert n. induction Hs as [|a l Hs IH Hall]; intros [|n]; simpl;
    try constructor.
  - apply IH.
  - rewrite Forall_forall in *. intros x Hx. apply Hall.
    rewrite <- (firstn_skipn n l). apply in_or_app. now left.
Qed.

Lemma StronglySorted_slice0 {A : Type} (R : A -> A -> Prop) (n : Z) (l : list A) :
  StronglySorted R l -> StronglySorted R (slice0 l n).
Proof.
  intros Hs. unfold slice0. destruct (0 <=? n)%Z; now apply StronglySorted_firstn.
Qed.

Lemma StronglySorted_Forall2 {A B : Type} (P : A -> B -> Prop)
  (R : A -> A -> Prop) (S : B -> B -> Prop) (l : list A) (l' : list B) :
  (forall a a' b b', P a a' -> P b b' -> R a b -> S a' b') ->
  Forall2 P l l' -> StronglySorted R l -> StronglySorted S l'.
Proof.
  intros Hrel Hall. induction Hall as [|a a' l l' Ha Hall IH]; intros Hs; constructor.
  - apply IH. now inversion Hs.
  - inversion Hs as [|? ? _ Hfirst]; subst. rewrite Forall_forall in *.
    intros b' Hb'. destruct (Forall2_In_r _ _ _ _ Hall Hb') as [b [Hb Hbb']].
    exact (Hrel a a' b b' Ha Hbb' (Hfirst b Hb)).
Qed.

(** X22.  A request that speaks of long or large context is answered, when
    the caller names no sort key, with the models in order of descending
    context length; and, when the caller sets no context floor of their own,
    with models of at least 100000 tokens of context only. *)
Theorem considerModels_long_context (params : Params.t) (w w' : World) (r : FetchResult)
  (reply : Reply.t) :
  fetchModels (Params.force_refresh params) w = (Normal r, w') ->
  fst (considerModels params w) = Normal reply ->
  mentions match Params.request params with Some s => s | None => "" end
    ["long context"; "large context"] = true ->
  (Params.sort_by params = None ->
   StronglySorted (fun a b => (entry_context_length b <= entry_context_length a)%Z)
     (Reply.models reply))
  /\ ((forall explicit, Params.filters params = Some explicit ->
                        Filters.min_context explicit = None) ->
      forall entry, In entry (Reply.models reply) ->
                    (100000 <= entry_context_length entry)%Z).
Proof.
  intros Hfetch Hreply Hlong.
  destruct (considerModels_inv params w w' r reply Hfetch Hreply)
    as (formatted & Hformatted & Hmodels & _).
  apply mapM_Forall2 in Hformatted.
  split.
  - intros Hsort. rewrite Hmodels.
    apply StronglySorted_map, StronglySorted_slice0.
    assert (Hcosted : StronglySorted
              (fun a b : Rec.t => (Rec.context_length b <= Rec.context_length a)%Z)
              formatted).
    { eapply StronglySorted_Forall2; [|exact Hformatted|].
      - intros a a' b b' Ha Hb Hab.
        destruct (formatModelData_fields a a' Ha) as (_ & _ & _ & -> & _).
        destruct (formatModelData_fields b b' Hb) as (_ & _ & _ & -> & _).
        exact Hab.
      - unfold shortlist. cbv zeta. unfold intentOf at 3.
        rewrite Hsort, parseRequest_sort, Hlong.
        apply (descending_Sorted Raw.context_length). }
    unfold withCosts. apply StronglySorted_map.
    eapply StronglySorted_weaken; [|exact Hcosted].
    intros a b _ _ Hab. exact Hab.
  - intros Hfloor entry Hentry. rewrite Hmodels in Hentry.
    apply in_map_iff in Hentry. destruct Hentry as [[record estimate] [<- Hitem]].
    apply slice0_incl in Hitem. unfold withCosts in Hitem.
    apply in_map_iff in Hitem. destruct Hitem as [record' [Heq Hrecord]].
    injection Heq as -> _.
    destruct (Forall2_In_r _ _ _ _ Hformatted Hrecord) as [m [Hm Hnormal]].
    destruct (formatModelData_fields m record Hnormal) as (_ & _ & _ & Hctx & _).
    cbn [entryOf entry_context_length]. rewrite Hctx.
    apply shortlist_In in Hm. destruct Hm as (_ & Hadm & _).
    apply passes_spec in Hadm. destruct Hadm as (_ & _ & Hmin & _).
    apply Hmin; [|discriminate].
    unfold combinedFilters, intentOf. rewrite parseRequest_filters, Hlong.
    unfold mergeFilters. destruct (Params.filters params) as [explicit|] eqn:Hexplicit;
      [|reflexivity].
    cbn [Filters.min_context]. now rewrite (Hfloor explicit eq_refl).
Qed.

End Engine.

(** ** The properties, at work *)

Lemma filtered_records_keep_promises_witness :
  exists r, formatModelData (H := hostModel) freebie = Normal r /\ Rec.is_free r = true.
Proof.
  eexists. split; [reflexivity|].
  edestruct (filtered_records_keep_promises (H := hostModel) [gpt4; freebie] freeOnly freebie)
    with (estimate := @None CostEstimate) as (Hfree & _);
    [vm_compute; left; reflexivity|reflexivity|].
  apply Hfree. reflexivity.
Defined.

Lemma considerModels_sound_witness :
  exists reply,
    fst (considerModels (H := hostModel) (askInWords "gpt chat" None) (freshWorld catalog))
    = Normal reply
    /\ Reply.total_models_found reply = 2%nat.
Proof.
  eexists. split; [reflexivity|].
  edestruct (considerModels_sound (H := hostModel) (askInWords "gpt chat" None)
               (freshWorld catalog)) as [Htotal _]; [reflexivity|reflexivity|].
  exact Htotal.
Defined.

Lemma considerModels_counts_witness :
  exists reply,
    fst (considerModels (H := hostModel) (askFor ["gpt-4"]) (freshWorld catalog)) = Normal reply
    /\ (Reply.models_returned reply <= Reply.total_models_found reply)%nat.
Proof.
  eexists. split; [reflexivity|].
  edestruct (considerModels_counts (H := hostModel) (askFor ["gpt-4"]) (freshWorld catalog))
    as (_ & Hle & _); [reflexivity|reflexivity|].
  exact Hle.
Defined.

Lemma considerModels_cost_analysis_witness :
  exists reply analysis,
    fst (considerModels (H := hostModel) (askInWords "" (Some thousandTokens))
           (freshWorld catalog)) = Normal reply
    /\ Reply.cost_analysis reply = Some analysis
    /\ potential_savings analysis
       = (cost (most_expensive_option analysis) - cost (cheapest_option analysis))%float.
Proof.
  eexists. eexists. split; [reflexivity|]. split; [reflexivity|].
  edestruct (considerModels_cost_analysis (H := hostModel)
               (askInWords "" (Some thousandTokens)) (freshWorld catalog))
    as (_ & _ & Hanalysis); [reflexivity|reflexivity|].
  apply Hanalysis. reflexivity.
Defined.

Lemma shortlist_ranked_by_score_witness :
  StronglySorted
    (fun a b =>
       (scoreOf (H := hostModel) b
          (search_terms (intentOf (H := hostModel) (askInWords "gpt chat" None)))
        <= scoreOf (H := hostModel) a
             (search_terms (intentOf (H := hostModel) (askInWords "gpt chat" None))))%nat)
    (shortlist (H := hostModel) (askInWords "gpt chat" None) catalog).
Proof.
  apply (shortlist_ranked_by_score (H := hostModel) (askInWords "gpt chat" None) catalog).
  reflexivity.
Defined.

Lemma fetchModels_round_trip_witness :
  exists w1,
    snd (fetchModels false (freshWorld [gpt4])) = w1
    /\ fetchModels false (elapse w1 1700000001500 (Rejected (TypeError "fetch failed")))
       = (Normal {| models := [gpt4]; cache_age := 1; cached := true |},
          elapse w1 1700000001500 (Rejected (TypeError "fetch failed"))).
Proof.
  eexists. split; [reflexivity|].
  edestruct (fetchModels_round_trip false (freshWorld [gpt4]))
    as (fetchedAt & Hcache & _ & _ & Hhit & _); [reflexivity|].
  injection Hcache as <-.
  apply (Hhit 1700000001500%Z (Rejected (TypeError "fetch failed"))); [discriminate|reflexivity].
Defined.

Lemma getModel_empty_identifier_witness :
  fst (getModel (H := hostModel) "" (cachedWorld [gpt4turbo; gpt4] 1500))
  = formatModelData (H := hostModel) gpt4turbo.
Proof.
  apply (getModel_empty_identifier (H := hostModel) (cachedWorld [gpt4turbo; gpt4] 1500)
           {| models := [gpt4turbo; gpt4]; cache_age := 1; cached := true |});
    reflexivity.
Defined.

Lemma considerModels_comparison_never_answers_witness :
  exists e,
    fst (considerModels (H := hostModel) (askFor ["openai/gpt-4-turbo"; "gpt-4"])
           (freshWorld catalog)) = Throw e.
Proof.
  apply (considerModels_comparison_never_answers (H := hostModel)
           (askFor ["openai/gpt-4-turbo"; "gpt-4"]) (freshWorld catalog)).
  reflexivity.
Defined.

Lemma formatModelData_optional_fields_witness :
  exists r,
    formatModelData (H := hostModel) perCall = Normal r
    /\ request (Rec.pricing r) = Some 0.5%float
    /\ forall fee, In (Some fee) (optionalFees (Rec.pricing r)) -> truthy fee = true.
Proof.
  eexists. split; [reflexivity|]. split; [vm_compute; reflexivity|].
  edestruct (formatModelData_optional_fields (H := hostModel) perCall) as (Hfees & _);
    [reflexivity|].
  exact Hfees.
Defined.

Lemma unparsable_price_is_inconsistent_witness :
  exists r,
    formatModelData (H := hostModel) mispriced = Normal r
    /\ Rec.is_free r = false
    /\ prompt_cost (breakdown (calculateCost (H := hostModel) r thousandTokens))
       = Some (0 * 1000)%float.
Proof.
  eexists. split; [reflexivity|].
  edestruct (unparsable_price_is_inconsistent (H := hostModel) mispriced)
    as (Hfree & _ & _ & _ & _ & Hcost); [reflexivity|vm_compute; reflexivity|].
  split; [exact Hfree|]. apply Hcost. reflexivity.
Defined.

Lemma free_model_costs_nothing_witness :
  exists r,
    formatModelData (H := hostModel) freebie = Normal r
    /\ (total (calculateCost (H := hostModel) r thousandTokens) =? 0)%float = true.
Proof.
  eexists. split; [reflexivity|].
  edestruct (free_model_costs_nothing (H := hostModel) freebie) with (w := thousandTokens)
    as (Htotal & _).
  - reflexivity.
  - vm_compute. reflexivity.
  - vm_compute. reflexivity.
  - vm_compute. reflexivity.
  - intros figure Hin. simpl in Hin.
    destruct Hin as [Heq|[Heq|[Heq|[Heq|[Heq|[]]]]]];
      try discriminate; injection Heq as <-; reflexivity.
  - exact Htotal.
Defined.

Lemma considerModels_long_context_witness :
  exists reply,
    fst (considerModels (H := hostModel) (askInWords "long context" None) (freshWorld catalog))
    = Normal reply
    /\ forall entry, In entry (Reply.models reply) ->
                     (100000 <= entry_context_length entry)%Z.
Proof.
  eexists. split; [reflexivity|].
  edestruct (considerModels_long_context (H := hostModel) (askInWords "long context" None)
               (freshWorld catalog)) as (_ & Hfloor);
    [reflexivity|reflexivity|reflexivity|].
  apply Hfloor. intros explicit Hexplicit. discriminate.
Defined.
